(** * teradata.tdodbc: the ODBC marshalling layer of PyTd

    A shallow embedding of [src/teradata/tdodbc.py] and the properties of
    its status checking, session control, parameter binding and row
    decoding.

    Conventions of the embedding.
    - The module selects its buffer helpers by platform; the embedding follows
      the Unix/Linux branch ([_createBuffer = create_string_buffer],
      [SQLWCHAR = c_char]) under Python 3.  Text is represented by its UTF-8
      code units, so [encode('utf8')] is the identity on the representation,
      and [unicode(_, 'utf8')] is the identity on well-formed sequences and
      a [UnicodeDecodeError] on the others.
    - Native ODBC calls are answered by a driver, an arbitrary state machine
      [drv_step]; every call and its answer is recorded in the log.
    - Python exceptions are results [Raise e]; the unbounded [while] loops
      take fuel, and running out of it is [Diverge], which no [except]
      clause catches.
    - Logging, the module lock and [atexit] registration have no effect on
      results and are left out. *)

From Stdlib Require Import ZArith List String Ascii Bool Lia DecimalString.
From stdpp Require Import base option list strings.
Import ListNotations.
Open Scope Z_scope.

(** ** Python and ctypes data *)

(** Text and byte strings, as sequences of code units. *)
Abbreviation pystr := (list ascii).

Definition py (s : string) : pystr := list_ascii_of_string s.

Definition NUL : ascii := Ascii.zero.

Definition is_nul (c : ascii) : bool := Ascii.eqb c NUL.

(** [str(z)] for an integer. *)
Definition str_of_Z (z : Z) : pystr := py (NilZero.string_of_int (Z.to_int z)).

(** Two's complement reading of a value stored in a [bits]-wide C integer. *)
Definition sint (bits : Z) (z : Z) : Z :=
  (z + 2 ^ (bits - 1)) mod 2 ^ bits - 2 ^ (bits - 1).

(* ODBC Constants *)
Definition SQL_ATTR_ODBC_VERSION := 200.
Definition SQL_OV_ODBC3 := 3.
Definition SQL_ATTR_QUERY_TIMEOUT := 0.
Definition SQL_ATTR_AUTOCOMMIT := 102.
Definition SQL_NULL_HANDLE := 0.
Definition SQL_HANDLE_ENV := 1.
Definition SQL_HANDLE_DBC := 2.
Definition SQL_HANDLE_STMT := 3.
Definition SQL_SUCCESS := 0.
Definition SQL_SUCCESS_WITH_INFO := 1.
Definition SQL_ERROR := -1.
Definition SQL_INVALID_HANDLE := -2.
Definition SQL_NEED_DATA := 99.
Definition SQL_NO_DATA := 100.
Definition SQL_CLOSE := 0.
Definition SQL_RESET_PARAMS := 3.
Definition SQL_PARAM_INPUT := 1.
Definition SQL_PARAM_INPUT_OUTPUT := 2.
Definition SQL_PARAM_OUTPUT := 4.
Definition SQL_ATTR_PARAM_BIND_TYPE := 18.
Definition SQL_ATTR_PARAMSET_SIZE := 22.
Definition SQL_PARAM_BIND_BY_COLUMN := 0.
Definition SQL_NULL_DATA := -1.
Definition SQL_NTS := -3.
Definition SQL_IS_UINTEGER := -5.
Definition SQL_C_BINARY := -2.
Definition SQL_LONGVARBINARY := -4.
Definition SQL_C_WCHAR := -8.
Definition SQL_WVARCHAR := -9.
Definition SQL_WLONGVARCHAR := -10.
Definition SQL_DESC_TYPE_NAME := 14.
Definition SQL_COMMIT := 0.
Definition SQL_ROLLBACK := 1.

Definition SQL_STATE_DATA_TRUNCATED : pystr := py "01004".
Definition SQL_STATE_CONNECTION_NOT_OPEN : pystr := py "08003".
Definition SQL_STATE_INVALID_TRANSACTION_STATE : pystr := py "25000".

Definition SMALL_BUFFER_SIZE := 2 ^ 12.
Definition LARGE_BUFFER_SIZE := 2 ^ 20.
Definition TRUE := 1.
Definition FALSE := 0.

(* The amount of seconds to wait when submitting non-user defined SQL. *)
Definition QUERY_TIMEOUT := 120.

(** A ctypes array of [cap] bytes, zero-initialised.  [data] is the explicit
    prefix of its contents; every byte beyond it is zero. *)
Record Buffer := mkBuffer { cap : Z; data : pystr }.

(** [ctypes.create_string_buffer(l)] *)
Definition _createBuffer (l : Z) : Buffer := mkBuffer l [].

(** The driver stores [written] at the start of the array, never beyond its
    capacity. *)
Definition poke (written : pystr) (b : Buffer) : Buffer :=
  mkBuffer (cap b)
    (take (Z.to_nat (cap b)) (written ++ drop (length written) (data b))).

Fixpoint until_nul (s : pystr) : pystr :=
  match s with
  | [] => []
  | c :: s' => if is_nul c then [] else c :: until_nul s'
  end.

(** Well-formed UTF-8, as the decoder of Python 3 accepts it: no overlong
    form, no surrogate, nothing above U+10FFFF. *)
Definition byte_in (lo hi : N) (c : ascii) : bool :=
  ((lo <=? N_of_ascii c) && (N_of_ascii c <=? hi))%N.

Definition continuation : ascii -> bool := byte_in 128 191.

Fixpoint utf8_ok (s : pystr) : bool :=
  match s with
  | [] => true
  | a :: s1 =>
    if byte_in 0 127 a then utf8_ok s1
    else
      match s1 with
      | [] => false
      | b :: s2 =>
        if byte_in 194 223 a then continuation b && utf8_ok s2
        else
          match s2 with
          | [] => false
          | c :: s3 =>
            if byte_in 224 239 a then
              (if byte_in 224 224 a then byte_in 160 191 b
               else if byte_in 237 237 a then byte_in 128 159 b
               else continuation b)
              && continuation c && utf8_ok s3
            else
              match s3 with
              | [] => false
              | d :: s4 =>
                if byte_in 240 244 a then
                  (if byte_in 240 240 a then byte_in 144 191 b
                   else if byte_in 244 244 a then byte_in 128 143 b
                   else continuation b)
                  && continuation c && continuation d && utf8_ok s4
                else false
              end
          end
      end
  end.

(** Text of ASCII characters other than the zero character. *)
Definition ascii_text (s : pystr) : Prop :=
  Forall (fun c => byte_in 1 127 c = true) s.

(** The first [n] bytes of the array: [(ctypes.c_ubyte * n).from_buffer(buf)]. *)
Definition raw_bytes (n : nat) (b : Buffer) : pystr :=
  take n (data b ++ repeat NUL (n - length (data b))).

(** A handle attribute: Python's [None], or a [c_void_p] holding an address. *)
Inductive pyhandle := HNone | HPtr (v : Z).

(** Truth value of a handle attribute ([if self.hDbc:]). *)
Definition truthy (h : pyhandle) : bool :=
  match h with HNone => false | HPtr v => negb (v =? 0) end.

(** The address passed to the driver. *)
Definition addr (h : pyhandle) : Z :=
  match h with HNone => 0 | HPtr v => v end.

(** A keyword argument of [checkStatus]: left at its default
    [SQL_NULL_HANDLE], or given.  A given handle is a [c_void_p] or [None],
    neither of which compares equal to the integer [0]. *)
Inductive harg := Default | Given (h : pyhandle).

(** Parameter values supplied by callers. *)
Inductive pyval :=
| PNone
| PStr (s : pystr)
| PInt (z : Z)
| PBytes (b : pystr)          (* bytearray *)
| PParam (id : nat).          (* OutParam / InOutParam object *)

(** Values of a fetched row. *)
Inductive rowval :=
| VNone
| VStr (s : pystr)
| VBytes (b : pystr).         (* bytearray *)

Inductive exn :=
| InterfaceError (code msg : pystr) (args : list Z)
| DatabaseError (code : Z) (msg : pystr) (sqlState : pystr)
| ValueError
| IndexError
| TypeError
| AttributeError
| UnicodeDecodeError.

(** The outcome of a run: a value, a Python exception, or no outcome within
    the fuel. *)
Inductive Res (A : Type) :=
| Ret (a : A)
| Raise (e : exn)
| Diverge.
Arguments Ret {A} a.
Arguments Raise {A} e.
Arguments Diverge {A}.

(** [unicode(b, 'utf8')] *)
Definition decode_utf8 (b : pystr) : Res pystr :=
  if utf8_ok b then Ret b else Raise UnicodeDecodeError.

(** [_outputStr = lambda s : unicode(s.raw.partition(b'\00')[0], 'utf8')] *)
Definition _outputStr (s : Buffer) : Res pystr :=
  decode_utf8 (until_nul (data s)).

(** A diagnostic record, as [getDiagnosticInfo] lists it:
    (state, message, native error code). *)
Definition DiagRec := (pystr * pystr * Z)%type.

(** ** The native call boundary *)

Inductive Call :=
| SQLAllocHandle (handleType inputHandle : Z)
| SQLGetDiagRecW (handleType handle recNumber bufferLength : Z)
| SQLSetEnvAttr (hEnv attr val : Z)
| SQLDriverConnectW (hDbc : Z) (connectString : pystr)
| SQLFreeHandle (handleType handle : Z)
| SQLExecDirectW (hStmt : Z) (query : pystr)
| SQLNumResultCols (hStmt : Z)
| SQLDescribeColW (hStmt col bufferLength : Z)
| SQLColAttributeW (hStmt col field bufferLength : Z)
| SQLFetch (hStmt : Z)
| SQLGetData (hStmt col targetType bufferLength : Z)
| SQLFreeStmt (hStmt option : Z)
| SQLPrepareW (hStmt : Z) (query : pystr)
| SQLNumParams (hStmt : Z)
| SQLDescribeParam (hStmt paramNum : Z)
| SQLBindParameter (hStmt paramNum ioType valueType paramType columnSize : Z)
    (param : option (nat * Buffer)) (bufferLength : Z) (lengths : list Z)
| SQLExecute (hStmt : Z)
| SQLSetStmtAttr (hStmt attr val : Z)
| SQLMoreResults (hStmt : Z)
| SQLDisconnect (hDbc : Z)
| SQLSetConnectAttr (hDbc attr val : Z)
| SQLEndTran (handleType handle completionType : Z)
| SQLRowCount (hStmt : Z).

(** What the driver hands back: the return code, the values it stores through
    the integer out-pointers of the call and the bytes it stores into the
    buffer arguments (both in argument order; [None] or a missing entry leaves
    the variable as it was), and its stores into buffers bound earlier. *)
Record Response := mkResponse {
  rc : Z;
  outInts : list (option Z);
  outBufs : list pystr;
  outWrites : list (nat * pystr)
}.

Definition out_int (k : nat) (old : Z) (r : Response) : Z :=
  match outInts r !! k with
  | Some (Some z) => z
  | _ => old
  end.

Definition out_buf (k : nat) (old : Buffer) (r : Response) : Buffer :=
  match outBufs r !! k with
  | Some s => poke s old
  | None => old
  end.

(** [SQLRETURN = SQLSMALLINT]: the return code as Python sees it. *)
Definition rc_of (r : Response) : Z := sint 16 (rc r).

(** ** Objects *)

Record Conn := mkConn {
  hDbc : pyhandle;
  cursorCount : Z;
  sessionno : Z;
  cursors : list nat;
  dbType : pystr
}.

(** An entry of [cursor.description]:
    (name, type code, None, size, decimal digits, None, nullable). *)
Definition ColDesc := (pystr * pystr * Z * Z * Z)%type.

(** The suspended frame of a [rowIterator] generator. *)
Record RowIter := mkRowIter {
  it_buf : Buffer;
  it_length : Z;
  it_done : bool
}.

Record Cursor := mkCursor {
  hStmt : pyhandle;
  num : Z;
  connection : nat;
  description : option (list ColDesc);
  rowcount : Z;
  rownumber : option Z;
  columns : list (pystr * Z);
  types : list (pystr * pystr);
  iterator : option RowIter
}.

(** The value of the local variable [param] of [executemany]. *)
Inductive pyparam :=
| ParNone
| ParStr (id : nat)           (* a string buffer *)
| ParBytes (id : nat).        (* a SQLBYTE array over a bytearray *)

(** An [OutParam] ([io = false]) or [InOutParam] ([io = true]) object.
    [valueFunc] is the closure [lambda: _outputStr(param)]: it holds the
    variable [param] of the [executemany] call that created it, that is the
    cell with the given index, and reads it when it is called. *)
Record OutParam := mkOutParam {
  io : bool;
  inValue : pyval;
  size : option Z;
  valueFunc : option nat
}.

Definition with_hDbc (h : pyhandle) (c : Conn) : Conn :=
  mkConn h (cursorCount c) (sessionno c) (cursors c) (dbType c).

Definition with_cursorCount (n : Z) (c : Conn) : Conn :=
  mkConn (hDbc c) n (sessionno c) (cursors c) (dbType c).

Definition with_sessionno (n : Z) (c : Conn) : Conn :=
  mkConn (hDbc c) (cursorCount c) n (cursors c) (dbType c).

Definition with_cursors (l : list nat) (c : Conn) : Conn :=
  mkConn (hDbc c) (cursorCount c) (sessionno c) l (dbType c).

Definition with_hStmt (h : pyhandle) (c : Cursor) : Cursor :=
  mkCursor h (num c) (connection c) (description c) (rowcount c)
    (rownumber c) (columns c) (types c) (iterator c).

Definition with_iterator (it : option RowIter) (c : Cursor) : Cursor :=
  mkCursor (hStmt c) (num c) (connection c) (description c) (rowcount c)
    (rownumber c) (columns c) (types c) it.

Definition with_valueFunc (f : option nat) (p : OutParam) : OutParam :=
  mkOutParam (io p) (inValue p) (size p) f.

Definition with_results (d : option (list ColDesc)) (rc : Z)
    (rn : option Z) (cols : list (pystr * Z)) (ts : list (pystr * pystr))
    (c : Cursor) : Cursor :=
  mkCursor (hStmt c) (num c) (connection c) d rc rn cols ts (iterator c).

Definition with_rowcount (n : Z) (c : Cursor) : Cursor :=
  with_results (description c) n (rownumber c) (columns c) (types c) c.

(** A value stored in an unsigned [bits]-wide C integer. *)
Definition uint (bits : Z) (z : Z) : Z := z mod 2 ^ bits.

(** [d[k] = v] on a dictionary kept in insertion order. *)
Fixpoint dict_set {V} (k : pystr) (v : V) (d : list (pystr * V))
  : list (pystr * V) :=
  match d with
  | [] => [(k, v)]
  | (k', v') :: d' =>
    if bool_decide (k = k') then (k, v) :: d' else (k', v') :: dict_set k v d'
  end.

(** [s.lower()] on the ASCII letters. *)
Definition lower_ascii (c : ascii) : ascii :=
  let n := nat_of_ascii c in
  if ((65 <=? n) && (n <=? 90))%nat then ascii_of_nat (n + 32) else c.

Definition lower (s : pystr) : pystr := map lower_ascii s.

(** [sep.join(l)] *)
Fixpoint join (sep : pystr) (l : list pystr) : pystr :=
  match l with
  | [] => []
  | [x] => x
  | x :: l' => x ++ sep ++ join sep l'
  end.

(** [u"{}={}".format(k, v)] *)
Definition format_kv (kv : pystr * pystr) : pystr := kv.1 ++ py "=" ++ kv.2.

(** [ctypes.create_string_buffer(init, size)]: the array has [size] bytes,
    [len(init) + 1] when no size is given; an initialiser longer than the
    array, or a negative size, is a [ValueError]. *)
Definition create_string_buffer (init : pystr) (size : option Z)
  : Res Buffer :=
  match size with
  | None => Ret (mkBuffer (Z.of_nat (length init) + 1) init)
  | Some l =>
    if (l <? 0) || (l <? Z.of_nat (length init)) then Raise ValueError
    else Ret (mkBuffer l init)
  end.

(** [ctypes.create_string_buffer(l)] where [l] comes from the caller. *)
Definition create_buffer (l : Z) : Res Buffer :=
  if l <? 0 then Raise ValueError else Ret (_createBuffer l).

(** [arr[i] = c] on a ctypes array. *)
Definition array_set (i : Z) (c : ascii) (arr : pystr) : Res pystr :=
  if (0 <=? i) && (i <? Z.of_nat (length arr))
  then Ret (<[Z.to_nat i := c]> arr)
  else Raise IndexError.

(** [for c in s: arr[index] = c; index += 1] *)
Fixpoint array_write (index : Z) (s : pystr) (arr : pystr)
  : Res (pystr * Z) :=
  match s with
  | [] => Ret (arr, index)
  | c :: s' =>
    match array_set index c arr with
    | Ret arr' => array_write (index + 1) s' arr'
    | Raise e => Raise e
    | Diverge => Diverge
    end
  end.

(** [l.remove(x)]: the first occurrence goes; [None] when there is none
    (Python raises [ValueError]). *)
Fixpoint list_remove (x : nat) (l : list nat) : option (list nat) :=
  match l with
  | [] => None
  | y :: l' =>
    if (x =? y)%nat then Some l'
    else match list_remove x l' with
         | Some r => Some (y :: r)
         | None => None
         end
  end.

(** ** The world and the monad of the embedding *)

Section Monad.

(** The state of the driver behind the native calls. *)
Context {DrvState : Type}.

Record World := mkWorld {
  w_drv : DrvState;
  w_log : list (Call * Response);   (* native calls, the latest first *)
  w_hEnv : pyhandle;                (* the module's [hEnv] *)
  w_connections : list nat;         (* the module's [connections] *)
  w_conns : list Conn;              (* OdbcConnection objects, by identity *)
  w_cursors : list Cursor;          (* OdbcCursor objects, by identity *)
  w_outparams : list OutParam;      (* OutParam objects, by identity *)
  w_bufs : list Buffer;             (* ctypes arrays, by identity *)
  w_cells : list pyparam            (* closure cells *)
}.

Definition M (A : Type) : Type := World -> Res A * World.

Definition ret {A} (a : A) : M A := fun w => (Ret a, w).

Definition raise {A} (e : exn) : M A := fun w => (Raise e, w).

Definition diverge {A} : M A := fun w => (Diverge, w).

Definition lift {A} (r : Res A) : M A := fun w => (r, w).

Definition bind {A B} (m : M A) (f : A -> M B) : M B := fun w =>
  match m w with
  | (Ret a, w') => f a w'
  | (Raise e, w') => (Raise e, w')
  | (Diverge, w') => (Diverge, w')
  end.

(** [try: m  except Exception as e: h e] *)
Definition try_except {A} (m : M A) (h : exn -> M A) : M A := fun w =>
  match m w with
  | (Raise e, w') => h e w'
  | other => other
  end.

Definition get : M World := fun w => (Ret w, w).

Definition modify (f : World -> World) : M unit := fun w => (Ret tt, f w).

Definition apply_writes (ws : list (nat * pystr)) (bufs : list Buffer)
  : list Buffer :=
  fold_left (fun bs '(i, s) => alter (poke s) i bs) ws bufs.

(** The world once the driver, now in state [s], has answered [r] to the
    call [c]. *)
Definition answered (c : Call) (r : Response) (s : DrvState) (w : World)
  : World :=
  mkWorld s ((c, r) :: w_log w) (w_hEnv w) (w_connections w) (w_conns w)
    (w_cursors w) (w_outparams w) (apply_writes (outWrites r) (w_bufs w))
    (w_cells w).

(** Updates of the world's components and of objects' attributes. *)
Definition upd_hEnv (h : pyhandle) (w : World) : World :=
  mkWorld (w_drv w) (w_log w) h (w_connections w) (w_conns w) (w_cursors w)
    (w_outparams w) (w_bufs w) (w_cells w).

Definition upd_connections (f : list nat -> list nat) (w : World) : World :=
  mkWorld (w_drv w) (w_log w) (w_hEnv w) (f (w_connections w)) (w_conns w)
    (w_cursors w) (w_outparams w) (w_bufs w) (w_cells w).

Definition upd_conns (f : list Conn -> list Conn) (w : World) : World :=
  mkWorld (w_drv w) (w_log w) (w_hEnv w) (w_connections w) (f (w_conns w))
    (w_cursors w) (w_outparams w) (w_bufs w) (w_cells w).

Definition upd_cursors (f : list Cursor -> list Cursor) (w : World) : World :=
  mkWorld (w_drv w) (w_log w) (w_hEnv w) (w_connections w) (w_conns w)
    (f (w_cursors w)) (w_outparams w) (w_bufs w) (w_cells w).

Definition upd_outparams (f : list OutParam -> list OutParam) (w : World)
  : World :=
  mkWorld (w_drv w) (w_log w) (w_hEnv w) (w_connections w) (w_conns w)
    (w_cursors w) (f (w_outparams w)) (w_bufs w) (w_cells w).

Definition upd_bufs (f : list Buffer -> list Buffer) (w : World) : World :=
  mkWorld (w_drv w) (w_log w) (w_hEnv w) (w_connections w) (w_conns w)
    (w_cursors w) (w_outparams w) (f (w_bufs w)) (w_cells w).

Definition upd_cells (f : list pyparam -> list pyparam) (w : World) : World :=
  mkWorld (w_drv w) (w_log w) (w_hEnv w) (w_connections w) (w_conns w)
    (w_cursors w) (w_outparams w) (w_bufs w) (f (w_cells w)).

(** An object reference is dereferenced; a reference to no object cannot
    arise in Python and ends the run with an error. *)
Definition the {A} (o : option A) : M A :=
  match o with
  | Some a => ret a
  | None => raise AttributeError
  end.

Definition conn_of (c : nat) : M Conn := fun w => the (w_conns w !! c) w.

Definition cursor_of (c : nat) : M Cursor := fun w => the (w_cursors w !! c) w.

Definition outparam_of (p : nat) : M OutParam :=
  fun w => the (w_outparams w !! p) w.

Definition set_conn (c : nat) (f : Conn -> Conn) : M unit :=
  modify (upd_conns (alter f c)).

Definition set_cursor (c : nat) (f : Cursor -> Cursor) : M unit :=
  modify (upd_cursors (alter f c)).

End Monad.

Arguments World : clear implicits.
Arguments M : clear implicits.

Notation "'let!' x ':=' m 'in' k" := (bind m (fun x => k))
  (at level 10, x name, m at level 100, k at level 200, only parsing).
Notation "m ';;;' k" := (bind m (fun _ => k))
  (at level 100, k at level 200, right associativity, only parsing).

Section Model.

Context {DrvState : Type}.
Variable drv_step : DrvState -> Call -> Response * DrvState.

(** Iterations allowed to each [while] loop. *)
Variable fuel : nat.

(** Collaborators outside the module: [_convertLineFeeds] (built on
    [util.sqlsplit]), the data type converter's [convertType] and the type
    code [BINARY] of [api], and [str] on the values whose text the module
    does not determine. *)
Variable _convertLineFeeds : pystr -> pystr.
Variable convertType : pystr -> pystr -> pystr.
Variable BINARY : pystr.
Variable repr : pyval -> pystr.

Local Abbreviation M := (M DrvState).

(** [for x in l: f x] *)
Fixpoint for_each {A} (l : list A) (f : A -> M unit) : M unit :=
  match l with
  | [] => ret tt
  | x :: l' => f x ;;; for_each l' f
  end.

(** One native call: the driver answers and moves on, the call is logged,
    and the driver's stores into bound buffers take effect. *)
Definition native (c : Call) : M Response := fun w =>
  let '(r, s) := drv_step (w_drv w) c in (Ret r, answered c r s w).

(** ** Diagnostic Translator *)

(** The local variables of [getDiagnosticInfo]. *)
Record DiagVars := mkDiagVars {
  info : list DiagRec;
  infoNumber : Z;
  sqlState : Buffer;
  nativeError : Z;
  messageBuffer : Buffer;
  messageLength : Z
}.

Definition diag_init : DiagVars :=
  mkDiagVars [] 1 (_createBuffer 6) 0 (_createBuffer SMALL_BUFFER_SIZE) 0.

(** The [while True] loop of [getDiagnosticInfo]. *)
Fixpoint getDiagLoop (n : nat) (handle handleType : Z) (v : DiagVars)
  : M (list DiagRec) :=
  match n with
  | O => diverge
  | S n' =>
    let! r := native (SQLGetDiagRecW handleType handle (infoNumber v)
                        (cap (messageBuffer v))) in
    let rc := rc_of r in
    let sqlState' := out_buf 0 (sqlState v) r in
    let nativeError' := sint 32 (out_int 0 (nativeError v) r) in
    let messageBuffer' := out_buf 1 (messageBuffer v) r in
    let messageLength' := sint 16 (out_int 1 (messageLength v) r) in
    if (rc =? SQL_SUCCESS_WITH_INFO) && (messageLength' >? cap messageBuffer')
    then
      (* Resize buffer to fit entire message. *)
      getDiagLoop n' handle handleType
        (mkDiagVars (info v) (infoNumber v) sqlState' nativeError'
           (_createBuffer messageLength') messageLength')
    else if (rc =? SQL_SUCCESS) || (rc =? SQL_SUCCESS_WITH_INFO) then
      let! state := lift (_outputStr sqlState') in
      let! message := lift (_outputStr messageBuffer') in
      getDiagLoop n' handle handleType
        (mkDiagVars
           (info v ++ [(state, message, Z.abs nativeError')])
           (infoNumber v + 1) sqlState' nativeError' messageBuffer'
           messageLength')
    else if rc =? SQL_NO_DATA then ret (info v)
    else if rc =? SQL_INVALID_HANDLE then
      raise (InterfaceError (py "SQL_INVALID_HANDLE")
               (py "Invalid handle passed to SQLGetDiagRecW.") [])
    else if rc =? SQL_ERROR then
      raise (InterfaceError (py "SQL_ERROR")
               (py "SQL_ERROR returned from SQLGetDiagRecW.") [])
    else
      raise (InterfaceError (py "UNKNOWN_RETURN_CODE")
               (py "SQLGetDiagRecW returned an unknown return code: %s") [rc])
  end.

Definition getDiagnosticInfo (handle handleType : Z) : M (list DiagRec) :=
  getDiagLoop fuel handle handleType diag_init.

(** [u"[{}] {}".format(i[0], i[1])] *)
Definition format_diag (i : DiagRec) : pystr :=
  py "[" ++ i.1.1 ++ py "] " ++ i.1.2.

(** [not ignore or i[0] not in ignore] *)
Definition not_ignored (ignore : option (list pystr)) (st : pystr) : bool :=
  match ignore with
  | None => true
  | Some l => match l with [] => true | _ => negb (bool_decide (st ∈ l)) end
  end.

(** The [for i in info] loop of [checkStatus]; [sqlState] is the list built
    so far. *)
Fixpoint checkLoop (rc : Z) (ignore : option (list pystr))
    (info : list DiagRec) (sqlState : list pystr) : Res (list pystr) :=
  match info with
  | [] => Ret sqlState
  | i :: rest =>
    let sqlState' := sqlState ++ [i.1.1] in
    if rc =? SQL_SUCCESS_WITH_INFO then checkLoop rc ignore rest sqlState'
    else if not_ignored ignore i.1.1 then
      Raise (DatabaseError i.2 (format_diag i) i.1.1)
    else
      (* Breaking here because this error is ignored and info could contain
         older error messages. *)
      Ret sqlState'
  end.

(** The [if hStmt != SQL_NULL_HANDLE: ... elif hDbc != SQL_NULL_HANDLE: ...
    else: ...] of [checkStatus], which picks the handle whose diagnostics are
    read. *)
Definition diagnosticsOf (hEnv hDbc hStmt : harg) : M (list DiagRec) :=
  match hStmt, hDbc, hEnv with
  | Given h, _, _ => getDiagnosticInfo (addr h) SQL_HANDLE_STMT
  | Default, Given h, _ => getDiagnosticInfo (addr h) SQL_HANDLE_DBC
  | Default, Default, Given h => getDiagnosticInfo (addr h) SQL_HANDLE_ENV
  | Default, Default, Default =>
      getDiagnosticInfo SQL_NULL_HANDLE SQL_HANDLE_ENV
  end.

(** [checkStatus(rc, hEnv, hDbc, hStmt, method, ignore)]; [method] only
    reaches the log messages. *)
Definition checkStatus (rc : Z) (hEnv hDbc hStmt : harg)
    (ignore : option (list pystr)) : M (list pystr) :=
  if (rc =? SQL_SUCCESS) || (rc =? SQL_NO_DATA) then ret []
  else
    let! info := diagnosticsOf hEnv hDbc hStmt in
    lift (checkLoop rc ignore info []).

(** ** Parameter Binder *)

Definition status (r : Response) (hEnv hDbc hStmt : harg)
    (ignore : option (list pystr)) : M (list pystr) :=
  checkStatus (rc_of r) hEnv hDbc hStmt ignore.

Definition _free (self : nat) : M unit :=
  let! c := cursor_of self in
  let h := hStmt c in
  let! r := native (SQLFreeStmt (addr h) SQL_CLOSE) in
  status r Default Default (Given h) None ;;;
  let! r := native (SQLFreeStmt (addr h) SQL_RESET_PARAMS) in
  status r Default Default (Given h) None ;;;
  ret tt.

Definition _setQueryTimeout (self : nat) (queryTimeout : Z) : M unit :=
  let! c := cursor_of self in
  let h := hStmt c in
  let! r := native (SQLSetStmtAttr (addr h) SQL_ATTR_QUERY_TIMEOUT
                      queryTimeout) in
  status r Default Default (Given h) None ;;;
  ret tt.

(** [s if util.isString(s) else str(s)] *)
Definition text_of (v : pyval) : pystr :=
  match v with
  | PStr s => s
  | PInt z => str_of_Z z
  | other => repr other
  end.

(** [_inputStr = lambda s, l = None : None if s is None else
    ctypes.create_string_buffer(text.encode('utf8'), l)] *)
Definition _inputStr (s : pyval) (l : option Z) : Res (option Buffer) :=
  match s with
  | PNone => Ret None
  | _ =>
    match create_string_buffer (text_of s) l with
    | Ret b => Ret (Some b)
    | Raise e => Raise e
    | Diverge => Diverge
    end
  end.

(** [_convertParam = lambda s : None if s is None else text.encode('utf8')] *)
Definition _convertParam (s : pyval) : option pystr :=
  match s with
  | PNone => None
  | _ => Some (text_of s)
  end.

(** A new ctypes array. *)
Definition new_buf (b : Buffer) : M nat := fun w =>
  (Ret (length (w_bufs w)), upd_bufs (fun l => l ++ [b]) w).

(** The cell of the variable [param] of one call of [executemany]. *)
Definition new_cell : M nat := fun w =>
  (Ret (length (w_cells w)), upd_cells (fun l => l ++ [ParNone]) w).

(** [param = v] *)
Definition assign_param (cell : nat) (v : pyparam) : M unit :=
  modify (upd_cells (fun l => <[cell := v]> l)).

(** [val.setValueFunc(lambda: _outputStr(param))] *)
Definition setValueFunc (val : nat) (cell : nat) : M unit :=
  modify (upd_outparams (alter (with_valueFunc (Some cell)) val)).

Definition size_or_small (o : OutParam) : Z :=
  match size o with
  | None => SMALL_BUFFER_SIZE
  | Some n => n
  end.

(** The types the statement declares for its parameters. *)
Fixpoint describeParams (h : pyhandle) (nums : list nat) (dataTypes : list Z)
  : M (list Z) :=
  match nums with
  | [] => ret dataTypes
  | paramNum :: rest =>
    let! r := native (SQLDescribeParam (addr h) (Z.of_nat paramNum + 1)) in
    let dataType := sint 16 (out_int 0 0 r) in
    status r Default Default (Given h) None ;;;
    describeParams h rest (dataTypes ++ [dataType])
  end.

(** A new parameter buffer becomes the value of [param]. *)
Definition new_param (cell : nat) (bytes : bool) (b : option Buffer)
  : M (option (nat * Buffer)) :=
  match b with
  | Some b =>
    let! i := new_buf b in
    assign_param cell (if bytes then ParBytes i else ParStr i) ;;;
    ret (Some (i, b))
  | None => assign_param cell ParNone ;;; ret None
  end.

(** The body of [for paramNum in range(0, numParams)] in per-row mode:
    [valueType] and [paramType] are the variables of the enclosing loop body,
    handed from one parameter of the row to the next.  The call records the
    address of [param] together with its contents, which the module does not
    change between the bind and the execute. *)
Definition bindParam (h : pyhandle) (cell : nat) (dataTypes : list Z)
    (p : list pyval) (paramNum : nat) (valueType paramType : Z)
  : M (Z * Z) :=
  let val := nth paramNum p PNone in
  let paramType :=
    if nth paramNum dataTypes 0 =? SQL_WLONGVARCHAR then SQL_WLONGVARCHAR
    else paramType in
  let! sel :=
    match val with
    | PParam id =>
      let! o := outparam_of id in
      if io o then
        let! b := lift (_inputStr (inValue o) (Some (size_or_small o))) in
        let! param := new_param cell false b in
        setValueFunc id cell ;;;
        ret (param, SQL_PARAM_INPUT_OUTPUT, valueType, paramType)
      else
        let! b := lift (create_buffer (size_or_small o)) in
        let! param := new_param cell false (Some b) in
        setValueFunc id cell ;;;
        ret (param, SQL_PARAM_OUTPUT, valueType, paramType)
    | PBytes b =>
      let! param :=
        new_param cell true (Some (mkBuffer (Z.of_nat (length b)) b)) in
      ret (param, SQL_PARAM_INPUT, SQL_C_BINARY, SQL_LONGVARBINARY)
    | _ =>
      let! b := lift (_inputStr val None) in
      let! param := new_param cell false b in
      ret (param, SQL_PARAM_INPUT, valueType, paramType)
    end in
  let '(param, inputOutputType, valueType, paramType) := sel in
  let len_param := match param with Some (_, b) => cap b | None => 0 end in
  let '(bufSize, lengthEntry) :=
    match val, param with
    | PBytes _, _ => (len_param, len_param)
    | _, Some _ => (len_param, SQL_NTS)
    | _, None => (0, SQL_NULL_DATA)
    end in
  let columnSize := len_param in
  let! r := native (SQLBindParameter (addr h) (Z.of_nat paramNum + 1)
                      inputOutputType valueType paramType columnSize param
                      bufSize [lengthEntry]) in
  status r Default Default (Given h) None ;;;
  ret (valueType, paramType).

Fixpoint bindParams (h : pyhandle) (cell : nat) (dataTypes : list Z)
    (p : list pyval) (nums : list nat) (valueType paramType : Z) : M unit :=
  match nums with
  | [] => ret tt
  | paramNum :: rest =>
    let! t := bindParam h cell dataTypes p paramNum valueType paramType in
    bindParams h cell dataTypes p rest t.1 t.2
  end.

Definition PARAMS_MISMATCH (supplied expected : Z) : exn :=
  InterfaceError (py "PARAMS_MISMATCH")
    (py "The number of supplied parameters (" ++ str_of_Z supplied
     ++ py ") does not match the expected number of parameters ("
     ++ str_of_Z expected ++ py ").") [].

(** The body of [for p in params] in per-row mode. *)
Definition executeRow (h : pyhandle) (cell : nat) (numParams : Z)
    (dataTypes : list Z) (p : list pyval) : M unit :=
  if negb (Z.of_nat (length p) =? numParams) then
    raise (PARAMS_MISMATCH (Z.of_nat (length p)) numParams)
  else
    bindParams h cell dataTypes p (seq 0 (Z.to_nat numParams))
      SQL_C_WCHAR SQL_WVARCHAR ;;;
    let! r := native (SQLExecute (addr h)) in
    status r Default Default (Given h) None ;;;
    ret tt.

(** The validation loop of [_executeManyBatch]. *)
Fixpoint checkParamCounts (params : list (list pyval)) (numParams : Z)
  : Res unit :=
  match params with
  | [] => Ret tt
  | p :: rest =>
    if negb (Z.of_nat (length p) =? numParams) then
      Raise (PARAMS_MISMATCH (Z.of_nat (length p)) numParams)
    else checkParamCounts rest numParams
  end.

(** The scan of one parameter ordinal over all rows: the element types, the
    maximum length and the converted values [p]. *)
Fixpoint scanColumn (vals : list pyval) (valueType paramType maxLen : Z)
    (p : list (option pystr)) : Z * Z * Z * list (option pystr) :=
  match vals with
  | [] => (valueType, paramType, maxLen, p)
  | val :: rest =>
    match val with
    | PBytes b =>
      let l := Z.of_nat (length b) in
      scanColumn rest SQL_C_BINARY SQL_LONGVARBINARY
        (if l >? maxLen then l else maxLen) (p ++ [Some b])
    | _ =>
      let val := _convertParam val in
      let l := match val with None => 0 | Some s => Z.of_nat (length s) end in
      scanColumn rest valueType paramType
        (if l >? maxLen then l else maxLen) (p ++ [val])
    end
  end.

(** The loop that fills the array and the length array of one ordinal. *)
Fixpoint fillColumn (p : list (option pystr)) (paramSetNum : Z)
    (valueType maxLen : Z) (arr : pystr) (lens : list Z)
  : Res (pystr * list Z) :=
  match p with
  | [] => Ret (arr, lens)
  | v :: rest =>
    let index := paramSetNum * maxLen in
    let step :=
      match v with
      | Some s =>
        match array_write index s arr with
        | Ret (arr', index') =>
          if valueType =? SQL_C_BINARY then
            Ret (arr', Z.of_nat (length s))
          else
            match array_set index' NUL arr' with
            | Ret arr'' => Ret (arr'', SQL_NTS)
            | Raise e => Raise e
            | Diverge => Diverge
            end
        | Raise e => Raise e
        | Diverge => Diverge
        end
      | None =>
        match array_set index NUL arr with
        | Ret arr' => Ret (arr', SQL_NULL_DATA)
        | Raise e => Raise e
        | Diverge => Diverge
        end
      end in
    match step with
    | Ret (arr', len) =>
      fillColumn rest (paramSetNum + 1) valueType maxLen arr'
        (<[Z.to_nat paramSetNum := len]> lens)
    | Raise e => Raise e
    | Diverge => Diverge
    end
  end.

(** The body of [for paramNum in range(0, numParams)] in columnar mode. *)
Definition bindColumn (h : pyhandle) (params : list (list pyval))
    (dataTypes : list Z) (paramNum : nat) : M unit :=
  let paramSetSize := Z.of_nat (length params) in
  let paramType :=
    if nth paramNum dataTypes 0 =? SQL_WLONGVARCHAR then SQL_WLONGVARCHAR
    else SQL_WVARCHAR in
  let '(valueType, paramType, maxLen, p) :=
    scanColumn (map (fun row => nth paramNum row PNone) params)
      SQL_C_WCHAR paramType 0 [] in
  let maxLen := if valueType =? SQL_C_BINARY then maxLen else maxLen + 1 in
  let valueSize := maxLen in
  let arr := repeat NUL (Z.to_nat (paramSetSize * maxLen)) in
  let lens := repeat 0 (Z.to_nat paramSetSize) in
  let! filled := lift (fillColumn p 0 valueType maxLen arr lens) in
  let! i := new_buf (mkBuffer (paramSetSize * maxLen) filled.1) in
  let! r := native (SQLBindParameter (addr h) (Z.of_nat paramNum + 1)
                      SQL_PARAM_INPUT valueType paramType maxLen
                      (Some (i, mkBuffer (paramSetSize * maxLen) filled.1))
                      valueSize filled.2) in
  status r Default Default (Given h) None ;;;
  ret tt.

Definition _executeManyBatch (self : nat) (params : list (list pyval))
    (numParams : Z) (dataTypes : list Z) : M unit :=
  let! c := cursor_of self in
  let h := hStmt c in
  (* Get the number of parameter sets. *)
  let paramSetSize := Z.of_nat (length params) in
  (* Use column-wise binding. *)
  let! r := native (SQLSetStmtAttr (addr h) SQL_ATTR_PARAM_BIND_TYPE
                      SQL_PARAM_BIND_BY_COLUMN) in
  status r Default Default (Given h) None ;;;
  (* Specify the number of elements in each parameter array. *)
  let! r := native (SQLSetStmtAttr (addr h) SQL_ATTR_PARAMSET_SIZE
                      paramSetSize) in
  status r Default Default (Given h) None ;;;
  (* Bind the parameters. *)
  lift (checkParamCounts params numParams) ;;;
  for_each (seq 0 (Z.to_nat numParams)) (bindColumn h params dataTypes) ;;;
  (* Execute the SQL statement. *)
  let! r := native (SQLExecute (addr h)) in
  status r Default Default (Given h) None ;;;
  ret tt.

(** ** Result Set Reader *)

(** The ctypes variables of [_handleResults] that outlive one column. *)
Record DescVars := mkDescVars {
  nameBuf : Buffer;
  columnSize : Z;
  decimalDigits : Z;
  nullable : Z
}.

(** The [for col in range(0, columnCount.value)] loop.  The return code of
    [SQLColAttributeW] is dropped; the status checked after it is again that
    of [SQLDescribeColW]. *)
Fixpoint describeColumns (self : nat) (h : pyhandle) (dbType : pystr)
    (cols : list nat) (v : DescVars) : M unit :=
  match cols with
  | [] => ret tt
  | col :: rest =>
    let! r := native (SQLDescribeColW (addr h) (Z.of_nat col + 1)
                        (cap (nameBuf v))) in
    let nameBuf1 := out_buf 0 (nameBuf v) r in
    let columnSize' := uint 64 (out_int 2 (columnSize v) r) in
    let decimalDigits' := sint 16 (out_int 3 (decimalDigits v) r) in
    let nullable' := sint 16 (out_int 4 (nullable v) r) in
    status r Default Default (Given h) None ;;;
    let! columnName := lift (_outputStr nameBuf1) in
    let! r2 := native (SQLColAttributeW (addr h) (Z.of_nat col + 1)
                         SQL_DESC_TYPE_NAME (cap nameBuf1)) in
    let nameBuf2 := out_buf 0 nameBuf1 r2 in
    status r Default Default (Given h) None ;;;
    let! typeName := lift (_outputStr nameBuf2) in
    let typeCode := convertType dbType typeName in
    set_cursor self (fun c =>
      with_results
        (match description c with
         | Some d =>
           Some (d ++ [(columnName, typeCode, columnSize', decimalDigits',
                        nullable')])
         | None => None
         end)
        (rowcount c) (rownumber c)
        (dict_set (lower columnName) (Z.of_nat col) (columns c))
        (types c ++ [(typeName, typeCode)]) c) ;;;
    describeColumns self h dbType rest
      (mkDescVars nameBuf2 columnSize' decimalDigits' nullable')
  end.

(** A fresh [rowIterator(cursor)] generator: its frame holds [buf] and
    [length]. *)
Definition rowIterator : RowIter :=
  mkRowIter (_createBuffer LARGE_BUFFER_SIZE) 0 false.

Definition _handleResults (self : nat) : M unit :=
  (* Rest cursor attributes. *)
  set_cursor self (with_results None (-1) None [] []) ;;;
  let! c := cursor_of self in
  let h := hStmt c in
  let! k := conn_of (connection c) in
  (* Get column count in result set. *)
  let! r := native (SQLNumResultCols (addr h)) in
  let columnCount := sint 16 (out_int 0 0 r) in
  status r Default Default (Given h) None ;;;
  let! r := native (SQLRowCount (addr h)) in
  let rowCount := sint 64 (out_int 0 0 r) in
  status r Default Default (Given h) None ;;;
  set_cursor self (with_rowcount rowCount) ;;;
  (* Get column meta data and create row iterator. *)
  if columnCount >? 0 then
    set_cursor self (fun c =>
      with_results (Some []) (rowcount c) (rownumber c) (columns c)
        (types c) c) ;;;
    describeColumns self h (dbType k) (seq 0 (Z.to_nat columnCount))
      (mkDescVars (_createBuffer SMALL_BUFFER_SIZE) 0 0 0) ;;;
    set_cursor self (with_iterator (Some rowIterator))
  else ret tt.

Definition executemany (self : nat) (query : pystr)
    (params : list (list pyval)) (batch : bool) (queryTimeout : Z) : M unit :=
  let! cell := new_cell in
  _free self ;;;
  let! c := cursor_of self in
  let h := hStmt c in
  (* Prepare the query *)
  let! r := native (SQLPrepareW (addr h) (_convertLineFeeds query)) in
  status r Default Default (Given h) None ;;;
  _setQueryTimeout self queryTimeout ;;;
  (* Get the number of parameters in the SQL statement. *)
  let! r := native (SQLNumParams (addr h)) in
  status r Default Default (Given h) None ;;;
  let numParams := sint 16 (out_int 0 0 r) in
  (* The argument types. *)
  let! dataTypes := describeParams h (seq 0 (Z.to_nat numParams)) [] in
  (if batch then _executeManyBatch self params numParams dataTypes
   else
     let! r := native (SQLSetStmtAttr (addr h) SQL_ATTR_PARAMSET_SIZE 1) in
     status r Default Default (Given h) None ;;;
     for_each params (executeRow h cell numParams dataTypes)) ;;;
  _handleResults self.

(** [execute] hands [queryTimeout] to [executemany] in the position of
    [batch]. *)
Definition execute (self : nat) (query : pystr) (params : list pyval)
    (queryTimeout : Z) : M unit :=
  match params with
  | _ :: _ =>
    executemany self query [params] (negb (queryTimeout =? 0)) 0
  | [] =>
    _free self ;;;
    _setQueryTimeout self queryTimeout ;;;
    let! c := cursor_of self in
    let h := hStmt c in
    let! r := native (SQLExecDirectW (addr h) (_convertLineFeeds query)) in
    status r Default Default (Given h) None ;;;
    ret tt
  end ;;;
  _handleResults self.

(** [", ".join("?" for each parameter)], as the loop of [callproc] builds it. *)
Fixpoint placeholders (n : nat) : pystr :=
  match n with
  | O => []
  | S O => py "?"
  | S n' => py "?, " ++ placeholders n'
  end.

(** [callproc] up to its [return]; the [util.OutParams] it returns is built
    from the same, by now updated, parameter objects. *)
Definition callproc (self : nat) (procname : pystr) (params : list pyval)
    (queryTimeout : Z) : M unit :=
  let query :=
    py "CALL " ++ procname ++ py " (" ++ placeholders (length params)
    ++ py ")" in
  execute self query params queryTimeout.

Definition nextset (self : nat) : M bool :=
  let! c := cursor_of self in
  let h := hStmt c in
  let! r := native (SQLMoreResults (addr h)) in
  status r Default Default (Given h) None ;;;
  if (rc_of r =? SQL_SUCCESS) || (rc_of r =? SQL_SUCCESS_WITH_INFO) then
    _handleResults self ;;; ret true
  else ret false.

(** ** Row Iterator *)

(** The [while SQL_STATE_DATA_TRUNCATED in sqlState] loop of a text column;
    [val] is the list of chunks. *)
Fixpoint getDataText (n : nat) (h : pyhandle) (col dataType : Z)
    (buf : Buffer) (len : Z) (sqlState : list pystr) (val : list pystr)
  : M (list pystr * Buffer * Z) :=
  if bool_decide (SQL_STATE_DATA_TRUNCATED ∈ sqlState) then
    match n with
    | O => diverge
    | S n' =>
      let! r := native (SQLGetData (addr h) col dataType (cap buf)) in
      let buf := out_buf 0 buf r in
      let len := sint 64 (out_int 0 len r) in
      let! sqlState := status r Default Default (Given h) None in
      let! chunk := lift (_outputStr buf) in
      getDataText n' h col dataType buf len sqlState (val ++ [chunk])
    end
  else ret (val, buf, len).

(** One column of the current row: the body of [for col in range(...)].
    [buf] and [len] are the generator's [buf] and [length.value]. *)
Definition getColumn (h : pyhandle) (binaryData : bool) (col : Z)
    (buf : Buffer) (len : Z) : M (rowval * Buffer * Z) :=
  let bufSize := cap buf in
  let dataType := if binaryData then SQL_C_BINARY else SQL_C_WCHAR in
  let! r := native (SQLGetData (addr h) col dataType bufSize) in
  let buf := out_buf 0 buf r in
  let len := sint 64 (out_int 0 len r) in
  let! sqlState := status r Default Default (Given h) None in
  if negb (len =? SQL_NULL_DATA) then
    if bool_decide (SQL_STATE_DATA_TRUNCATED ∈ sqlState) then
      if binaryData then
        if len <? 0 then raise ValueError
        else
          let val := raw_bytes (Z.to_nat bufSize) buf
                     ++ repeat NUL (Z.to_nat len - Z.to_nat bufSize) in
          let newBufSize := Z.of_nat (length val) - bufSize in
          let! r := native (SQLGetData (addr h) col dataType newBufSize) in
          let newBuffer :=
            out_buf 0 (mkBuffer newBufSize
                         (repeat NUL (Z.to_nat newBufSize))) r in
          let len := sint 64 (out_int 0 len r) in
          status r Default Default (Given h) None ;;;
          ret (VBytes (raw_bytes (Z.to_nat bufSize) buf ++ data newBuffer),
               buf, len)
      else
        let! chunk := lift (_outputStr buf) in
        let! t := getDataText fuel h col dataType buf len sqlState [chunk] in
        ret (VStr (concat t.1.1), t.1.2, t.2)
    else
      if binaryData then
        if (len <? 0) || (len >? bufSize) then raise ValueError
        else ret (VBytes (raw_bytes (Z.to_nat len) buf), buf, len)
      else
        let! val := lift (_outputStr buf) in
        ret (VStr val, buf, len)
  else ret (VNone, buf, len).

Fixpoint getColumns (h : pyhandle) (descs : list ColDesc) (col : Z)
    (buf : Buffer) (len : Z) (values : list rowval)
  : M (list rowval * Buffer * Z) :=
  match descs with
  | [] => ret (values, buf, len)
  | d :: rest =>
    let binaryData := bool_decide (d.1.1.1.2 = BINARY) in
    let! t := getColumn h binaryData col buf len in
    getColumns h rest (col + 1) t.1.2 t.2 (values ++ [t.1.1])
  end.

(** The generator's frame from one [yield] to the next: [Some values] is the
    row yielded, [None] the end of the generator. *)
Definition rowIterator_step (cursor : nat) (it : RowIter)
  : M (option (list rowval) * RowIter) :=
  let! c := cursor_of cursor in
  let h := hStmt c in
  let! r := native (SQLFetch (addr h)) in
  status r Default Default (Given h) None ;;;
  if rc_of r =? SQL_NO_DATA then
    ret (None, mkRowIter (it_buf it) (it_length it) true)
  else
    let! c := cursor_of cursor in
    match description c with
    | None => raise TypeError
    | Some descs =>
      let! t := getColumns (hStmt c) descs 1 (it_buf it) (it_length it) [] in
      ret (Some t.1.1, mkRowIter t.1.2 t.2 false)
    end.

(** [next(cursor.iterator)]: [None] stands for [StopIteration].  An exception
    that leaves the generator finishes it. *)
Definition next_row (cursor : nat) : M (option (list rowval)) :=
  let! c := cursor_of cursor in
  match iterator c with
  | None => raise TypeError
  | Some it =>
    if it_done it then ret None
    else
      let! t :=
        try_except (rowIterator_step cursor it)
          (fun e =>
             set_cursor cursor
               (with_iterator
                  (Some (mkRowIter (it_buf it) (it_length it) true))) ;;;
             raise e) in
      set_cursor cursor (with_iterator (Some t.2)) ;;;
      ret t.1
  end.

(** ** Session Controller *)

Definition OdbcCursor_init (connection : nat) (num : Z) : M nat :=
  let! w := get in
  let self := length (w_cursors w) in
  modify (upd_cursors (fun l =>
    l ++ [mkCursor (HPtr 0) num connection None (-1) None [] [] None])) ;;;
  let! k := conn_of connection in
  let! r := native (SQLAllocHandle SQL_HANDLE_STMT (addr (hDbc k))) in
  let h := HPtr (out_int 0 0 r) in
  set_cursor self (with_hStmt h) ;;;
  status r Default Default (Given h) None ;;;
  set_conn connection (fun k => with_cursors (cursors k ++ [self]) k) ;;;
  ret self.

Definition OdbcCursor_close (self : nat) : M unit :=
  let! c := cursor_of self in
  if truthy (hStmt c) then
    let! r := native (SQLFreeHandle SQL_HANDLE_STMT (addr (hStmt c))) in
    status r Default Default (Given (hStmt c)) None ;;;
    let! k := conn_of (connection c) in
    match list_remove self (cursors k) with
    | Some l =>
      set_conn (connection c) (with_cursors l) ;;;
      set_cursor self (with_hStmt HNone)
    | None => raise ValueError
    end
  else ret tt.

Definition close_ignore : list pystr :=
  [SQL_STATE_CONNECTION_NOT_OPEN; SQL_STATE_INVALID_TRANSACTION_STATE].

Definition OdbcConnection_close (self : nat) : M unit :=
  let! k := conn_of self in
  let h := hDbc k in
  if truthy h then
    for_each (cursors k) OdbcCursor_close ;;;
    let! r := native (SQLDisconnect (addr h)) in
    let! sqlState := status r Default (Given h) Default (Some close_ignore) in
    (if bool_decide (SQL_STATE_INVALID_TRANSACTION_STATE ∈ sqlState) then
       let! r := native (SQLEndTran SQL_HANDLE_DBC (addr h) SQL_ROLLBACK) in
       status r Default (Given h) Default None ;;;
       let! r := native (SQLDisconnect (addr h)) in
       status r Default (Given h) Default None ;;;
       ret tt
     else ret tt) ;;;
    let! r := native (SQLFreeHandle SQL_HANDLE_DBC (addr h)) in
    (if negb (rc_of r =? SQL_INVALID_HANDLE) then
       status r Default (Given h) Default None ;;; ret tt
     else ret tt) ;;;
    let! w := get in
    match list_remove self (w_connections w) with
    | Some l =>
      modify (upd_connections (fun _ => l)) ;;;
      set_conn self (with_hDbc HNone)
    | None => raise ValueError
    end
  else ret tt.

Definition commit (self : nat) : M unit :=
  let! k := conn_of self in
  let! r := native (SQLEndTran SQL_HANDLE_DBC (addr (hDbc k)) SQL_COMMIT) in
  status r Default (Given (hDbc k)) Default None ;;;
  ret tt.

Definition rollback (self : nat) : M unit :=
  let! k := conn_of self in
  let! r := native (SQLEndTran SQL_HANDLE_DBC (addr (hDbc k)) SQL_ROLLBACK) in
  status r Default (Given (hDbc k)) Default None ;;;
  ret tt.

Definition cursor (self : nat) : M nat :=
  let! k := conn_of self in
  let! c := OdbcCursor_init self (cursorCount k) in
  set_conn self (fun k => with_cursorCount (cursorCount k + 1) k) ;;;
  ret c.

Definition initOdbcEnv : M unit :=
  let! w := get in
  match w_hEnv w with
  | HNone =>
    let! r := native (SQLAllocHandle SQL_HANDLE_ENV SQL_NULL_HANDLE) in
    let h := HPtr (out_int 0 0 r) in
    modify (upd_hEnv h) ;;;
    status r (Given h) Default Default None ;;;
    (* Set the ODBC environment's compatibility level to ODBC 3.0 *)
    let! r := native (SQLSetEnvAttr (addr h) SQL_ATTR_ODBC_VERSION
                        SQL_OV_ODBC3) in
    status r (Given h) Default Default None ;;;
    ret tt
  | HPtr _ => ret tt
  end.

(** The members of [util.Cursor] that the connection setup uses and this
    module does not define: [fetchone()[0]] and the exit of the [with]
    block. *)
Variable fetchone0 : nat -> M Z.
Variable Cursor_exit : nat -> M unit.

(** [with c: body] *)
Definition with_block {A} (exit : M unit) (body : M A) : M A := fun w =>
  match body w with
  | (Ret a, w') => (exit ;;; ret a) w'
  | (Raise e, w') => (exit ;;; raise e) w'
  | (Diverge, w') => (Diverge, w')
  end.

(** [connectParams[k] = v] and [connectParams.update(kwargs)] *)
Definition connectParams (dbType system username password transactionMode
    : pystr) (kwargs : list (pystr * pystr)) : list (pystr * pystr) :=
  let d := [(py "DRIVER", dbType)] in
  let d := match system with [] => d | _ => dict_set (py "DBCNAME") system d
           end in
  let d := match username with [] => d | _ => dict_set (py "UID") username d
           end in
  let d := match password with [] => d | _ => dict_set (py "PWD") password d
           end in
  let d := match transactionMode with
           | [] => d
           | _ => dict_set (py "SESSIONMODE")
                    (if bool_decide (transactionMode = py "TERA")
                     then py "Teradata" else transactionMode) d
           end in
  fold_left (fun d kv => dict_set kv.1 kv.2 d) kwargs d.

(** The setup path of [OdbcConnection.__init__]: the body of its [try]. *)
Definition setup (self : nat) (autoCommit : bool)
    (queryBands : list (pystr * pystr)) : M unit :=
  let! k := conn_of self in
  let h := hDbc k in
  let! r := native (SQLSetConnectAttr (addr h) SQL_ATTR_AUTOCOMMIT
                      (if autoCommit then TRUE else FALSE)) in
  status r Default (Given h) Default None ;;;
  if bool_decide (dbType k = py "Teradata") then
    let! c := cursor self in
    with_block (Cursor_exit c)
      (execute c (py "SELECT SESSION") [] QUERY_TIMEOUT ;;;
       let! n := fetchone0 c in
       set_conn self (with_sessionno n) ;;;
       match queryBands with
       | [] => ret tt
       | _ =>
         execute c
           (py "SET QUERY_BAND = '" ++ join (py ";") (map format_kv queryBands)
            ++ py ";' FOR SESSION") [] QUERY_TIMEOUT
       end) ;;;
    commit self
  else ret tt.

(** [OdbcConnection.__init__] up to and including the handshake; text
    arguments left out are empty. *)
Definition handshake (dbType system username password transactionMode : pystr)
    (kwargs : list (pystr * pystr)) : M nat :=
  let! w := get in
  let self := length (w_conns w) in
  modify (upd_conns (fun l => l ++ [mkConn (HPtr 0) 0 0 [] dbType])) ;;;
  modify (upd_connections (fun l => l ++ [self])) ;;;
  (* Build connect string *)
  let connectString :=
    join (py ";")
      (map format_kv
         (connectParams dbType system username password transactionMode
            kwargs)) in
  (* Initialize connection handle *)
  initOdbcEnv ;;;
  let! w := get in
  let! r := native (SQLAllocHandle SQL_HANDLE_DBC (addr (w_hEnv w))) in
  let h := HPtr (out_int 0 0 r) in
  set_conn self (with_hDbc h) ;;;
  status r (Given (w_hEnv w)) Default Default None ;;;
  (* Create connection *)
  let! r := native (SQLDriverConnectW (addr h) connectString) in
  status r Default (Given h) Default None ;;;
  ret self.

(** [OdbcConnection.__init__] *)
Definition OdbcConnection_init (dbType system username password : pystr)
    (autoCommit : bool) (transactionMode : pystr)
    (queryBands kwargs : list (pystr * pystr)) : M nat :=
  let! self :=
    handshake dbType system username password transactionMode kwargs in
  (* Setup autocommit, query bands, etc. *)
  try_except (setup self autoCommit queryBands)
    (fun e => OdbcConnection_close self ;;; raise e) ;;;
  ret self.

End Model.

(** ** Resolving output parameters *)

Section Resolver.

Context {DrvState : Type}.

(** Modelled from the spec: [OutParam.value()] of [api], the resolver the
    binder registers with [setValueFunc] ("a resolver that decodes the
    buffer's contents lazily after execution"): [None] while no resolver is
    registered, else the registered closure is called.  The closure is the
    module's [lambda: _outputStr(param)]; it reads the cell of [param] when
    it is called, and [_outputStr] needs a string buffer ([.raw]). *)
Definition OutParam_value (p : nat) : M DrvState (option pystr) :=
  let! o := outparam_of p in
  match valueFunc o with
  | None => ret None
  | Some cell =>
    let! w := get in
    match w_cells w !! cell with
    | Some (ParStr i) =>
      match w_bufs w !! i with
      | Some b =>
        let! val := lift (_outputStr b) in
        ret (Some val)
      | None => raise AttributeError
      end
    | _ => raise AttributeError
    end
  end.

End Resolver.

(** ** Drivers

    Concrete drivers, on which the properties below are exercised. *)

Definition answer (rc : Z) : Response := mkResponse rc [] [] [].

(** A driver that plays a script: one answer per native call, and no-data
    once the script is over. *)
Definition scripted (s : list Response) (c : Call)
  : Response * list Response :=
  match s with
  | r :: s' => (r, s')
  | [] => (answer SQL_NO_DATA, [])
  end.

(** A driver that gives the same answer to every call. *)
Definition constant (r : Response) (s : unit) (c : Call) : Response * unit :=
  (r, tt).

(** A driver that accepts every call and reports [n] parameters. *)
Definition accepting (n : Z) (s : unit) (c : Call) : Response * unit :=
  match c with
  | SQLNumParams _ => (mkResponse SQL_SUCCESS [Some n] [] [], tt)
  | _ => (answer SQL_SUCCESS, tt)
  end.

(** The answer to [SQLGetDiagRecW] that delivers a record. *)
Definition diag_answer (rc : Z) (state message : string) (native len : Z)
  : Response :=
  mkResponse rc [Some native; Some len]
    [py state ++ [NUL]; py message ++ [NUL]] [].

(** A world with no objects. *)
Definition world0 {D} (d : D) : World D :=
  mkWorld d [] HNone [] [] [] [] [] [].

(** The calls of a log, the earliest first. *)
Definition calls_of (l : list (Call * Response)) : list Call :=
  rev (map fst l).

(** The state of a record is in the ignore list handed to [checkStatus]. *)
Definition ignored (ignore : option (list pystr)) (st : pystr) : Prop :=
  exists l, ignore = Some l /\ st ∈ l.

(** The protocol of the diagnostic scan, on the calls it issues and the
    answers it gets (the earliest first), from record number [idx], with the
    state buffer [st], the message buffer [mb] and [msgLen] in the length
    variable.  An answer of success-with-info that reports a length above the
    size of the message buffer is followed by a request for the same record
    with a buffer of the reported length; any other answer of success or
    success-with-info delivers a record, and is followed by a request for the
    next record when the state and the message decode; any other answer ends
    the scan.  The flag tells whether the scan is still going on after the
    last call of the trace. *)
Inductive scan_trace (handle handleType : Z)
  : Z -> Buffer -> Buffer -> Z -> list (Call * Response) -> bool -> Prop :=
| scan_nil idx st mb msgLen :
    scan_trace handle handleType idx st mb msgLen [] true
| scan_retry idx st mb msgLen r t live :
    rc_of r = SQL_SUCCESS_WITH_INFO ->
    sint 16 (out_int 1 msgLen r) > cap mb ->
    scan_trace handle handleType idx (out_buf 0 st r)
      (_createBuffer (sint 16 (out_int 1 msgLen r)))
      (sint 16 (out_int 1 msgLen r)) t live ->
    scan_trace handle handleType idx st mb msgLen
      ((SQLGetDiagRecW handleType handle idx (cap mb), r) :: t) live
| scan_next idx st mb msgLen r t live state message :
    rc_of r = SQL_SUCCESS \/
    (rc_of r = SQL_SUCCESS_WITH_INFO /\
     sint 16 (out_int 1 msgLen r) <= cap mb) ->
    _outputStr (out_buf 0 st r) = Ret state ->
    _outputStr (out_buf 1 mb r) = Ret message ->
    scan_trace handle handleType (idx + 1) (out_buf 0 st r) (out_buf 1 mb r)
      (sint 16 (out_int 1 msgLen r)) t live ->
    scan_trace handle handleType idx st mb msgLen
      ((SQLGetDiagRecW handleType handle idx (cap mb), r) :: t) live
| scan_undecodable idx st mb msgLen r :
    rc_of r = SQL_SUCCESS \/
    (rc_of r = SQL_SUCCESS_WITH_INFO /\
     sint 16 (out_int 1 msgLen r) <= cap mb) ->
    _outputStr (out_buf 0 st r) = Raise UnicodeDecodeError \/
    _outputStr (out_buf 1 mb r) = Raise UnicodeDecodeError ->
    scan_trace handle handleType idx st mb msgLen
      [(SQLGetDiagRecW handleType handle idx (cap mb), r)] false
| scan_stop idx st mb msgLen r :
    rc_of r <> SQL_SUCCESS -> rc_of r <> SQL_SUCCESS_WITH_INFO ->
    scan_trace handle handleType idx st mb msgLen
      [(SQLGetDiagRecW handleType handle idx (cap mb), r)] false.

(** A retrieval of diagnostics. *)
Definition is_diag (c : Call) : bool :=
  match c with
  | SQLGetDiagRecW _ _ _ _ => true
  | _ => false
  end.

(** The calls of a log other than the retrievals of diagnostics, the
    earliest first. *)
Definition main_calls (l : list (Call * Response)) : list Call :=
  filter (fun c => is_diag c = false) (calls_of l).

(** ** Relations between worlds *)

Section Relations.

Context {DrvState : Type}.

(** The world after [m] is related to the world before it, whatever the
    outcome. *)
Definition preserves {A} (R : relation (World DrvState)) (m : M DrvState A)
  : Prop :=
  forall w, R w (m w).2.

(** Only the driver, the log and the ctypes arrays differ, and the log grew
    by retrievals of diagnostics at most. *)
Definition quiet (w w' : World DrvState) : Prop :=
  w_hEnv w' = w_hEnv w /\ w_connections w' = w_connections w /\
  w_conns w' = w_conns w /\ w_cursors w' = w_cursors w /\
  w_outparams w' = w_outparams w /\ w_cells w' = w_cells w /\
  exists t, w_log w' = t ++ w_log w /\ Forall (fun cr => is_diag cr.1 = true) t.

(** The tables of connections and cursors keep their sizes. *)
Definition sizes (w w' : World DrvState) : Prop :=
  length (w_conns w') = length (w_conns w) /\
  length (w_cursors w') = length (w_cursors w).

(** The cursors keep their handles. *)
Definition same_cursors (w w' : World DrvState) : Prop :=
  w_cursors w' = w_cursors w.

(** A cursor without a handle. *)
Definition released (c : nat) (w : World DrvState) : Prop :=
  exists x, w_cursors w !! c = Some x /\ truthy (hStmt x) = false.

(** Cursors without a handle stay so. *)
Definition stay_released (w w' : World DrvState) : Prop :=
  forall c, released c w -> released c w'.

(** The calls other than retrievals of diagnostics issued from [w] to [w']. *)
Definition issued (cs : list Call) (w w' : World DrvState) : Prop :=
  exists t, w_log w' = t ++ w_log w /\ main_calls t = cs.

(** From a world that satisfies [P], [m] returns a value and a world that
    satisfy [Q]. *)
Definition returns {A} (P : World DrvState -> Prop) (m : M DrvState A)
    (Q : A -> World DrvState -> Prop) : Prop :=
  forall w, P w -> exists a w', m w = (Ret a, w') /\ Q a w'.

(** The cursor [self] exists, on a connection that exists. *)
Definition attached (self : nat) (w : World DrvState) : Prop :=
  exists c k, w_cursors w !! self = Some c /\
              w_conns w !! connection c = Some k.

Variable drv_step : DrvState -> Call -> Response * DrvState.
Variable fuel : nat.

(** A driver that accepts every call, for a statement of [n] parameters that
    has no result set. *)
Definition accepts (n : Z) : Prop :=
  (forall s c, rc_of (drv_step s c).1 = SQL_SUCCESS) /\
  (forall s h, sint 16 (out_int 0 0 (drv_step s (SQLNumParams h)).1) = n) /\
  (forall s h,
     sint 16 (out_int 0 0 (drv_step s (SQLNumResultCols h)).1) <= 0).

(** The two statement attributes that [_executeManyBatch] sets first. *)
Definition batch_attributes (h : pyhandle) (paramSetSize : Z)
  : M DrvState unit :=
  let! r := native drv_step (SQLSetStmtAttr (addr h) SQL_ATTR_PARAM_BIND_TYPE
                               SQL_PARAM_BIND_BY_COLUMN) in
  status drv_step fuel r Default Default (Given h) None ;;;
  let! r := native drv_step (SQLSetStmtAttr (addr h) SQL_ATTR_PARAMSET_SIZE
                               paramSetSize) in
  status drv_step fuel r Default Default (Given h) None ;;;
  ret tt.

End Relations.

(** ** What the statement is executed with *)

(** A parameter value as the statement receives it: null, or bytes of a C
    type. *)
Inductive dbval :=
| DbNull
| DbVal (ctype : Z) (bytes : pystr).

(** A parameter binding, as [SQLBindParameter] leaves it with the driver. *)
Record Binding := mkBinding {
  b_valueType : Z;
  b_param : option Buffer;
  b_bufferLength : Z;
  b_lengths : list Z
}.

(** All the bytes of a ctypes array. *)
Definition contents (b : Buffer) : pystr :=
  data b ++ repeat NUL (Z.to_nat (cap b) - length (data b)).

(** The value of parameter set [r] under a binding, by the native contract of
    column-wise parameter arrays: the element starts [r * bufferLength] bytes
    into the array and its indicator is entry [r] of the length array, which
    is the null sentinel, or [SQL_NTS] for text that ends at the first zero,
    or the number of bytes. *)
Definition element (b : Binding) (r : nat) : dbval :=
  match b_param b, b_lengths b !! r with
  | Some buf, Some len =>
    if len =? SQL_NULL_DATA then DbNull
    else
      let bytes := drop (r * Z.to_nat (b_bufferLength b)) (contents buf) in
      if len =? SQL_NTS then DbVal (b_valueType b) (until_nul bytes)
      else DbVal (b_valueType b) (take (Z.to_nat len) bytes)
  | _, _ => DbNull
  end.

(** The statement's side of the parameter calls: the bindings since the last
    reset, by ordinal, the size of the parameter set, and the rows the
    statement has been executed with so far. *)
Record Submission := mkSubmission {
  sub_bound : list (option Binding);
  sub_size : Z;
  sub_rows : list (list dbval)
}.

(** Ordinal [n] is bound to [b]. *)
Definition store (n : Z) (b : Binding) (l : list (option Binding))
  : list (option Binding) :=
  let i := Z.to_nat (n - 1) in
  if (i <? length l)%nat then <[i := Some b]> l
  else l ++ repeat None (i - length l) ++ [Some b].

(** Parameter set [r] of the current bindings, ordinal by ordinal. *)
Definition param_row (l : list (option Binding)) (r : nat) : list dbval :=
  map (fun ob => match ob with Some b => element b r | None => DbNull end) l.

(** What one native call does to the submission: a reset drops the
    bindings, the parameter-set attribute sets the size, a bind stores its
    binding, and an execute submits the parameter sets of the current
    bindings. *)
Definition submit_call (c : Call) (s : Submission) : Submission :=
  match c with
  | SQLFreeStmt _ opt =>
    if opt =? SQL_RESET_PARAMS then mkSubmission [] (sub_size s) (sub_rows s)
    else s
  | SQLSetStmtAttr _ attr val =>
    if attr =? SQL_ATTR_PARAMSET_SIZE
    then mkSubmission (sub_bound s) val (sub_rows s)
    else s
  | SQLBindParameter _ n _ valueType _ _ param bufferLength lengths =>
    mkSubmission
      (store n (mkBinding valueType (snd <$> param) bufferLength lengths)
         (sub_bound s))
      (sub_size s) (sub_rows s)
  | SQLExecute _ =>
    mkSubmission (sub_bound s) (sub_size s)
      (sub_rows s
       ++ map (param_row (sub_bound s)) (seq 0 (Z.to_nat (sub_size s))))
  | _ => s
  end.

(** The submission a log amounts to ([SQL_ATTR_PARAMSET_SIZE] is 1 until it
    is set). *)
Fixpoint submitted (log : list (Call * Response)) : Submission :=
  match log with
  | [] => mkSubmission [] 1 []
  | (c, _) :: log' => submit_call c (submitted log')
  end.

(** A text, integer or null parameter. *)
Definition plain (v : pyval) : Prop :=
  match v with
  | PNone | PStr _ | PInt _ => True
  | _ => False
  end.

(** What the statement is to receive for a plain parameter. *)
Definition param_value (repr : pyval -> pystr) (v : pyval) : dbval :=
  match v with
  | PNone => DbNull
  | _ => DbVal SQL_C_WCHAR (until_nul (text_of repr v))
  end.

(** The slot of one row in the array of a text column of [ml] bytes per
    row. *)
Definition slot (ml : nat) (v : option pystr) : pystr :=
  match v with
  | Some s => s ++ repeat NUL (ml - length s)
  | None => repeat NUL ml
  end.

(** The entry of one row in the length array of a text column. *)
Definition indicator (v : option pystr) : Z :=
  match v with
  | Some _ => SQL_NTS
  | None => SQL_NULL_DATA
  end.

Section Submissions.

Context {DrvState : Type}.

(** The run leaves the submission as it is. *)
Definition same_sub (w w' : World DrvState) : Prop :=
  submitted (w_log w') = submitted (w_log w).

End Submissions.

(** Calls that are none of the statement's parameter calls. *)
Definition inert (c : Call) : Prop := forall s, submit_call c s = s.

(** ** Drivers and inputs of the concrete runs *)

(** A driver for a prepared statement with [st_numParams] parameters, which
    accepts every call.  It remembers the buffers bound as output or
    input/output parameters and the size of the parameter set; on execute it
    stores the value [st_out n] into the buffer of each output ordinal [n],
    and it reports as row count the number of parameter sets of the latest
    execute. *)
Record Stmt := mkStmt {
  st_numParams : Z;
  st_out : Z -> pystr;
  st_bound : list (Z * nat);
  st_paramset : Z;
  st_rows : Z
}.

(** Its answers, call by call. *)
Definition stmt_step (s : Stmt) (c : Call) : Response * Stmt :=
  match c with
  | SQLNumParams _ =>
    (mkResponse SQL_SUCCESS [Some (st_numParams s)] [] [], s)
  | SQLDescribeParam _ _ =>
    (mkResponse SQL_SUCCESS [Some SQL_WVARCHAR] [] [], s)
  | SQLFreeStmt _ opt =>
    (answer SQL_SUCCESS,
     if opt =? SQL_RESET_PARAMS
     then mkStmt (st_numParams s) (st_out s) [] (st_paramset s) (st_rows s)
     else s)
  | SQLSetStmtAttr _ attr val =>
    (answer SQL_SUCCESS,
     if attr =? SQL_ATTR_PARAMSET_SIZE
     then mkStmt (st_numParams s) (st_out s) (st_bound s) val (st_rows s)
     else s)
  | SQLBindParameter _ n ioType _ _ _ (Some (i, _)) _ _ =>
    (answer SQL_SUCCESS,
     if (ioType =? SQL_PARAM_OUTPUT) || (ioType =? SQL_PARAM_INPUT_OUTPUT)
     then mkStmt (st_numParams s) (st_out s) (st_bound s ++ [(n, i)])
            (st_paramset s) (st_rows s)
     else s)
  | SQLExecute _ =>
    (mkResponse SQL_SUCCESS [] []
       (map (fun b => (b.2, st_out s b.1 ++ [NUL])) (st_bound s)),
     mkStmt (st_numParams s) (st_out s) (st_bound s) (st_paramset s)
       (st_paramset s))
  | SQLRowCount _ =>
    (mkResponse SQL_SUCCESS [Some (st_rows s)] [] [], s)
  | SQLNumResultCols _ =>
    (mkResponse SQL_SUCCESS [Some 0] [] [], s)
  | _ => (answer SQL_SUCCESS, s)
  end.

(** A world with one connection and one cursor on it, both open, and the
    given parameter objects. *)
Definition world1 {D} (d : D) (ps : list OutParam) : World D :=
  mkWorld d [] (HPtr 1) [0%nat]
    [mkConn (HPtr 2) 1 0 [0%nat] (py "Teradata")]
    [mkCursor (HPtr 3) 0 0 None (-1) None [] [] None]
    ps [] [].

(** The values a procedure assigns to its two parameters. *)
Definition proc_out (n : Z) : pystr :=
  if n =? 1 then py "ONE" else py "TWO".

(** [r = cursor.callproc("p", (InOutParam("seed"), OutParam()))] and then
    the values of the two parameters. *)
Definition callproc_run :=
  (callproc stmt_step 5 id (fun _ _ => []) (fun _ => []) 0 (py "p")
     [PParam 0; PParam 1] 0 ;;;
   let! a := OutParam_value 0 in
   let! b := OutParam_value 1 in
   ret (a, b))
    (world1 (mkStmt 2 proc_out [] 1 0)
       [mkOutParam true (PStr (py "seed")) None None;
        mkOutParam false PNone None None]).

(** A driver for a result set.  A column of the current row is null, or has
    data that is still to be handed out, or has been handed out. *)
Inductive ColState :=
| CNull
| CData (d : pystr)
| CDone.

(** The rows still to fetch, the columns of the current row, and the
    diagnostic records of the latest call. *)
Record RowSet := mkRowSet {
  rs_rows : list (list (option pystr));
  rs_row : list ColState;
  rs_diag : list DiagRec
}.

(** The record that reports a truncation. *)
Definition truncated : DiagRec :=
  (SQL_STATE_DATA_TRUNCATED, py "String data, right truncated", 0).

(** [SQLGetData] on one column with a buffer of [bufLen] bytes: null is
    reported by the sentinel; data that fits is handed out, with a zero
    terminator for text; of data that does not, the part that fits is handed
    out, the length reported is the length of what was left, the rest stays
    for the next call and truncation is reported. *)
Definition getdata (st : ColState) (targetType bufLen : Z)
  : Response * ColState * list DiagRec :=
  match st with
  | CNull => (mkResponse SQL_SUCCESS [Some SQL_NULL_DATA] [] [], CNull, [])
  | CDone => (answer SQL_NO_DATA, CDone, [])
  | CData d =>
    let n := Z.of_nat (length d) in
    let room := if targetType =? SQL_C_BINARY then bufLen else bufLen - 1 in
    let term := if targetType =? SQL_C_BINARY then [] else [NUL] in
    if room <? 0 then
      (answer SQL_ERROR, CData d,
       [(py "HY090", py "Invalid string or buffer length", 0)])
    else if n <=? room then
      (mkResponse SQL_SUCCESS [Some n] [d ++ term] [], CDone, [])
    else
      (mkResponse SQL_SUCCESS_WITH_INFO [Some n]
         [take (Z.to_nat room) d ++ term] [],
       CData (drop (Z.to_nat room) d), [truncated])
  end.

(** Its answers, call by call. *)
Definition rowset_step (s : RowSet) (c : Call) : Response * RowSet :=
  match c with
  | SQLGetDiagRecW _ _ k _ =>
    match (if 1 <=? k then rs_diag s !! Z.to_nat (k - 1) else None) with
    | Some (st, msg, native) =>
      (mkResponse SQL_SUCCESS [Some native; Some (Z.of_nat (length msg))]
         [st ++ [NUL]; msg ++ [NUL]] [], s)
    | None => (answer SQL_NO_DATA, s)
    end
  | SQLFetch _ =>
    match rs_rows s with
    | r :: rest =>
      (answer SQL_SUCCESS,
       mkRowSet rest
         (map (fun v => match v with Some d => CData d | None => CNull end) r)
         [])
    | [] => (answer SQL_NO_DATA, mkRowSet [] [] [])
    end
  | SQLGetData _ col targetType bufLen =>
    match (if 1 <=? col then rs_row s !! Z.to_nat (col - 1) else None) with
    | Some st =>
      let '(r, st', dg) := getdata st targetType bufLen in
      (r, mkRowSet (rs_rows s) (<[Z.to_nat (col - 1) := st']> (rs_row s)) dg)
    | None =>
      (answer SQL_ERROR,
       mkRowSet (rs_rows s) (rs_row s)
         [(py "07009", py "Invalid descriptor index", 0)])
    end
  | _ => (answer SQL_SUCCESS, mkRowSet (rs_rows s) (rs_row s) [])
  end.

(** A world with one open cursor that has a result set of the given columns
    to iterate. *)
Definition world_rows {D} (d : D) (descs : list ColDesc) : World D :=
  mkWorld d [] (HPtr 1) [0%nat]
    [mkConn (HPtr 2) 1 0 [0%nat] (py "Teradata")]
    [mkCursor (HPtr 3) 0 0 (Some descs) (-1) None [] [] (Some rowIterator)]
    [] [] [].

(** The description of a text column. *)
Definition text_col : ColDesc := (py "c", py "STRING", 0, 0, 1).

(** The primitive reports a longer message each time record 1 is asked for:
    4096 bytes are not enough, nor 5000, and 6000 are. *)
Definition growing_message : list Response :=
  [diag_answer SQL_SUCCESS_WITH_INFO "01000" "" 0 5000;
   diag_answer SQL_SUCCESS_WITH_INFO "01000" "" 0 6000;
   diag_answer SQL_SUCCESS "01000" "m" 0 1].

(** Two records on the connection: the connection is not open, and the
    error that broke it. *)
Definition broken_link : list Response :=
  [diag_answer SQL_SUCCESS "08003" "Connection not open" 0 19;
   diag_answer SQL_SUCCESS "08S01" "Communication link failure" 7 26].

(** One record on the statement. *)
Definition syntax_error : list Response :=
  [diag_answer SQL_SUCCESS "42000" "Syntax error" 3706 12].

(** A [str()] for the values that are neither text nor integers; the runs
    below have none. *)
Definition none_repr (v : pyval) : pystr := [].

(** An open cursor on a statement of two parameters. *)
Definition two_params : World Stmt := world1 (mkStmt 2 (fun _ => []) [] 1 0) [].

(** A text of [LARGE_BUFFER_SIZE / 2 + 1] letters of two bytes each
    (U+00E9). *)
Definition accented : pystr :=
  concat (repeat [ascii_of_N 195; ascii_of_N 169]
            (Z.to_nat (LARGE_BUFFER_SIZE / 2 + 1))).

(** A text of one zero character and then [LARGE_BUFFER_SIZE] letters. *)
Definition zero_led : pystr :=
  NUL :: repeat "a"%char (Z.to_nat LARGE_BUFFER_SIZE).

(** [cursor.executemany("INSERT", params, batch=batch)] on a statement of
    [n] parameters. *)
Definition run_many (batch : bool) (n : Z) (params : list (list pyval))
  : Res unit * World Stmt :=
  executemany stmt_step 5 id (fun _ _ => []) none_repr 0 (py "INSERT")
    params batch 0 (world1 (mkStmt n (fun _ => []) [] 1 0) []).

(** Rows for a statement of two parameters, and for one of one. *)
Definition three_rows : list (list pyval) :=
  [[PStr (py "a"); PInt 1]; [PStr (py "bcd"); PNone]; [PStr []; PInt 22]].

Definition empty_bytes_then_null : list (list pyval) := [[PBytes []]; [PNone]].

(** The answers to the calls of a close: the cursor's handle is freed, the
    disconnect fails on an open transaction, the rollback succeeds, and the
    second disconnect finds the connection gone. *)
Definition rollback_then_gone : list Response :=
  [answer SQL_SUCCESS;
   answer SQL_ERROR;
   diag_answer SQL_SUCCESS "25000" "Invalid transaction state" 0 25;
   answer SQL_NO_DATA;
   answer SQL_SUCCESS;
   answer SQL_ERROR;
   diag_answer SQL_SUCCESS "08003" "Connection not open" 0 19].

(** The same, with a second disconnect that succeeds. *)
Definition rollback_then_disconnect : list Response :=
  [answer SQL_SUCCESS;
   answer SQL_ERROR;
   diag_answer SQL_SUCCESS "25000" "Invalid transaction state" 0 25;
   answer SQL_NO_DATA;
   answer SQL_SUCCESS;
   answer SQL_SUCCESS;
   answer SQL_SUCCESS].

(** The answers to the calls of a connect whose handshake succeeds and whose
    autocommit attribute is refused, and then of a close that succeeds. *)
Definition refused_autocommit : list Response :=
  [mkResponse SQL_SUCCESS [Some 1] [] [];
   answer SQL_SUCCESS;
   mkResponse SQL_SUCCESS [Some 2] [] [];
   answer SQL_SUCCESS;
   answer SQL_ERROR;
   diag_answer SQL_SUCCESS "HYC00" "Optional feature not implemented" 1 32;
   answer SQL_NO_DATA;
   answer SQL_SUCCESS;
   answer SQL_SUCCESS].

(** The same, with a disconnect that fails on a broken link. *)
Definition refused_then_broken : list Response :=
  [mkResponse SQL_SUCCESS [Some 1] [] [];
   answer SQL_SUCCESS;
   mkResponse SQL_SUCCESS [Some 2] [] [];
   answer SQL_SUCCESS;
   answer SQL_ERROR;
   diag_answer SQL_SUCCESS "HYC00" "Optional feature not implemented" 1 32;
   answer SQL_NO_DATA;
   answer SQL_ERROR;
   diag_answer SQL_SUCCESS "08S01" "Communication link failure" 7 26].

(** [OdbcConnection(system="tdprod", username="u", password="p")] *)
Definition connect (script : list Response) : Res nat * World (list Response) :=
  OdbcConnection_init scripted 3 id (fun _ _ => []) none_repr
    (fun _ => ret 0) (OdbcCursor_close scripted 3)
    (py "Teradata") (py "tdprod") (py "u") (py "p") true [] [] []
    (world0 script).

(** ** Further notions for the properties below *)

(** The state in which the result-set driver holds a column of a row just
    fetched. *)
Definition col_state (v : option pystr) : ColState :=
  match v with
  | Some d => CData d
  | None => CNull
  end.

(** What the row iterator is to yield for a column value: [None] for null,
    a [bytearray] for a binary column and text for any other. *)
Definition decoded (binaryData : bool) (v : option pystr) : rowval :=
  match v with
  | None => VNone
  | Some d => if binaryData then VBytes d else VStr d
  end.

(** A column value that the row iterator can fetch with a buffer of [c]
    bytes: binary data (data longer than the buffer takes a retrieval of
    diagnostics, hence fuel), and ASCII text that fits the buffer with its
    terminator; the length fits [SQLLEN]. *)
Definition fetchable (fuel : nat) (c : Z) (binaryData : bool)
    (v : option pystr) : Prop :=
  match v with
  | None => True
  | Some d =>
    Z.of_nat (length d) < 2 ^ 63 /\
    if binaryData then Z.of_nat (length d) <= c \/ (2 <= fuel)%nat
    else ascii_text d /\ Z.of_nat (length d) < c
  end.

(** ** What a run leaves as it is *)

Section Kept.

Context {DrvState : Type}.

(** The component [f] of the world is left as it is. *)
Definition kept {X} (f : World DrvState -> X) : relation (World DrvState) :=
  fun w w' => f w' = f w.

End Kept.

(** ** The exit hook *)

Section Exit.

Context {DrvState : Type}.
Variable drv_step : DrvState -> Call -> Response * DrvState.
Variable fuel : nat.

(** [cleanupConnections]: the loop runs over a copy of [connections]. *)
Definition cleanupConnections : M DrvState unit :=
  let! w := get in
  match w_connections w with
  | [] => ret tt
  | l => for_each l (OdbcConnection_close drv_step fuel)
  end.

End Exit.

(** ** What a run that raises leaves behind *)

Section OnRaise.

Context {DrvState : Type}.

(** When [m] raises, the worlds before and after are related by [R]. *)
Definition on_raise {A} (R : relation (World DrvState)) (m : M DrvState A)
  : Prop :=
  forall w e w', m w = (Raise e, w') -> R w w'.

(** The module's list of connections and the handle of every connection
    object. *)
Definition registry (w : World DrvState) : list nat * list pyhandle :=
  (w_connections w, map hDbc (w_conns w)).

(** Connection [c] has no handle to close: [if self.hDbc:] fails. *)
Definition closed (w : World DrvState) (c : nat) : bool :=
  match w_conns w !! c with
  | Some k => negb (truthy (hDbc k))
  | None => true
  end.

End OnRaise.

(** ** The calls of a run *)

Section Logged.

Context {DrvState : Type}.

(** Every native call logged from [w] to [w'] satisfies [P]. *)
Definition calls_all (P : Call -> Prop) (w w' : World DrvState) : Prop :=
  exists t, w_log w' = t ++ w_log w /\ Forall (fun cr => P cr.1) t.

End Logged.

(** The call does not set a query timeout other than [0] (no timeout). *)
Definition no_timeout (c : Call) : Prop :=
  forall h v, c = SQLSetStmtAttr h SQL_ATTR_QUERY_TIMEOUT v -> v = 0.

(** ** The C types of the parameters of a row *)

(** The value is a [bytearray]. *)
Definition is_bytes (v : pyval) : bool :=
  match v with
  | PBytes _ => true
  | _ => false
  end.

(** The C type under which per-row mode binds ordinal [n] of the row [p]:
    binary as soon as that parameter, or one before it in the row, is a
    [bytearray]. *)
Definition row_value_type (p : list pyval) (n : Z) : Z :=
  if existsb is_bytes (take (Z.to_nat n) p) then SQL_C_BINARY
  else SQL_C_WCHAR.

(** The call, if it binds a parameter, binds it under the C type that [ty]
    gives for its ordinal. *)
Definition binds_as (ty : Z -> Z) (c : Call) : Prop :=
  match c with
  | SQLBindParameter _ n _ valueType _ _ _ _ _ => valueType = ty n
  | _ => True
  end.

(** The C type under which columnar mode binds ordinal [n]: binary when the
    value of some row for that ordinal is a [bytearray]. *)
Definition column_value_type (params : list (list pyval)) (n : Z) : Z :=
  if existsb is_bytes
       (map (fun row => nth (Z.to_nat (n - 1)) row PNone) params)
  then SQL_C_BINARY else SQL_C_WCHAR.

(** ** What a run returns *)

Section Ensures.

Context {DrvState : Type}.

(** A run of [m] relates the worlds before and after it by [R], and a value
    it returns satisfies [Q]. *)
Definition ensures {A} (R : relation (World DrvState)) (Q : A -> Prop)
    (m : M DrvState A) : Prop :=
  forall w, R w (m w).2 /\ forall a, (m w).1 = Ret a -> Q a.

End Ensures.

(** ** A driver that follows the contract of [SQLGetDiagRecW] *)

(** The driver holds the diagnostic records of the handle.  Asked for record
    [k] with a buffer of [bufLen] characters, it reports the length of the
    message; a message that fits with its terminator is handed out with
    success, and of one that does not, the first [bufLen - 1] characters and
    the terminator are handed out with success-with-info.  There is no data
    beyond the last record. *)
Definition diag_std (recs : list DiagRec) (c : Call)
  : Response * list DiagRec :=
  match c with
  | SQLGetDiagRecW _ _ k bufLen =>
    match (if 1 <=? k then recs !! Z.to_nat (k - 1) else None) with
    | Some (st, msg, native) =>
      let n := Z.of_nat (length msg) in
      if n <? bufLen then
        (mkResponse SQL_SUCCESS [Some native; Some n]
           [st ++ [NUL]; msg ++ [NUL]] [], recs)
      else
        (mkResponse SQL_SUCCESS_WITH_INFO [Some native; Some n]
           [st ++ [NUL]; take (Z.to_nat (bufLen - 1)) msg ++ [NUL]] [], recs)
    | None => (answer SQL_NO_DATA, recs)
    end
  | _ => (answer SQL_SUCCESS, recs)
  end.

(** The message that [getDiagnosticInfo] lists for a message [msg] of the
    driver when its buffer has [c] characters: a message that does not fit
    loses its last character, also after the buffer was resized for it. *)
Definition received (c : Z) (msg : pystr) : pystr :=
  if Z.of_nat (length msg) <? c then msg else take (length msg - 1) msg.

(** The records listed for the records [recs] of the driver, from a buffer
    of [c] characters on; the buffer stays as large as the longest message
    so far. *)
Fixpoint diag_scan (c : Z) (recs : list DiagRec) : list DiagRec :=
  match recs with
  | [] => []
  | (st, msg, native) :: rest =>
    (st, received c msg, Z.abs native)
    :: diag_scan (Z.max c (Z.of_nat (length msg))) rest
  end.

(** A record of a driver: a state of five ASCII characters at most, an
    ASCII message whose length fits [SQLSMALLINT], and a native code that
    fits [SQLINTEGER]. *)
Definition diag_wf (i : DiagRec) : Prop :=
  ascii_text i.1.1 /\ Z.of_nat (length i.1.1) < 6 /\
  ascii_text i.1.2 /\ Z.of_nat (length i.1.2) < 2 ^ 15 /\
  - 2 ^ 31 <= i.2 < 2 ^ 31.

(** * Properties *)

(** ** Laws of the monad *)

Section MonadFacts.

Context {DrvState : Type}.

Lemma bind_Ret_inv {A B} (m : M DrvState A) (f : A -> M DrvState B) w b w' :
  bind m f w = (Ret b, w') ->
  exists a w1, m w = (Ret a, w1) /\ f a w1 = (Ret b, w').
Proof.
  unfold bind. destruct (m w) as [[a | e |] w1]; intros H; try discriminate.
  eauto.
Qed.

Lemma bind_Ret {A B} (m : M DrvState A) (f : A -> M DrvState B) w a w1 :
  m w = (Ret a, w1) -> bind m f w = f a w1.
Proof. intros H. unfold bind. now rewrite H. Qed.

Lemma bind_Raise {A B} (m : M DrvState A) (f : A -> M DrvState B) w e w1 :
  m w = (Raise e, w1) -> bind m f w = (Raise e, w1).
Proof. intros H. unfold bind. now rewrite H. Qed.

Lemma bind_Diverge {A B} (m : M DrvState A) (f : A -> M DrvState B) w w1 :
  m w = (Diverge, w1) -> bind m f w = (Diverge, w1).
Proof. intros H. unfold bind. now rewrite H. Qed.

Lemma bind_assoc {A B C} (m : M DrvState A) (f : A -> M DrvState B)
    (g : B -> M DrvState C) w :
  bind (bind m f) g w = bind m (fun a => bind (f a) g) w.
Proof. unfold bind. destruct (m w) as [[a | e |] w1]; reflexivity. Qed.

Lemma bind_ret_l {A B} (a : A) (f : A -> M DrvState B) w :
  bind (ret a) f w = f a w.
Proof. reflexivity. Qed.

Lemma the_Ret_inv {A} (o : option A) (w : World DrvState) a w' :
  the o w = (Ret a, w') -> o = Some a /\ w' = w.
Proof. destruct o; simpl; intros [= <- <-]; auto. Qed.

Lemma cursor_of_eq c (w : World DrvState) x :
  w_cursors w !! c = Some x -> cursor_of c w = (Ret x, w).
Proof. intros H. unfold cursor_of. now rewrite H. Qed.

Lemma conn_of_eq c (w : World DrvState) x :
  w_conns w !! c = Some x -> conn_of c w = (Ret x, w).
Proof. intros H. unfold conn_of. now rewrite H. Qed.

End MonadFacts.

Tactic Notation "bind_inv" hyp(H) "as" ident(a) ident(w) ident(E) :=
  apply bind_Ret_inv in H; destruct H as (a & w & E & H).

(** ** Relations that every step of a run preserves *)

Section Preservation.

Context {DrvState : Type}.

Context (R : relation (World DrvState)) `{!PreOrder R}.

Lemma preserves_ret {A} (a : A) : preserves R (ret a).
Proof. intros w. simpl. reflexivity. Qed.

Lemma preserves_raise {A} e : preserves R (@raise DrvState A e).
Proof. intros w. simpl. reflexivity. Qed.

Lemma preserves_diverge {A} : preserves R (@diverge DrvState A).
Proof. intros w. simpl. reflexivity. Qed.

Lemma preserves_lift {A} (r : Res A) : preserves R (lift r).
Proof. intros w. simpl. reflexivity. Qed.

Lemma preserves_get : preserves R get.
Proof. intros w. simpl. reflexivity. Qed.

Lemma preserves_the {A} (o : option A) : preserves R (the o).
Proof. destruct o; [apply preserves_ret | apply preserves_raise]. Qed.

Lemma preserves_conn_of c : preserves R (conn_of c).
Proof. intros w. apply preserves_the. Qed.

Lemma preserves_cursor_of c : preserves R (cursor_of c).
Proof. intros w. apply preserves_the. Qed.

Lemma preserves_outparam_of c : preserves R (outparam_of c).
Proof. intros w. apply preserves_the. Qed.

Lemma preserves_bind {A B} (m : M DrvState A) (f : A -> M DrvState B) :
  preserves R m -> (forall a, preserves R (f a)) -> preserves R (bind m f).
Proof.
  intros Hm Hf w. unfold bind. specialize (Hm w).
  destruct (m w) as [[a | e |] w1]; simpl in *; try exact Hm.
  etransitivity; [exact Hm | apply Hf].
Qed.

Lemma preserves_try_except {A} (m : M DrvState A) h :
  preserves R m -> (forall e, preserves R (h e)) ->
  preserves R (try_except m h).
Proof.
  intros Hm Hh w. unfold try_except. specialize (Hm w).
  destruct (m w) as [[a | e |] w1]; simpl in *; try exact Hm.
  etransitivity; [exact Hm | apply Hh].
Qed.

Lemma preserves_modify (f : World DrvState -> World DrvState) :
  (forall w, R w (f w)) -> preserves R (modify f).
Proof. intros H w. apply H. Qed.

Lemma preserves_weaken {A} (R' : relation (World DrvState))
    (m : M DrvState A) :
  (forall w w', R' w w' -> R w w') -> preserves R' m -> preserves R m.
Proof. intros H Hm w. apply H, Hm. Qed.

Lemma preserves_for_each {A} (l : list A) (f : A -> M DrvState unit) :
  (forall a, preserves R (f a)) -> preserves R (for_each l f).
Proof.
  intros Hf. induction l as [| x l IH]; simpl.
  - apply preserves_ret.
  - apply preserves_bind; auto.
Qed.

End Preservation.

(** Steps through the structure of a computation. *)
Ltac preserve :=
  repeat first
    [ lazymatch goal with |- PreOrder _ => exact _ end
    | apply preserves_ret | apply preserves_raise | apply preserves_diverge
    | apply preserves_lift | apply preserves_get | apply preserves_the
    | apply preserves_conn_of | apply preserves_cursor_of
    | apply preserves_outparam_of
    | apply preserves_bind; [exact _ | | intro]
    | apply preserves_try_except; [exact _ | | intro]
    | apply preserves_for_each; [exact _ | intro]
    | match goal with
      | |- preserves _ (if ?b then _ else _) => destruct b
      | |- preserves _ (match ?x with _ => _ end) => destruct x
      | |- preserves _ (let '(_, _) := ?x in _) => destruct x
      end ].

(** ** Status checking *)

Section Session.

Context {DrvState : Type}.
Variable drv_step : DrvState -> Call -> Response * DrvState.
Variable fuel : nat.

#[global] Instance quiet_preorder : PreOrder (@quiet DrvState).
Proof.
  split.
  - intros w. unfold quiet. repeat split; try reflexivity.
    exists []. split; [reflexivity | constructor].
  - intros w1 w2 w3 (H1 & H2 & H3 & H4 & H5 & H6 & t & Ht & Hf)
      (G1 & G2 & G3 & G4 & G5 & G6 & u & Hu & Hg).
    unfold quiet. repeat split; try congruence.
    exists (u ++ t). split.
    + rewrite Hu, Ht. now rewrite app_assoc.
    + apply Forall_app; split; assumption.
Qed.

Lemma native_frame (c : Call) (w : World DrvState) :
  exists r w1,
    native drv_step c w = (Ret r, w1) /\
    r = (drv_step (w_drv w) c).1 /\
    w_drv w1 = (drv_step (w_drv w) c).2 /\
    w_log w1 = (c, r) :: w_log w /\
    w_hEnv w1 = w_hEnv w /\ w_connections w1 = w_connections w /\
    w_conns w1 = w_conns w /\ w_cursors w1 = w_cursors w /\
    w_outparams w1 = w_outparams w /\ w_cells w1 = w_cells w.
Proof.
  unfold native. destruct (drv_step (w_drv w) c) as [r s]. simpl.
  eexists _, _. split; [reflexivity |]. simpl. repeat split.
Qed.

Lemma native_diag_quiet handleType handle k b :
  preserves quiet (native drv_step (SQLGetDiagRecW handleType handle k b)).
Proof.
  intros w.
  destruct (native_frame (SQLGetDiagRecW handleType handle k b) w)
    as (r & w1 & Hn & _ & _ & Hlog & H1 & H2 & H3 & H4 & H5 & H6).
  rewrite Hn. simpl. unfold quiet. repeat split; try assumption.
  eexists [_]. split; [exact Hlog |]. constructor; [reflexivity | constructor].
Qed.

Lemma getDiagLoop_quiet n handle handleType v :
  preserves quiet (getDiagLoop drv_step n handle handleType v).
Proof.
  revert v. induction n as [| n IH]; intros v; cbn [getDiagLoop].
  - preserve.
  - apply preserves_bind; [exact _ | apply native_diag_quiet |]. intros r.
    preserve; apply IH.
Qed.

Lemma checkStatus_quiet rc hEnv hDbc hStmt ignore :
  preserves quiet (checkStatus drv_step fuel rc hEnv hDbc hStmt ignore).
Proof.
  unfold checkStatus, diagnosticsOf, getDiagnosticInfo.
  preserve; apply getDiagLoop_quiet.
Qed.

Lemma status_quiet r hEnv hDbc hStmt ignore :
  preserves quiet (status drv_step fuel r hEnv hDbc hStmt ignore).
Proof. apply checkStatus_quiet. Qed.

Lemma checkStatus_after_diagnostics rc hEnv hDbc hStmt ignore
    (w : World DrvState) info w' :
  rc <> SQL_SUCCESS -> rc <> SQL_NO_DATA ->
  diagnosticsOf drv_step fuel hEnv hDbc hStmt w = (Ret info, w') ->
  checkStatus drv_step fuel rc hEnv hDbc hStmt ignore w
  = (checkLoop rc ignore info [], w').
Proof.
  intros H0 H100 Hd. unfold checkStatus.
  replace ((rc =? SQL_SUCCESS) || (rc =? SQL_NO_DATA)) with false
    by (symmetry; apply orb_false_intro; apply Z.eqb_neq; assumption).
  now rewrite (bind_Ret _ _ _ _ _ Hd).
Qed.

Lemma checkLoop_info rc ignore info acc :
  rc = SQL_SUCCESS_WITH_INFO ->
  checkLoop rc ignore info acc = Ret (acc ++ map (fun i => i.1.1) info).
Proof.
  intros ->. revert acc. induction info as [| i rest IH]; intros acc; simpl.
  - now rewrite app_nil_r.
  - rewrite IH, <- app_assoc. reflexivity.
Qed.

Lemma not_ignored_false ignore st :
  not_ignored ignore st = false <-> ignored ignore st.
Proof.
  unfold not_ignored, ignored. destruct ignore as [l |].
  - destruct l as [| x l].
    + split; [discriminate |]. intros (l & [= <-] & H). inversion H.
    + rewrite negb_false_iff, bool_decide_eq_true. split.
      * intros H. eauto.
      * intros (l' & [= <-] & H). exact H.
  - split; [discriminate |]. intros (l & H & _). discriminate.
Qed.

Lemma not_ignored_true ignore st :
  not_ignored ignore st = true <-> ~ ignored ignore st.
Proof.
  rewrite <- not_ignored_false. destruct (not_ignored ignore st); split; 
    intros; congruence.
Qed.

(** C1: [checkStatus] returns the empty list, and asks for no diagnostics,
    when [rc] is success or no-data.  For any other [rc], once the diagnostic
    records [info] of the handle have been retrieved: on success-with-info it
    returns the states of all the records and does not raise; otherwise it
    returns the empty list when there is no record, and else the first record
    decides alone: when its state is in the ignore list the scan stops there
    and that state is returned, whatever the later records are, and when it is
    not, a [DatabaseError] is raised that carries the native error code of
    that record, the message formatted from its state and text, and its
    state.  In particular no error is raised when every record is ignored. *)
Theorem checkStatus_raises_for_first_unignored_record :
  forall rc hEnv hDbc hStmt ignore (w : World DrvState),
  (rc = SQL_SUCCESS \/ rc = SQL_NO_DATA ->
   checkStatus drv_step fuel rc hEnv hDbc hStmt ignore w = (Ret [], w)) /\
  (forall info w',
   rc <> SQL_SUCCESS -> rc <> SQL_NO_DATA ->
   diagnosticsOf drv_step fuel hEnv hDbc hStmt w = (Ret info, w') ->
   (rc = SQL_SUCCESS_WITH_INFO ->
    checkStatus drv_step fuel rc hEnv hDbc hStmt ignore w
    = (Ret (map (fun i => i.1.1) info), w')) /\
   (rc <> SQL_SUCCESS_WITH_INFO ->
    (info = [] ->
     checkStatus drv_step fuel rc hEnv hDbc hStmt ignore w = (Ret [], w')) /\
    (Forall (fun i => ignored ignore i.1.1) info ->
     exists l,
       checkStatus drv_step fuel rc hEnv hDbc hStmt ignore w = (Ret l, w')) /\
    (forall i rest, info = i :: rest -> ignored ignore i.1.1 ->
     checkStatus drv_step fuel rc hEnv hDbc hStmt ignore w
     = (Ret [i.1.1], w')) /\
    (forall i rest, info = i :: rest -> ~ ignored ignore i.1.1 ->
     checkStatus drv_step fuel rc hEnv hDbc hStmt ignore w
     = (Raise (DatabaseError i.2 (format_diag i) i.1.1), w')))).
Proof.
  intros rc hEnv hDbc hStmt ignore w. split.
  - intros H. unfold checkStatus.
    destruct H as [-> | ->]; reflexivity.
  - intros info w' H0 H100 Hd.
    assert (Hrc : (rc =? SQL_SUCCESS) || (rc =? SQL_NO_DATA) = false).
    { apply orb_false_intro; apply Z.eqb_neq; assumption. }
    assert (Hcs : checkStatus drv_step fuel rc hEnv hDbc hStmt ignore w
                  = (checkLoop rc ignore info [], w')).
    { unfold checkStatus. rewrite Hrc. rewrite (bind_Ret _ _ _ _ _ Hd).
      reflexivity. }
    rewrite Hcs. split.
    + intros Hswi. now rewrite checkLoop_info.
    + intros Hswi. apply Z.eqb_neq in Hswi.
      assert (Hfirst : forall i rest, info = i :: rest ->
                checkLoop rc ignore info []
                = if not_ignored ignore i.1.1
                  then Raise (DatabaseError i.2 (format_diag i) i.1.1)
                  else Ret [i.1.1]).
      { intros i rest ->. simpl. now rewrite Hswi. }
      repeat split.
      * intros ->. reflexivity.
      * intros Hall. destruct info as [| i rest]; [eexists; reflexivity |].
        rewrite (Hfirst i rest eq_refl).
        apply Forall_cons_1 in Hall as [Hi _].
        apply not_ignored_false in Hi. rewrite Hi. eexists; reflexivity.
      * intros i rest Hinfo Hi. rewrite (Hfirst i rest Hinfo).
        apply not_ignored_false in Hi. now rewrite Hi.
      * intros i rest Hinfo Hi. rewrite (Hfirst i rest Hinfo).
        apply not_ignored_true in Hi. now rewrite Hi.
Qed.

(** ** The scan of the diagnostic records *)

Lemma cap_out_buf k b r : cap (out_buf k b r) = cap b.
Proof. unfold out_buf. destruct (outBufs r !! k); reflexivity. Qed.

Lemma _outputStr_cases b :
  (exists s, _outputStr b = Ret s) \/ _outputStr b = Raise UnicodeDecodeError.
Proof.
  unfold _outputStr, decode_utf8. destruct (utf8_ok (until_nul (data b)));
    eauto.
Qed.

Lemma getDiagLoop_scan n handle handleType v (w : World DrvState) :
  exists t live,
    w_log (getDiagLoop drv_step n handle handleType v w).2
    = rev t ++ w_log w /\
    scan_trace handle handleType (infoNumber v) (sqlState v)
      (messageBuffer v) (messageLength v) t live /\
    ((getDiagLoop drv_step n handle handleType v w).1 = Diverge <->
     live = true) /\
    (live = true -> length t = n).
Proof.
  revert v w. induction n as [| n IH]; intros v w.
  - exists [], true. simpl. split; [reflexivity |]. split; [apply scan_nil |].
    split; [split |]; auto.
  - destruct (native_frame
                (SQLGetDiagRecW handleType handle (infoNumber v)
                   (cap (messageBuffer v))) w)
      as (r & w1 & Hn & _ & _ & Hlog & _).
    set (c := SQLGetDiagRecW handleType handle (infoNumber v)
                (cap (messageBuffer v))) in *.
    cbn [getDiagLoop]. fold c. rewrite (bind_Ret _ _ _ _ _ Hn).
    assert (Hgo : forall v',
              (forall t live,
                 scan_trace handle handleType (infoNumber v') (sqlState v')
                   (messageBuffer v') (messageLength v') t live ->
                 scan_trace handle handleType (infoNumber v) (sqlState v)
                   (messageBuffer v) (messageLength v) ((c, r) :: t) live) ->
              exists t live,
                w_log (getDiagLoop drv_step n handle handleType v' w1).2
                = rev t ++ w_log w /\
                scan_trace handle handleType (infoNumber v) (sqlState v)
                  (messageBuffer v) (messageLength v) t live /\
                ((getDiagLoop drv_step n handle handleType v' w1).1 = Diverge
                 <-> live = true) /\
                (live = true -> length t = S n)).
    { intros v' Hstep. destruct (IH v' w1) as (t & live & Ht & Hs & Hd & Hl).
      exists ((c, r) :: t), live. split; [| split; [| split]].
      - rewrite Ht, Hlog. simpl. now rewrite <- app_assoc.
      - apply Hstep, Hs.
      - exact Hd.
      - intros H. simpl. now rewrite (Hl H). }
    assert (Hstop : forall (x : Res (list DiagRec) * World DrvState),
              x.2 = w1 -> x.1 <> Diverge ->
              scan_trace handle handleType (infoNumber v) (sqlState v)
                (messageBuffer v) (messageLength v) [(c, r)] false ->
              exists t live,
                w_log x.2 = rev t ++ w_log w /\
                scan_trace handle handleType (infoNumber v) (sqlState v)
                  (messageBuffer v) (messageLength v) t live /\
                (x.1 = Diverge <-> live = true) /\
                (live = true -> length t = S n)).
    { intros x Hx Hnd Hs. exists [(c, r)], false. rewrite Hx.
      split; [rewrite Hlog; reflexivity |]. split; [exact Hs |].
      split; [split; intros H; [contradiction | discriminate] |].
      intros H. discriminate. }
    assert (Haccept :
              rc_of r = SQL_SUCCESS \/
              (rc_of r = SQL_SUCCESS_WITH_INFO /\
               sint 16 (out_int 1 (messageLength v) r)
               <= cap (messageBuffer v)) ->
              exists t live,
                w_log
                  ((let! state := lift (_outputStr (out_buf 0 (sqlState v) r))
                    in
                    let! message :=
                      lift (_outputStr (out_buf 1 (messageBuffer v) r)) in
                    getDiagLoop drv_step n handle handleType
                      (mkDiagVars
                         (info v
                          ++ [(state, message,
                               Z.abs (sint 32 (out_int 0 (nativeError v) r)))])
                         (infoNumber v + 1) (out_buf 0 (sqlState v) r)
                         (sint 32 (out_int 0 (nativeError v) r))
                         (out_buf 1 (messageBuffer v) r)
                         (sint 16 (out_int 1 (messageLength v) r))))
                     w1).2
                = rev t ++ w_log w /\
                scan_trace handle handleType (infoNumber v) (sqlState v)
                  (messageBuffer v) (messageLength v) t live /\
                (((let! state := lift (_outputStr (out_buf 0 (sqlState v) r))
                   in
                  let! message :=
                    lift (_outputStr (out_buf 1 (messageBuffer v) r)) in
                  getDiagLoop drv_step n handle handleType
                    (mkDiagVars
                       (info v
                        ++ [(state, message,
                             Z.abs (sint 32 (out_int 0 (nativeError v) r)))])
                       (infoNumber v + 1) (out_buf 0 (sqlState v) r)
                       (sint 32 (out_int 0 (nativeError v) r))
                       (out_buf 1 (messageBuffer v) r)
                       (sint 16 (out_int 1 (messageLength v) r))))
                   w1).1 = Diverge <-> live = true) /\
                (live = true -> length t = S n)).
    { intros Hrc.
      destruct (_outputStr_cases (out_buf 0 (sqlState v) r))
        as [[state Est] | Est];
        [destruct (_outputStr_cases (out_buf 1 (messageBuffer v) r))
           as [[message Em] | Em] |];
        unfold bind at 1 3, lift at 1 3; rewrite Est;
        try (unfold bind at 1 2, lift at 1 2; rewrite Em).
      - apply Hgo. simpl. intros t live Hs.
        eapply scan_next; eassumption.
      - apply Hstop; [reflexivity | discriminate |].
        apply scan_undecodable; auto.
      - apply Hstop; [reflexivity | discriminate |].
        apply scan_undecodable; auto. }
    destruct (rc_of r =? SQL_SUCCESS_WITH_INFO) eqn:Eswi;
      [apply Z.eqb_eq in Eswi | apply Z.eqb_neq in Eswi]; cbn [andb orb].
    + rewrite cap_out_buf.
      destruct (sint 16 (out_int 1 (messageLength v) r)
                >? cap (messageBuffer v)) eqn:Elen; cbn [andb orb].
      * (* Resize and retry *)
        apply Hgo. simpl. intros t live Hs.
        apply scan_retry; [assumption | lia | exact Hs].
      * (* Accept the record *)
        rewrite orb_true_r. apply Haccept. right. split; [assumption | lia].
    + destruct (rc_of r =? SQL_SUCCESS) eqn:Eok;
        [apply Z.eqb_eq in Eok | apply Z.eqb_neq in Eok]; cbn [andb orb].
      * apply Haccept. left. exact Eok.
      * destruct (rc_of r =? SQL_NO_DATA);
          [| destruct (rc_of r =? SQL_INVALID_HANDLE);
             [| destruct (rc_of r =? SQL_ERROR)]];
          (apply Hstop;
           [reflexivity | discriminate | apply scan_stop; assumption]).
Qed.

(** C10: the calls of [getDiagnosticInfo] and their answers follow the
    protocol [scan_trace], from record 1, a state buffer of 6 bytes and a
    message buffer of [SMALL_BUFFER_SIZE] bytes: an answer of
    success-with-info whose reported length exceeds the buffer is followed by
    a request for the same record with a buffer of the reported length, as
    often as such answers come; an answer that delivers a record is followed
    by a request for the next record, so no record is skipped; the scan ends
    at the first answer that is neither success nor success-with-info, or
    that delivers a state or a message that does not decode.  The scan has
    no outcome within its fuel exactly when the protocol is still going on
    after the last call, and it has then issued as many calls as it had
    fuel. *)
Theorem diagnostic_scan_follows_the_protocol :
  forall handle handleType (w : World DrvState),
  exists t live,
    w_log (getDiagnosticInfo drv_step fuel handle handleType w).2
    = rev t ++ w_log w /\
    scan_trace handle handleType 1 (_createBuffer 6)
      (_createBuffer SMALL_BUFFER_SIZE) 0 t live /\
    ((getDiagnosticInfo drv_step fuel handle handleType w).1 = Diverge <->
     live = true) /\
    (live = true -> length t = fuel).
Proof.
  intros handle handleType w.
  exact (getDiagLoop_scan fuel handle handleType diag_init w).
Qed.

(** ** Closing cursors and connections *)

Lemma preserves_eq {A} (R : relation (World DrvState)) (m : M DrvState A)
    w r w' :
  preserves R m -> m w = (r, w') -> R w w'.
Proof. intros H E. specialize (H w). now rewrite E in H. Qed.

Lemma native_quiet_cursors c (w : World DrvState) r w' :
  native drv_step c w = (r, w') ->
  w_cursors w' = w_cursors w /\ w_conns w' = w_conns w /\
  w_connections w' = w_connections w.
Proof.
  intros H. destruct (native_frame c w) as (r0 & w1 & Hn & _ & _ & _ & H').
  rewrite Hn in H. injection H as <- <-. tauto.
Qed.

Lemma OdbcCursor_close_twice self (w w' : World DrvState) :
  OdbcCursor_close drv_step fuel self w = (Ret tt, w') ->
  OdbcCursor_close drv_step fuel self w' = (Ret tt, w').
Proof.
  unfold OdbcCursor_close. intros H.
  bind_inv H as c w0 Ec. apply the_Ret_inv in Ec as [Hc ->].
  destruct (truthy (hStmt c)) eqn:Ht.
  - bind_inv H as r w1 En. apply native_quiet_cursors in En as (Ec & _).
    bind_inv H as st w2 Es.
    apply (preserves_eq _ _ _ _ _ (status_quiet _ _ _ _ _)) in Es.
    destruct Es as (_ & _ & _ & Ec1 & _).
    bind_inv H as k w3 Ek. apply the_Ret_inv in Ek as [_ ->].
    destruct (list_remove self (cursors k)); [| discriminate].
    injection H as <-.
    match goal with
    | |- bind _ _ ?w' = _ =>
      assert (Hl : w_cursors w' !! self = Some (with_hStmt HNone c))
        by (simpl; now rewrite list_lookup_alter_eq, Ec1, Ec, Hc)
    end.
    now rewrite (bind_Ret _ _ _ _ _ (cursor_of_eq _ _ _ Hl)).
  - injection H as <-. erewrite bind_Ret by (apply cursor_of_eq, Hc).
    now rewrite Ht.
Qed.

#[global] Instance sizes_preorder : PreOrder (@sizes DrvState).
Proof.
  split.
  - intros w. split; reflexivity.
  - intros w1 w2 w3 [H1 H2] [G1 G2]. split; congruence.
Qed.

Lemma quiet_sizes (w w' : World DrvState) : quiet w w' -> sizes w w'.
Proof. intros (_ & _ & H1 & H2 & _). split; congruence. Qed.

Lemma native_sizes c : preserves sizes (native drv_step c).
Proof.
  intros w. destruct (native_frame c w)
    as (r & w1 & Hn & _ & _ & _ & _ & _ & H1 & H2 & _).
  rewrite Hn. simpl. split; congruence.
Qed.

Lemma status_sizes r hEnv hDbc hStmt ignore :
  preserves sizes (status drv_step fuel r hEnv hDbc hStmt ignore).
Proof. eapply preserves_weaken; [apply quiet_sizes | apply status_quiet]. Qed.

Lemma set_conn_sizes c f : preserves sizes (@set_conn DrvState c f).
Proof.
  apply preserves_modify. intros w. split; simpl; [apply length_alter | easy].
Qed.

Lemma set_cursor_sizes c f : preserves sizes (@set_cursor DrvState c f).
Proof.
  apply preserves_modify. intros w. split; simpl; [easy | apply length_alter].
Qed.

Lemma upd_connections_sizes f :
  preserves sizes (modify (@upd_connections DrvState f)).
Proof. apply preserves_modify. intros w. split; reflexivity. Qed.

Ltac sizes_step :=
  first [ apply native_sizes | apply status_sizes | apply set_conn_sizes
        | apply set_cursor_sizes | apply upd_connections_sizes ].

Lemma OdbcCursor_close_sizes self :
  preserves sizes (OdbcCursor_close drv_step fuel self).
Proof. unfold OdbcCursor_close. repeat (preserve; try sizes_step). Qed.

Lemma OdbcConnection_close_sizes self :
  preserves sizes (OdbcConnection_close drv_step fuel self).
Proof.
  unfold OdbcConnection_close.
  repeat (preserve; try sizes_step; try apply OdbcCursor_close_sizes).
Qed.

#[global] Instance same_cursors_preorder : PreOrder (@same_cursors DrvState).
Proof. split; [intros w | intros w1 w2 w3]; unfold same_cursors; congruence. Qed.

Lemma native_same_cursors c : preserves same_cursors (native drv_step c).
Proof.
  intros w. destruct (native_frame c w)
    as (r & w1 & Hn & _ & _ & _ & _ & _ & _ & H2 & _).
  rewrite Hn. exact H2.
Qed.

Lemma status_same_cursors r hEnv hDbc hStmt ignore :
  preserves same_cursors (status drv_step fuel r hEnv hDbc hStmt ignore).
Proof.
  eapply preserves_weaken; [| apply status_quiet].
  intros w w' (_ & _ & _ & H & _). exact H.
Qed.

Lemma set_conn_same_cursors c f :
  preserves same_cursors (@set_conn DrvState c f).
Proof. apply preserves_modify. reflexivity. Qed.

Lemma upd_connections_same_cursors f :
  preserves same_cursors (modify (@upd_connections DrvState f)).
Proof. apply preserves_modify. reflexivity. Qed.

Ltac same_cursors_step :=
  first [ apply native_same_cursors | apply status_same_cursors
        | apply set_conn_same_cursors | apply upd_connections_same_cursors ].

#[global] Instance stay_released_preorder : PreOrder (@stay_released DrvState).
Proof. split; [intros w | intros w1 w2 w3]; unfold stay_released; auto. Qed.

Lemma same_cursors_stay_released (w w' : World DrvState) :
  same_cursors w w' -> stay_released w w'.
Proof. intros H c. unfold released. now rewrite H. Qed.

Lemma release_stay_released c :
  preserves stay_released (@set_cursor DrvState c (with_hStmt HNone)).
Proof.
  apply preserves_modify. intros w c' (x & Hx & Hf). unfold released. simpl.
  destruct (decide (c = c')) as [<- | Hne].
  - rewrite list_lookup_alter_eq, Hx. simpl. eauto.
  - rewrite list_lookup_alter_ne by exact Hne. eauto.
Qed.

Lemma OdbcCursor_close_stay_released self :
  preserves stay_released (OdbcCursor_close drv_step fuel self).
Proof.
  unfold OdbcCursor_close.
  repeat (preserve; try apply release_stay_released;
          try (eapply preserves_weaken;
               [apply same_cursors_stay_released | same_cursors_step])).
Qed.

Lemma OdbcCursor_close_released self (w w' : World DrvState) :
  OdbcCursor_close drv_step fuel self w = (Ret tt, w') -> released self w'.
Proof.
  intros H. pose proof (OdbcCursor_close_twice _ _ _ H) as H2.
  unfold OdbcCursor_close in H2. bind_inv H2 as c w0 Ec.
  apply the_Ret_inv in Ec as [Hc ->]. exists c. split; [exact Hc |].
  destruct (truthy (hStmt c)) eqn:Ht; [| reflexivity].
  exfalso. bind_inv H2 as r w1 En.
  destruct (native_frame (SQLFreeHandle SQL_HANDLE_STMT (addr (hStmt c))) w')
    as (r' & w1' & En' & _ & _ & Hl & _).
  rewrite En in En'. injection En' as <- <-.
  bind_inv H2 as st w2 Es.
  pose proof (preserves_eq _ _ _ _ _ (status_quiet _ _ _ _ _) Es)
    as (_ & _ & _ & _ & _ & _ & t & Ht' & _).
  bind_inv H2 as k w3 Ek. apply the_Ret_inv in Ek as [_ ->].
  destruct (list_remove self (cursors k)); [| discriminate].
  injection H2 as H2. apply (f_equal w_log) in H2. simpl in H2.
  rewrite Ht', Hl in H2. apply (f_equal length) in H2.
  rewrite length_app in H2. simpl in H2. lia.
Qed.

Lemma close_all_released l (w w' : World DrvState) :
  for_each l (OdbcCursor_close drv_step fuel) w = (Ret tt, w') ->
  Forall (fun c => released c w') l.
Proof.
  revert w. induction l as [| c l IH]; intros w H; [constructor |].
  simpl in H. bind_inv H as u w1 Ec. destruct u. constructor.
  - apply (preserves_eq _ _ _ _ _
             (preserves_for_each stay_released _ _
                OdbcCursor_close_stay_released) H).
    eapply OdbcCursor_close_released, Ec.
  - eapply IH, H.
Qed.

Lemma OdbcConnection_close_Ret self (w w' : World DrvState) :
  OdbcConnection_close drv_step fuel self w = (Ret tt, w') ->
  exists k,
    w_conns w !! self = Some k /\
    ((truthy (hDbc k) = false /\ w' = w) \/
     (truthy (hDbc k) = true /\
      (exists k', w_conns w' !! self = Some k' /\ hDbc k' = HNone) /\
      Forall (fun c => released c w') (cursors k))).
Proof.
  intros H. pose proof (preserves_eq _ _ _ _ _
                          (OdbcConnection_close_sizes self) H) as [Hs _].
  unfold OdbcConnection_close in H.
  bind_inv H as k w0 Ek. apply the_Ret_inv in Ek as [Hk ->].
  exists k. split; [exact Hk |].
  destruct (truthy (hDbc k)) eqn:Ht.
  - right. split; [reflexivity |].
    bind_inv H as u1 w1 E1. bind_inv H as r2 w2 E2.
    bind_inv H as st w3 E3. bind_inv H as u4 w4 E4.
    bind_inv H as r5 w5 E5. bind_inv H as u6 w6 E6.
    bind_inv H as w7 w7' E7. injection E7 as <- <-.
    destruct (list_remove self (w_connections w6)); [| discriminate].
    injection H as <-. simpl in *. split.
    + assert (Hlt : (self < length (w_conns w6))%nat).
      { rewrite length_alter in Hs. rewrite Hs.
        apply lookup_lt_is_Some. eauto. }
      apply lookup_lt_is_Some in Hlt as [k6 Hk6].
      exists (with_hDbc HNone k6). rewrite list_lookup_alter_eq, Hk6.
      split; reflexivity.
    + destruct u1. apply close_all_released in E1.
      assert (Hc : w_cursors w6 = w_cursors w1).
      { apply (preserves_eq same_cursors) in E2;
          [| same_cursors_step].
        apply (preserves_eq same_cursors) in E3;
          [| same_cursors_step].
        apply (preserves_eq same_cursors) in E4;
          [| repeat (preserve; try same_cursors_step)].
        apply (preserves_eq same_cursors) in E5;
          [| same_cursors_step].
        apply (preserves_eq same_cursors) in E6;
          [| repeat (preserve; try same_cursors_step)].
        unfold same_cursors in *. congruence. }
      eapply Forall_impl; [exact E1 |]. intros c (x & Hx & Hf).
      exists x. simpl. rewrite Hc. auto.
  - left. injection H as <-. auto.
Qed.

(** C7: closing a connection a second time, after a close that completed,
    returns without an exception and leaves the world as it is: no native call
    is logged and no state changes; and the same holds for closing a
    cursor. *)
Theorem close_twice_is_noop :
  (forall self (w w' : World DrvState),
     OdbcConnection_close drv_step fuel self w = (Ret tt, w') ->
     OdbcConnection_close drv_step fuel self w' = (Ret tt, w')) /\
  (forall self (w w' : World DrvState),
     OdbcCursor_close drv_step fuel self w = (Ret tt, w') ->
     OdbcCursor_close drv_step fuel self w' = (Ret tt, w')).
Proof.
  split; [| apply OdbcCursor_close_twice].
  intros self w w' H.
  apply OdbcConnection_close_Ret in H
    as (k & Hk & [(Ht & ->) | (_ & (k' & Hk' & Hh) & _)]);
    unfold OdbcConnection_close.
  - rewrite (bind_Ret _ _ _ _ _ (conn_of_eq _ _ _ Hk)). now rewrite Ht.
  - rewrite (bind_Ret _ _ _ _ _ (conn_of_eq _ _ _ Hk')). now rewrite Hh.
Qed.

(** ** The calls of a close *)

Lemma main_calls_app t l : main_calls (t ++ l) = main_calls l ++ main_calls t.
Proof.
  unfold main_calls, calls_of. rewrite map_app, rev_app_distr.
  apply filter_app.
Qed.

Lemma main_calls_diag t :
  Forall (fun cr : Call * Response => is_diag cr.1 = true) t ->
  main_calls t = [].
Proof.
  induction 1 as [| [c r] t Hc _ IH]; [reflexivity |].
  change ((c, r) :: t) with ([(c, r)] ++ t). rewrite main_calls_app, IH.
  simpl in *. unfold main_calls, calls_of. simpl.
  rewrite filter_cons_False; [reflexivity |]. rewrite Hc. discriminate.
Qed.

Lemma issued_refl (w : World DrvState) : issued [] w w.
Proof. exists []. split; reflexivity. Qed.

Lemma issued_trans cs1 cs2 (w1 w2 w3 : World DrvState) :
  issued cs1 w1 w2 -> issued cs2 w2 w3 -> issued (cs1 ++ cs2) w1 w3.
Proof.
  intros (t1 & H1 & <-) (t2 & H2 & <-). exists (t2 ++ t1). split.
  - rewrite H2, H1. now rewrite app_assoc.
  - apply main_calls_app.
Qed.

Lemma quiet_issued (w w' : World DrvState) : quiet w w' -> issued [] w w'.
Proof.
  intros (_ & _ & _ & _ & _ & _ & t & Ht & Hd). exists t.
  split; [exact Ht | now apply main_calls_diag].
Qed.

Lemma native_issued c (w : World DrvState) r w1 :
  is_diag c = false -> native drv_step c w = (r, w1) -> issued [c] w w1.
Proof.
  intros Hc H. destruct (native_frame c w) as (r0 & w0 & Hn & _ & _ & Hl & _).
  rewrite Hn in H. injection H as <- <-. exists [(c, r0)].
  split; [exact Hl |]. unfold main_calls, calls_of. simpl.
  rewrite filter_cons_True by exact Hc. reflexivity.
Qed.

(** A native call and the check of its status. *)
Lemma call_then_status c hEnv hDbc hStmt ignore (w : World DrvState) :
  is_diag c = false ->
  exists r w1 x w2,
    native drv_step c w = (Ret r, w1) /\
    status drv_step fuel r hEnv hDbc hStmt ignore w1 = (x, w2) /\
    issued [c] w w2 /\ w_conns w2 = w_conns w /\
    w_connections w2 = w_connections w /\ w_cursors w2 = w_cursors w.
Proof.
  intros Hc.
  destruct (native_frame c w)
    as (r & w1 & Hn & _ & _ & _ & _ & H2 & H3 & H4 & _).
  destruct (status drv_step fuel r hEnv hDbc hStmt ignore w1) as [x w2] eqn:Es.
  pose proof (preserves_eq _ _ _ _ _ (status_quiet _ _ _ _ _) Es) as Hq.
  exists r, w1, x, w2. split; [exact Hn |]. split; [exact Es |].
  split.
  - change [c] with ([c] ++ []).
    eapply issued_trans; [eapply native_issued; eassumption |].
    now apply quiet_issued.
  - destruct Hq as (_ & G2 & G3 & G4 & _). repeat split; congruence.
Qed.


(** ** A setup that fails *)

Variable _convertLineFeeds : pystr -> pystr.
Variable convertType : pystr -> pystr -> pystr.
Variable repr : pyval -> pystr.
Variable fetchone0 : nat -> M DrvState Z.
Variable Cursor_exit : nat -> M DrvState unit.

(** C9: when the handshake of [OdbcConnection.__init__] has returned the
    connection [self] and the setup path then raises [e], the constructor
    closes the connection: when the close completes, the constructor raises
    [e] from the world the close leaves, in which the connection holds no
    handle, nor does any cursor it had when it held one; when the close itself
    raises [e'], the constructor raises [e'] from the world that close
    leaves. *)
Theorem failed_setup_closes_connection :
  forall dbType system username password autoCommit transactionMode
         queryBands kwargs (w w0 w1 : World DrvState) self e,
  handshake drv_step fuel dbType system username password transactionMode
    kwargs w = (Ret self, w0) ->
  setup drv_step fuel _convertLineFeeds convertType repr fetchone0
    Cursor_exit self autoCommit queryBands w0 = (Raise e, w1) ->
  (forall w2,
   OdbcConnection_close drv_step fuel self w1 = (Ret tt, w2) ->
   OdbcConnection_init drv_step fuel _convertLineFeeds convertType repr
     fetchone0 Cursor_exit dbType system username password autoCommit
     transactionMode queryBands kwargs w = (Raise e, w2) /\
   exists k1 k2,
     w_conns w1 !! self = Some k1 /\ w_conns w2 !! self = Some k2 /\
     truthy (hDbc k2) = false /\
     (truthy (hDbc k1) = true ->
      hDbc k2 = HNone /\ Forall (fun c => released c w2) (cursors k1))) /\
  (forall e' w2,
   OdbcConnection_close drv_step fuel self w1 = (Raise e', w2) ->
   OdbcConnection_init drv_step fuel _convertLineFeeds convertType repr
     fetchone0 Cursor_exit dbType system username password autoCommit
     transactionMode queryBands kwargs w = (Raise e', w2)).
Proof.
  intros dbType system username password autoCommit transactionMode
    queryBands kwargs w w0 w1 self e Hh Hs.
  assert (Hinit :
            OdbcConnection_init drv_step fuel _convertLineFeeds convertType
              repr fetchone0 Cursor_exit dbType system username password
              autoCommit transactionMode queryBands kwargs w
            = bind (bind (OdbcConnection_close drv_step fuel self)
                      (fun _ => @raise DrvState unit e))
                (fun _ => ret self) w1).
  { unfold OdbcConnection_init. rewrite (bind_Ret _ _ _ _ _ Hh).
    unfold bind at 1, try_except. rewrite Hs. reflexivity. }
  rewrite Hinit. split.
  - intros w2 Hc. split.
    + rewrite bind_assoc, (bind_Ret _ _ _ _ _ Hc). reflexivity.
    + apply OdbcConnection_close_Ret in Hc
        as (k1 & Hk1 & [(Ht & ->) | (Ht & (k2 & Hk2 & Hn) & Hall)]).
      * exists k1, k1. split; [exact Hk1 |]. split; [exact Hk1 |].
        split; [exact Ht |]. intros Ht'. congruence.
      * exists k1, k2. split; [exact Hk1 |]. split; [exact Hk2 |].
        split; [now rewrite Hn |]. intros _. split; assumption.
  - intros e' w2 Hc. rewrite bind_assoc, (bind_Raise _ _ _ _ _ Hc).
    reflexivity.
Qed.

End Session.

(** ** Rows that do not match the parameter count *)

Section BinderFacts.

Context {DrvState : Type}.
Variable drv_step : DrvState -> Call -> Response * DrvState.
Variable fuel : nat.
Variable repr : pyval -> pystr.

Lemma bind_ext {A B} (m : M DrvState A) (f g : A -> M DrvState B) w :
  (forall a w1, f a w1 = g a w1) -> bind m f w = bind m g w.
Proof.
  intros H. unfold bind. destruct (m w) as [[a | e |] w1]; auto.
Qed.

Lemma for_each_app {A} (l1 l2 : list A) (f : A -> M DrvState unit) w :
  for_each (l1 ++ l2) f w = bind (for_each l1 f) (fun _ => for_each l2 f) w.
Proof.
  revert w. induction l1 as [| x l1 IH]; intros w; simpl.
  - reflexivity.
  - rewrite bind_assoc. apply bind_ext. intros _ w1. apply IH.
Qed.

Lemma checkParamCounts_mismatch pre p post numParams :
  Forall (fun q : list pyval => Z.of_nat (length q) = numParams) pre ->
  Z.of_nat (length p) <> numParams ->
  checkParamCounts (pre ++ p :: post) numParams
  = Raise (PARAMS_MISMATCH (Z.of_nat (length p)) numParams).
Proof.
  intros Hpre Hp. induction Hpre as [| q pre Hq _ IH]; simpl.
  - apply Z.eqb_neq in Hp. now rewrite Hp.
  - apply Z.eqb_eq in Hq. now rewrite Hq.
Qed.

(** C2: let [p] be the first of the rows [params] whose length is not the
    number of parameters [numParams] of the prepared statement.  In per-row
    mode, once the rows before [p] have been bound and executed, the loop
    raises the parameter-count-mismatch [InterfaceError] in the world these
    rows left: no native call is issued for [p].  In columnar mode the run
    does not complete, it issues at most the two calls that set the statement
    attributes of the batch, hence no bind and no execute, and it raises the
    mismatch error as soon as these two calls have passed their checks. *)
Theorem mismatch_fails_before_binding :
  forall (h : pyhandle) (cell : nat) (numParams : Z) (dataTypes : list Z)
         (pre : list (list pyval)) (p : list pyval) (post : list (list pyval)),
  Z.of_nat (length p) <> numParams ->
  Forall (fun q => Z.of_nat (length q) = numParams) pre ->
  let params := pre ++ p :: post in
  let mismatch := PARAMS_MISMATCH (Z.of_nat (length p)) numParams in
  (forall w w1 : World DrvState,
   for_each pre (executeRow drv_step fuel repr h cell numParams dataTypes) w
   = (Ret tt, w1) ->
   for_each params (executeRow drv_step fuel repr h cell numParams dataTypes) w
   = (Raise mismatch, w1)) /\
  (forall self c (w : World DrvState),
   w_cursors w !! self = Some c -> hStmt c = h ->
   let run := _executeManyBatch drv_step fuel repr self params numParams
                dataTypes w in
   run.1 <> Ret tt /\
   (exists cs,
      issued cs w run.2 /\
      cs `prefix_of`
        [SQLSetStmtAttr (addr h) SQL_ATTR_PARAM_BIND_TYPE
           SQL_PARAM_BIND_BY_COLUMN;
         SQLSetStmtAttr (addr h) SQL_ATTR_PARAMSET_SIZE
           (Z.of_nat (length params))]) /\
   (forall w2,
      batch_attributes drv_step fuel h (Z.of_nat (length params)) w = (Ret tt, w2) ->
      run = (Raise mismatch, w2))).
Proof.
  intros h cell numParams dataTypes pre p post Hp Hpre params mismatch.
  split.
  - intros w w1 Hrun. unfold params. rewrite for_each_app.
    rewrite (bind_Ret _ _ _ _ _ Hrun). simpl.
    unfold bind, executeRow. apply Z.eqb_neq in Hp. rewrite Hp. reflexivity.
  - intros self c w Hc Hh run.
    pose proof (checkParamCounts_mismatch pre p post numParams Hpre Hp) as Hm.
    fold params in Hm.
    destruct (call_then_status drv_step fuel
                (SQLSetStmtAttr (addr h) SQL_ATTR_PARAM_BIND_TYPE
                   SQL_PARAM_BIND_BY_COLUMN)
                Default Default (Given h) None w eq_refl)
      as (r1 & w1 & x1 & w2 & En1 & Es1 & Hi1 & _).
    destruct (call_then_status drv_step fuel
                (SQLSetStmtAttr (addr h) SQL_ATTR_PARAMSET_SIZE
                   (Z.of_nat (length params)))
                Default Default (Given h) None w2 eq_refl)
      as (r2 & w3 & x2 & w4 & En2 & Es2 & Hi2 & _).
    pose proof (issued_trans _ _ _ _ _ Hi1 Hi2) as Hi12.
    assert (Hattr : batch_attributes drv_step fuel h (Z.of_nat (length params)) w
                    = match x1 with
                      | Ret _ => match x2 with
                                 | Ret _ => (Ret tt, w4)
                                 | Raise e => (Raise e, w4)
                                 | Diverge => (Diverge, w4)
                                 end
                      | Raise e => (Raise e, w2)
                      | Diverge => (Diverge, w2)
                      end).
    { unfold batch_attributes. rewrite (bind_Ret _ _ _ _ _ En1).
      unfold bind at 1. rewrite Es1. destruct x1; try reflexivity.
      rewrite (bind_Ret _ _ _ _ _ En2). unfold bind at 1. rewrite Es2.
      destruct x2; reflexivity. }
    assert (Hrun : run
                   = match x1 with
                     | Ret _ => match x2 with
                                | Ret _ => (Raise mismatch, w4)
                                | Raise e => (Raise e, w4)
                                | Diverge => (Diverge, w4)
                                end
                     | Raise e => (Raise e, w2)
                     | Diverge => (Diverge, w2)
                     end).
    { unfold run, _executeManyBatch.
      rewrite (bind_Ret _ _ _ _ _ (cursor_of_eq _ _ _ Hc)), Hh.
      rewrite (bind_Ret _ _ _ _ _ En1).
      unfold bind at 1. rewrite Es1. destruct x1; try reflexivity.
      rewrite (bind_Ret _ _ _ _ _ En2). unfold bind at 1. rewrite Es2.
      destruct x2; try reflexivity.
      unfold bind at 1, lift. rewrite Hm. reflexivity. }
    rewrite Hrun. split; [| split].
    + destruct x1; [destruct x2 |..]; simpl; discriminate.
    + destruct x1 as [l1 | e1 |];
        [destruct x2 as [l2 | e2 |] |..]; simpl;
        first [ eexists; split; [exact Hi12 |]; reflexivity
              | eexists; split; [exact Hi1 |]; eexists [_]; reflexivity ].
    + intros w2' Ha. rewrite Hattr in Ha.
      destruct x1; [destruct x2 |..]; try discriminate.
      injection Ha as <-. reflexivity.
Qed.

End BinderFacts.

(** ** Null columns *)

Section RowFacts.

Context {DrvState : Type}.
Variable drv_step : DrvState -> Call -> Response * DrvState.
Variable fuel : nat.


End RowFacts.

(** ** Text columns longer than the buffer *)

Section NativeFacts.
Context {DrvState : Type}.
Variable drv_step : DrvState -> Call -> Response * DrvState.
Variable fuel : nat.

Lemma native_unfold c (w : World DrvState) r s' :
  drv_step (w_drv w) c = (r, s') ->
  native drv_step c w = (Ret r, answered c r s' w).
Proof. intros H. unfold native. now rewrite H. Qed.

Lemma status_success r hEnv hDbc hStmt ignore (w : World DrvState) :
  rc_of r = SQL_SUCCESS ->
  status drv_step fuel r hEnv hDbc hStmt ignore w = (Ret [], w).
Proof. intros H. unfold status, checkStatus. now rewrite H. Qed.

(** One turn of the scan on an answer of success. *)
Lemma getDiagLoop_success n handle handleType v (w : World DrvState) r s' :
  let c := SQLGetDiagRecW handleType handle (infoNumber v)
             (cap (messageBuffer v)) in
  drv_step (w_drv w) c = (r, s') ->
  rc_of r = SQL_SUCCESS ->
  forall state message,
  _outputStr (out_buf 0 (sqlState v) r) = Ret state ->
  _outputStr (out_buf 1 (messageBuffer v) r) = Ret message ->
  getDiagLoop drv_step (S n) handle handleType v w
  = getDiagLoop drv_step n handle handleType
      (mkDiagVars
         (info v ++ [(state, message,
                      Z.abs (sint 32 (out_int 0 (nativeError v) r)))])
         (infoNumber v + 1) (out_buf 0 (sqlState v) r)
         (sint 32 (out_int 0 (nativeError v) r))
         (out_buf 1 (messageBuffer v) r)
         (sint 16 (out_int 1 (messageLength v) r)))
      (answered c r s' w).
Proof.
  intros c Hstep Hrc state message Hst Hmsg. cbn [getDiagLoop]. fold c.
  rewrite (bind_Ret _ _ _ _ _ (native_unfold _ _ _ _ Hstep)), Hrc.
  cbv beta iota zeta. change (SQL_SUCCESS =? SQL_SUCCESS_WITH_INFO) with false.
  change (SQL_SUCCESS =? SQL_SUCCESS) with true. cbn [andb orb].
  unfold bind at 1, lift at 1. rewrite Hst.
  unfold bind at 1, lift at 1. rewrite Hmsg. reflexivity.
Qed.

(** The last turn of the scan, on an answer of no-data. *)
Lemma getDiagLoop_no_data n handle handleType v (w : World DrvState) r s' :
  let c := SQLGetDiagRecW handleType handle (infoNumber v)
             (cap (messageBuffer v)) in
  drv_step (w_drv w) c = (r, s') ->
  rc_of r = SQL_NO_DATA ->
  getDiagLoop drv_step (S n) handle handleType v w
  = (Ret (info v), answered c r s' w).
Proof.
  intros c Hstep Hrc. cbn [getDiagLoop]. fold c.
  rewrite (bind_Ret _ _ _ _ _ (native_unfold _ _ _ _ Hstep)), Hrc.
  reflexivity.
Qed.

End NativeFacts.

Lemma until_nul_app (chunk rest : pystr) :
  Forall (fun c => c <> NUL) chunk ->
  until_nul (chunk ++ NUL :: rest) = chunk.
Proof.
  induction 1 as [| c chunk Hc _ IH]; simpl.
  - reflexivity.
  - unfold is_nul. destruct (Ascii.eqb_spec c NUL) as [E | _];
      [contradiction | now rewrite IH].
Qed.

Lemma utf8_ok_ascii (s : pystr) :
  Forall (fun c => byte_in 0 127 c = true) s -> utf8_ok s = true.
Proof.
  induction 1 as [| c s Hc _ IH]; [reflexivity |].
  cbn [utf8_ok]. now rewrite Hc.
Qed.

Lemma ascii_text_chars (s : pystr) :
  ascii_text s ->
  Forall (fun c => c <> NUL) s /\ Forall (fun c => byte_in 0 127 c = true) s.
Proof.
  intros H. split; (eapply Forall_impl; [exact H |]); intros c Hc.
  - intros ->. discriminate.
  - unfold byte_in in *. apply andb_prop in Hc as [_ Hc].
    rewrite Hc, andb_true_r. apply N.leb_le. lia.
Qed.

Lemma outputStr_poke (chunk : pystr) (b : Buffer) :
  ascii_text chunk ->
  Z.of_nat (length chunk) < cap b ->
  _outputStr (poke (chunk ++ [NUL]) b) = Ret chunk.
Proof.
  intros Hc Hlen. apply ascii_text_chars in Hc as [Hnn Hascii].
  unfold _outputStr, poke. simpl.
  rewrite <- app_assoc. simpl.
  rewrite take_app_ge by lia.
  replace (Z.to_nat (cap b) - length chunk)%nat
    with (S (Z.to_nat (cap b) - length chunk - 1)) by lia.
  simpl. rewrite until_nul_app by exact Hnn.
  unfold decode_utf8. now rewrite utf8_ok_ascii.
Qed.

Section ChunkedFetch.

Variable fuel : nat.

Lemma rowset_diag_1 (s : RowSet) t h b :
  rs_diag s = [truncated] ->
  rowset_step s (SQLGetDiagRecW t h 1 b)
  = (mkResponse SQL_SUCCESS [Some 0; Some 28]
       [SQL_STATE_DATA_TRUNCATED ++ [NUL];
        py "String data, right truncated" ++ [NUL]] [], s).
Proof. intros H. simpl. rewrite H. reflexivity. Qed.

Lemma rowset_diag_2 (s : RowSet) t h b :
  rs_diag s = [truncated] ->
  rowset_step s (SQLGetDiagRecW t h 2 b) = (answer SQL_NO_DATA, s).
Proof. intros H. simpl. rewrite H. reflexivity. Qed.

Lemma rowset_status_truncated r h (w : World RowSet) :
  rs_diag (w_drv w) = [truncated] ->
  rc_of r = SQL_SUCCESS_WITH_INFO ->
  (2 <= fuel)%nat ->
  exists w',
    status rowset_step fuel r Default Default (Given h) None w
    = (Ret [SQL_STATE_DATA_TRUNCATED], w') /\
    w_drv w' = w_drv w /\ w_cursors w' = w_cursors w.
Proof.
  intros Hd Hrc Hf. destruct fuel as [| [| n]]; try lia.
  eexists. split.
  - unfold status, checkStatus. rewrite Hrc.
    change ((SQL_SUCCESS_WITH_INFO =? SQL_SUCCESS)
            || (SQL_SUCCESS_WITH_INFO =? SQL_NO_DATA)) with false.
    cbv iota. unfold diagnosticsOf, getDiagnosticInfo.
    erewrite bind_Ret.
    2: { erewrite getDiagLoop_success;
           [| apply rowset_diag_1, Hd | reflexivity | reflexivity
            | reflexivity].
         erewrite getDiagLoop_no_data;
           [reflexivity | apply rowset_diag_2, Hd | reflexivity]. }
    reflexivity.
  - split; reflexivity.
Qed.

Lemma rowset_getdata_text (s : RowSet) h col b d :
  1 <= col -> 2 <= b ->
  rs_row s !! Z.to_nat (col - 1) = Some (CData d) ->
  rowset_step s (SQLGetData h col SQL_C_WCHAR b)
  = if Z.of_nat (length d) <=? b - 1 then
      (mkResponse SQL_SUCCESS [Some (Z.of_nat (length d))] [d ++ [NUL]] [],
       mkRowSet (rs_rows s) (<[Z.to_nat (col - 1) := CDone]> (rs_row s)) [])
    else
      (mkResponse SQL_SUCCESS_WITH_INFO [Some (Z.of_nat (length d))]
         [take (Z.to_nat (b - 1)) d ++ [NUL]] [],
       mkRowSet (rs_rows s)
         (<[Z.to_nat (col - 1) := CData (drop (Z.to_nat (b - 1)) d)]>
            (rs_row s))
         [truncated]).
Proof.
  intros Hcol Hb Hrow. cbn [rowset_step].
  replace (1 <=? col) with true by (symmetry; now apply Z.leb_le).
  rewrite Hrow. unfold getdata.
  change (SQL_C_WCHAR =? SQL_C_BINARY) with false. cbv iota.
  replace (b - 1 <? 0) with false by (symmetry; apply Z.ltb_ge; lia).
  destruct (Z.of_nat (length d) <=? b - 1); reflexivity.
Qed.

Lemma concat_snoc (acc : list pystr) (x : pystr) :
  concat (acc ++ [x]) = concat acc ++ x.
Proof. rewrite concat_app. simpl. now rewrite app_nil_r. Qed.

Lemma out_int_0 old rc z l bs ws :
  out_int 0 old (mkResponse rc (Some z :: l) bs ws) = z.
Proof. reflexivity. Qed.

Lemma out_buf_0 old rc l s bs ws :
  out_buf 0 old (mkResponse rc l (s :: bs) ws) = poke s old.
Proof. reflexivity. Qed.

Lemma bind_lift {D A B} (x : Res A) (a : A) (f : A -> M D B) w :
  x = Ret a -> bind (lift x) f w = f a w.
Proof. intros ->. reflexivity. Qed.

Lemma getDataText_rest n :
  forall (rest : pystr) (w : World RowSet) h col buf len acc,
  1 <= col -> 2 <= cap buf -> (2 <= fuel)%nat ->
  ascii_text rest ->
  rs_row (w_drv w) !! Z.to_nat (col - 1) = Some (CData rest) ->
  (length rest < n)%nat ->
  exists val buf' len' w',
    getDataText rowset_step fuel n h col SQL_C_WCHAR buf len
      [SQL_STATE_DATA_TRUNCATED] acc w
    = (Ret (val, buf', len'), w') /\
    concat val = concat acc ++ rest.
Proof.
  induction n as [| n IH]; intros rest w h col buf len acc Hcol Hcap Hf Hnn
    Hrow Hn; [lia |].
  cbn [getDataText].
  change (bool_decide (SQL_STATE_DATA_TRUNCATED ∈ [SQL_STATE_DATA_TRUNCATED]))
    with true. cbv iota.
  pose proof (rowset_getdata_text (w_drv w) (addr h) col (cap buf) rest
                Hcol Hcap Hrow) as Hstep.
  destruct (Z.of_nat (length rest) <=? cap buf - 1) eqn:Efit;
    [apply Z.leb_le in Efit | apply Z.leb_gt in Efit].
  - (* the rest fits: the last chunk *)
    rewrite (bind_Ret _ _ _ _ _ (native_unfold _ _ _ _ _ Hstep)).
    rewrite bind_Ret
      with (a := []) (w1 := answered (SQLGetData (addr h) col SQL_C_WCHAR (cap buf))
                       (mkResponse SQL_SUCCESS [Some (Z.of_nat (length rest))]
                          [rest ++ [NUL]] [])
                       (mkRowSet (rs_rows (w_drv w))
                          (<[Z.to_nat (col - 1) := CDone]> (rs_row (w_drv w)))
                          []) w)
      by (apply status_success; reflexivity).
    rewrite out_buf_0.
    rewrite (bind_lift _ rest) by (apply outputStr_poke; [assumption | lia]).
    destruct n;
      (cbn [getDataText];
       change (bool_decide (SQL_STATE_DATA_TRUNCATED ∈ [])) with false;
       cbv iota; eexists _, _, _, _; split; [reflexivity |];
       apply concat_snoc).
  - (* one more chunk, and truncation is reported again *)
    rewrite (bind_Ret _ _ _ _ _ (native_unfold _ _ _ _ _ Hstep)).
    match goal with
    | |- context [bind (status rowset_step fuel ?r _ _ _ _) _ ?w1] =>
      destruct (rowset_status_truncated r h w1 eq_refl eq_refl Hf)
        as (w2 & Hs & Hdrv & _)
    end.
    rewrite (bind_Ret _ _ _ _ _ Hs). rewrite out_buf_0.
    rewrite (bind_lift _ (take (Z.to_nat (cap buf - 1)) rest))
      by (apply outputStr_poke;
          [now apply Forall_take | rewrite length_take; lia]).
    match goal with
    | |- context [getDataText rowset_step fuel n h col SQL_C_WCHAR ?b ?l
                    _ ?a w2] =>
      destruct (IH (drop (Z.to_nat (cap buf - 1)) rest) w2 h col b l a)
        as (val & buf' & len' & w' & Hrun & Hcat)
    end.
    + exact Hcol.
    + unfold poke. simpl. exact Hcap.
    + exact Hf.
    + now apply Forall_drop.
    + rewrite Hdrv. simpl. apply list_lookup_insert_eq.
      apply lookup_lt_is_Some. eauto.
    + rewrite length_drop. lia.
    + exists val, buf', len', w'. split; [exact Hrun |].
      rewrite Hcat, concat_snoc, <- app_assoc. f_equal.
      apply take_drop.
Qed.

Lemma sint_small bits z :
  0 < bits -> - 2 ^ (bits - 1) <= z < 2 ^ (bits - 1) -> sint bits z = z.
Proof.
  intros Hb Hz. unfold sint.
  assert (H2 : 2 ^ bits = 2 * 2 ^ (bits - 1)).
  { rewrite <- Z.pow_succ_r by lia. f_equal. lia. }
  rewrite Z.mod_small by lia. lia.
Qed.


End ChunkedFetch.

(** ** The rows submitted by the two modes of [executemany] *)

Lemma array_set_app (A C : pystr) x c :
  array_set (Z.of_nat (length A)) c (A ++ x :: C) = Ret (A ++ c :: C).
Proof.
  unfold array_set.
  assert (H : (0 <=? Z.of_nat (length A))
              && (Z.of_nat (length A) <? Z.of_nat (length (A ++ x :: C)))
              = true).
  { apply andb_true_intro. split.
    - apply Z.leb_le. lia.
    - apply Z.ltb_lt. rewrite length_app. simpl. lia. }
  rewrite H, Nat2Z.id. f_equal.
  rewrite insert_app_r_alt by lia. now rewrite Nat.sub_diag.
Qed.

Lemma array_write_app (s : pystr) :
  forall (A pad C : pystr),
  length pad = length s ->
  array_write (Z.of_nat (length A)) s (A ++ pad ++ C)
  = Ret (A ++ s ++ C, Z.of_nat (length A + length s)).
Proof.
  induction s as [| c s IH]; intros A pad C Hlen.
  - destruct pad; [| discriminate]. simpl. now rewrite Nat.add_0_r.
  - destruct pad as [| x pad]; [discriminate |]. simpl in Hlen.
    cbn [array_write]. simpl app. rewrite array_set_app.
    replace (Z.of_nat (length A) + 1) with (Z.of_nat (length (A ++ [c])))
      by (rewrite length_app; simpl; lia).
    replace (A ++ c :: pad ++ C) with ((A ++ [c]) ++ pad ++ C)
      by (now rewrite <- app_assoc).
    rewrite IH by lia. rewrite <- app_assoc. simpl.
    do 2 f_equal. rewrite length_app. simpl. lia.
Qed.

Lemma fillColumn_text (p : list (option pystr)) :
  forall (ml k : nat) (A : pystr) (L : list Z),
  length A = (k * ml)%nat -> length L = k ->
  Forall (fun v => match v with
                   | Some s => (length s < ml)%nat
                   | None => (0 < ml)%nat
                   end) p ->
  fillColumn p (Z.of_nat k) SQL_C_WCHAR (Z.of_nat ml)
    (A ++ repeat NUL (length p * ml)) (L ++ repeat 0 (length p))
  = Ret (A ++ concat (map (slot ml) p), L ++ map indicator p).
Proof.
  induction p as [| v p IH]; intros ml k A L HA HL Hp.
  - simpl. reflexivity.
  - apply Forall_cons_1 in Hp as [Hv Hp].
    cbn [fillColumn length]. 
    replace (Z.of_nat k * Z.of_nat ml) with (Z.of_nat (length A)) by lia.
    assert (Hlens : <[Z.to_nat (Z.of_nat k) := indicator v]>
                      (L ++ repeat 0 (S (length p)))
                    = (L ++ [indicator v]) ++ repeat 0 (length p)).
    { rewrite Nat2Z.id, insert_app_r_alt by lia.
      replace (k - length L)%nat with 0%nat by lia.
      simpl. now rewrite <- app_assoc. }
    replace (Z.of_nat k + 1) with (Z.of_nat (S k)) by lia.
    assert (Hnext : forall arr',
              arr' = (A ++ slot ml v) ++ repeat NUL (length p * ml) ->
              fillColumn p (Z.of_nat (S k)) SQL_C_WCHAR (Z.of_nat ml) arr'
                ((L ++ [indicator v]) ++ repeat 0 (length p))
              = Ret (A ++ concat (map (slot ml) (v :: p)),
                     L ++ map indicator (v :: p))).
    { intros arr' ->. rewrite IH.
      - simpl. now rewrite <- !app_assoc.
      - rewrite length_app, HA. destruct v as [s |]; simpl.
        + rewrite length_app, repeat_length. lia.
        + rewrite repeat_length. lia.
      - rewrite length_app. simpl. lia.
      - exact Hp. }
    destruct v as [s |]; cbn [indicator] in Hlens.
    + destruct (ml - length s)%nat as [| d] eqn:Ed; [lia |].
      replace (repeat NUL (S (length p) * ml))
        with (repeat NUL (length s)
              ++ (NUL :: repeat NUL d) ++ repeat NUL (length p * ml)).
      2: { change (NUL :: repeat NUL d) with (repeat NUL (S d)).
           rewrite <- !repeat_app. f_equal. simpl. lia. }
      rewrite array_write_app by apply repeat_length.
      change (SQL_C_WCHAR =? SQL_C_BINARY) with false. cbv iota.
      cbn [app]. rewrite (app_assoc A s), <- length_app, array_set_app, Hlens.
      cbn [indicator] in Hnext.
      apply Hnext. cbn [slot]. rewrite Ed. cbn [repeat].
      now rewrite <- !app_assoc.
    + replace (repeat NUL (S (length p) * ml))
        with (NUL :: repeat NUL (ml - 1) ++ repeat NUL (length p * ml)).
      2: { change (NUL :: repeat NUL (ml - 1) ++ repeat NUL (length p * ml))
             with (repeat NUL (S (ml - 1)) ++ repeat NUL (length p * ml)).
           rewrite <- repeat_app. f_equal. simpl. lia. }
      rewrite array_set_app, Hlens. cbn [indicator] in Hnext.
      apply Hnext. cbn [slot].
      rewrite <- app_assoc. f_equal.
      change (NUL :: repeat NUL (ml - 1) ++ repeat NUL (length p * ml))
        with (repeat NUL (S (ml - 1)) ++ repeat NUL (length p * ml)).
      do 2 f_equal. lia.
Qed.

Lemma until_nul_app_nul (s x : pystr) :
  until_nul (s ++ NUL :: x) = until_nul s.
Proof.
  induction s as [| c s IH]; simpl; [reflexivity |].
  destruct (is_nul c); [reflexivity | now rewrite IH].
Qed.

Lemma until_nul_zeros (s : pystr) k :
  until_nul (s ++ repeat NUL k) = until_nul s.
Proof.
  destruct k; simpl; [now rewrite app_nil_r | apply until_nul_app_nul].
Qed.

Lemma slot_length ml v :
  match v with Some s => (length s <= ml)%nat | None => True end ->
  length (slot ml v) = ml.
Proof.
  destruct v as [s |]; simpl; intros H.
  - rewrite length_app, repeat_length. lia.
  - apply repeat_length.
Qed.

Lemma drop_slots ml (p : list (option pystr)) (tail : pystr) :
  forall r v,
  Forall (fun v => match v with Some s => (length s <= ml)%nat | None => True
                   end) p ->
  p !! r = Some v ->
  exists rest,
    drop (r * ml) (concat (map (slot ml) p) ++ tail) = slot ml v ++ rest.
Proof.
  induction p as [| x p IH]; intros r v Hp Hr; [discriminate |].
  apply Forall_cons_1 in Hp as [Hx Hp]. destruct r as [| r]; simpl in *.
  - injection Hr as <-. rewrite <- app_assoc. eauto.
  - destruct (IH r v Hp Hr) as [rest Hrest]. exists rest.
    rewrite <- Hrest, <- app_assoc.
    rewrite drop_app_ge by (rewrite slot_length by exact Hx; lia).
    rewrite slot_length by exact Hx. f_equal. lia.
Qed.

Lemma store_take k B (l : list (option Binding)) :
  (k <= length l)%nat ->
  take (S k) (store (Z.of_nat k + 1) B l) = take k l ++ [Some B] /\
  length (store (Z.of_nat k + 1) B l) = (length l `max` S k)%nat.
Proof.
  intros Hk. unfold store.
  replace (Z.to_nat (Z.of_nat k + 1 - 1)) with k by lia.
  destruct (k <? length l)%nat eqn:E;
    [apply Nat.ltb_lt in E | apply Nat.ltb_ge in E].
  - split.
    + rewrite take_insert_lt by lia.
      rewrite (take_S_r l k (default None (l !! k))).
      * rewrite insert_app_r_alt by (rewrite length_take; lia).
        rewrite length_take. replace (k - k `min` length l)%nat with 0%nat by lia.
        reflexivity.
      * destruct (lookup_lt_is_Some_2 l k E) as [x Hx]. now rewrite Hx.
    + rewrite length_insert. lia.
  - replace (k - length l)%nat with 0%nat by lia. simpl. split.
    + rewrite take_ge by (rewrite length_app; simpl; lia).
      rewrite take_ge by lia. reflexivity.
    + rewrite length_app. simpl. lia.
Qed.

Section SubmissionFacts.

Context {DrvState : Type}.
Variable drv_step : DrvState -> Call -> Response * DrvState.
Variable fuel : nat.
Variable repr : pyval -> pystr.

#[global] Instance same_sub_preorder : PreOrder (@same_sub DrvState).
Proof. split; [intros w | intros w1 w2 w3]; unfold same_sub; congruence. Qed.

Lemma native_inert c : inert c -> preserves same_sub (native drv_step c).
Proof.
  intros Hc w. unfold native. destruct (drv_step (w_drv w) c) as [r s].
  simpl. apply Hc.
Qed.

Lemma submitted_diag t log :
  Forall (fun cr : Call * Response => is_diag cr.1 = true) t ->
  submitted (t ++ log) = submitted log.
Proof.
  induction 1 as [| [c r] t Hc _ IH]; [reflexivity |].
  simpl. rewrite IH. destruct c; try discriminate. reflexivity.
Qed.

Lemma quiet_same_sub (w w' : World DrvState) : quiet w w' -> same_sub w w'.
Proof.
  intros (_ & _ & _ & _ & _ & _ & t & Ht & Hd). unfold same_sub.
  rewrite Ht. now apply submitted_diag.
Qed.

Lemma status_same_sub r hEnv hDbc hStmt ignore :
  preserves same_sub (status drv_step fuel r hEnv hDbc hStmt ignore).
Proof.
  eapply preserves_weaken; [apply quiet_same_sub | apply status_quiet].
Qed.

Lemma modify_same_sub (f : World DrvState -> World DrvState) :
  (forall w, w_log (f w) = w_log w) -> preserves same_sub (modify f).
Proof. intros H. apply preserves_modify. intros w. unfold same_sub. now rewrite H. Qed.

Lemma new_buf_same_sub b : preserves same_sub (@new_buf DrvState b).
Proof. intros w. reflexivity. Qed.

Lemma new_cell_same_sub : preserves same_sub (@new_cell DrvState).
Proof. intros w. reflexivity. Qed.

End SubmissionFacts.

Section Refinement.

Context {DrvState : Type}.
Variable drv_step : DrvState -> Call -> Response * DrvState.
Variable fuel : nat.
Variable _convertLineFeeds : pystr -> pystr.
Variable convertType : pystr -> pystr -> pystr.
Variable repr : pyval -> pystr.

Lemma native_sub c (w : World DrvState) r w1 :
  native drv_step c w = (r, w1) ->
  submitted (w_log w1) = submit_call c (submitted (w_log w)).
Proof.
  intros H. destruct (native_frame drv_step c w) as (r0 & w0 & Hn & _ & _ & Hl & _).
  rewrite Hn in H. injection H as <- <-. rewrite Hl. reflexivity.
Qed.

Lemma status_sub r hEnv hDbc hStmt ignore (w : World DrvState) x w' :
  status drv_step fuel r hEnv hDbc hStmt ignore w = (x, w') ->
  submitted (w_log w') = submitted (w_log w).
Proof. apply (preserves_eq _ _ _ _ _ (status_same_sub _ _ _ _ _ _ _)). Qed.

Lemma new_param_sub cell bytes b (w : World DrvState) x w' :
  new_param cell bytes b w = (x, w') ->
  w_log w' = w_log w /\
  x = Ret (match b with
           | Some b => Some (length (w_bufs w), b)
           | None => None
           end).
Proof.
  destruct b as [b |]; cbv; intros H; injection H as <- <-; auto.
Qed.

Lemma scanColumn_plain (vals : list pyval) :
  forall pt m acc, Forall plain vals -> 0 <= m ->
  exists m',
    scanColumn repr vals SQL_C_WCHAR pt m acc
    = (SQL_C_WCHAR, pt, m', acc ++ map (_convertParam repr) vals) /\
    m <= m' /\
    Forall (fun v => match v with
                     | Some s => Z.of_nat (length s) <= m'
                     | None => True
                     end) (map (_convertParam repr) vals).
Proof.
  induction vals as [| v vals IH]; intros pt m acc Hv Hm.
  - exists m. simpl. rewrite app_nil_r. split; [reflexivity |]. split; [lia |].
    constructor.
  - apply Forall_cons_1 in Hv as [Hp Hv].
    set (l := match _convertParam repr v with
              | None => 0
              | Some s => Z.of_nat (length s)
              end).
    assert (Hl : 0 <= l) by (unfold l; destruct (_convertParam repr v); lia).
    destruct (IH pt (if l >? m then l else m) (acc ++ [_convertParam repr v]) Hv)
      as (m' & E & Hle & Hall); [destruct (l >? m); lia |].
    exists m'. split; [| split].
    + subst l. destruct v; try contradiction; simpl in E |- *;
        rewrite E, <- app_assoc; reflexivity.
    + destruct (Z.gtb_spec l m); lia.
    + simpl. constructor; [| exact Hall].
      fold l in Hle. unfold l in *. destruct (_convertParam repr v); [| exact I].
      destruct (Z.gtb_spec (Z.of_nat (length l0)) m); lia.
Qed.

Lemma element_single vt (s : pystr) :
  element (mkBinding vt (Some (mkBuffer (Z.of_nat (length s) + 1) s))
             (Z.of_nat (length s) + 1) [SQL_NTS]) 0
  = DbVal vt (until_nul s).
Proof.
  unfold element, contents.
  cbn [b_param b_lengths b_bufferLength b_valueType cap data lookup list_lookup].
  replace (Z.to_nat (Z.of_nat (length s) + 1) - length s)%nat with 1%nat by lia.
  change (SQL_NTS =? SQL_NULL_DATA) with false.
  change (SQL_NTS =? SQL_NTS) with true. cbn [Nat.mul drop repeat].
  rewrite drop_0. now rewrite until_nul_app_nul.
Qed.

Lemma bindParam_sub h cell dataTypes p j pt (w : World DrvState) t w' :
  plain (nth j p PNone) ->
  bindParam drv_step fuel repr h cell dataTypes p j SQL_C_WCHAR pt w
  = (Ret t, w') ->
  t.1 = SQL_C_WCHAR /\
  exists B,
    submitted (w_log w')
    = mkSubmission (store (Z.of_nat j + 1) B (sub_bound (submitted (w_log w))))
        (sub_size (submitted (w_log w))) (sub_rows (submitted (w_log w))) /\
    element B 0 = param_value repr (nth j p PNone).
Proof.
  intros Hp H. unfold bindParam in H.
  bind_inv H as sel w1 Es.
  assert (Hsel : w_log w1 = w_log w /\
                 exists i pt',
                 sel = (match _convertParam repr (nth j p PNone) with
                        | Some s => Some (i, mkBuffer (Z.of_nat (length s) + 1) s)
                        | None => None
                        end, SQL_PARAM_INPUT, SQL_C_WCHAR, pt')).
  { destruct (nth j p PNone); try contradiction;
      cbv beta iota delta [_inputStr create_string_buffer lift bind] in Es;
      match type of Es with
      | (let '(_, _) := new_param ?c ?b ?x ?w in _) = _ =>
        destruct (new_param c b x w) as [y w2] eqn:En;
        apply new_param_sub in En as [Hl ->]
      end;
      cbv beta iota delta [ret] in Es; injection Es as <- <-;
      (split; [exact Hl | eexists (length (w_bufs w)), _; reflexivity]). }
  destruct Hsel as (Hl & i & pt' & ->).
  destruct (nth j p PNone) eqn:Ev; try contradiction;
    cbn [_convertParam] in H; cbv beta iota zeta in H;
    bind_inv H as r w2 En; bind_inv H as st w3 Est;
    cbv beta iota delta [ret] in H; injection H as <- <-;
    apply native_sub in En; apply status_sub in Est;
    rewrite Est, En, Hl; (split; [reflexivity |]); eexists; cbn [submit_call];
    (split; [reflexivity |]); cbn [fmap option_fmap option_map snd param_value].
  - reflexivity.
  - apply element_single.
  - apply element_single.
Qed.

Lemma element_column vt c ml (p : list (option pystr)) r v :
  Forall (fun v => match v with
                   | Some s => (length s < ml)%nat
                   | None => True
                   end) p ->
  p !! r = Some v ->
  element (mkBinding vt (Some (mkBuffer c (concat (map (slot ml) p))))
             (Z.of_nat ml) (map indicator p)) r
  = match v with
    | Some s => DbVal vt (until_nul s)
    | None => DbNull
    end.
Proof.
  intros Hp Hr. unfold element, contents.
  cbn [b_param b_lengths b_bufferLength b_valueType cap data].
  rewrite list_lookup_fmap, Hr. cbn [fmap option_fmap option_map].
  destruct v as [s |]; cbn [indicator]; [| reflexivity].
  change (SQL_NTS =? SQL_NULL_DATA) with false.
  change (SQL_NTS =? SQL_NTS) with true. cbv beta iota.
  rewrite Nat2Z.id.
  destruct (drop_slots ml p
              (repeat NUL (Z.to_nat c - length (concat (map (slot ml) p))))
              r (Some s)) as [rest ->]; [| exact Hr |].
  - eapply Forall_impl; [exact Hp |]. intros [x |]; simpl; lia.
  - rewrite Forall_lookup in Hp. specialize (Hp r (Some s) Hr). simpl in Hp.
    unfold slot. destruct (ml - length s)%nat as [| d] eqn:Ed; [lia |].
    cbn [repeat]. rewrite <- app_assoc. cbn [app].
    now rewrite until_nul_app_nul.
Qed.

Lemma plain_nth (p : list pyval) j : Forall plain p -> plain (nth j p PNone).
Proof.
  intros Hp. revert j. induction Hp; intros [| j]; simpl; auto.
Qed.

Lemma map_seq_lookup {A B} (f : nat -> B) (g : A -> B) (l : list A) :
  forall k,
  (forall i x, l !! i = Some x -> f (k + i)%nat = g x) ->
  map f (seq k (length l)) = map g l.
Proof.
  induction l as [| x l IH]; intros k H; [reflexivity |].
  simpl. f_equal.
  - rewrite <- (H 0%nat x eq_refl). f_equal. lia.
  - apply IH. intros i y Hy. rewrite <- (H (S i) y Hy). f_equal. lia.
Qed.

Lemma map_nth_seq {B} (g : pyval -> B) (l : list pyval) :
  map (fun j => g (nth j l PNone)) (seq 0 (length l)) = map g l.
Proof.
  apply map_seq_lookup. intros i x Hx. simpl. f_equal.
  now apply nth_lookup_Some.
Qed.

(** The bindings of the ordinals [k + 1] to [k + m], made in that order. *)
Lemma bindParams_sub h cell dataTypes p :
  Forall plain p ->
  forall m k pt (w w' : World DrvState),
  bindParams drv_step fuel repr h cell dataTypes p (seq k m) SQL_C_WCHAR pt w
  = (Ret tt, w') ->
  (k <= length (sub_bound (submitted (w_log w))))%nat ->
  sub_size (submitted (w_log w')) = sub_size (submitted (w_log w)) /\
  sub_rows (submitted (w_log w')) = sub_rows (submitted (w_log w)) /\
  length (sub_bound (submitted (w_log w')))
  = (length (sub_bound (submitted (w_log w))) `max` (k + m))%nat /\
  param_row (take (k + m) (sub_bound (submitted (w_log w')))) 0
  = param_row (take k (sub_bound (submitted (w_log w)))) 0
    ++ map (fun j => param_value repr (nth j p PNone)) (seq k m).
Proof.
  intros Hp. induction m as [| m IH]; intros k pt w w' H Hk.
  - cbv in H. injection H as <-. rewrite Nat.add_0_r, app_nil_r.
    repeat split. lia.
  - cbn [seq bindParams] in H. bind_inv H as t w1 Eb.
    destruct (bindParam_sub _ _ _ _ _ _ _ _ _ (plain_nth p k Hp) Eb)
      as (Ht & B & Hs & HB).
    rewrite Ht in H.
    destruct (store_take k B _ Hk) as [Htake Hlen].
    apply IH in H; [| rewrite Hs; cbn [sub_bound]; rewrite Hlen; lia].
    destruct H as (H1 & H2 & H3 & H4).
    rewrite Hs in H1, H2, H3, H4. cbn [sub_bound sub_size sub_rows] in *.
    split; [exact H1 |]. split; [exact H2 |]. split; [rewrite H3, Hlen; lia |].
    rewrite Nat.add_succ_r. cbn [Nat.add] in H4. rewrite H4, Htake.
    unfold param_row. rewrite map_app. cbn [map seq].
    rewrite <- app_assoc. cbn [app]. now rewrite HB.
Qed.

Lemma executeRow_sub h cell numParams dataTypes p (w w' : World DrvState) :
  Forall plain p ->
  executeRow drv_step fuel repr h cell numParams dataTypes p w = (Ret tt, w') ->
  sub_size (submitted (w_log w)) = 1 ->
  (length (sub_bound (submitted (w_log w))) <= length p)%nat ->
  Z.of_nat (length p) = numParams /\
  sub_size (submitted (w_log w')) = 1 /\
  length (sub_bound (submitted (w_log w'))) = length p /\
  sub_rows (submitted (w_log w'))
  = sub_rows (submitted (w_log w)) ++ [map (param_value repr) p].
Proof.
  intros Hp H Hsize Hlen. unfold executeRow in H.
  destruct (Z.eqb_spec (Z.of_nat (length p)) numParams) as [<- | _];
    cbn [negb] in H; [| discriminate].
  rewrite Nat2Z.id in H.
  bind_inv H as u w1 Eb. bind_inv H as r w2 En. bind_inv H as st w3 Est.
  cbv beta iota delta [ret] in H. injection H as <-. destruct u.
  apply bindParams_sub in Eb; [| exact Hp | lia].
  destruct Eb as (H1 & H2 & H3 & H4).
  apply native_sub in En. apply status_sub in Est.
  rewrite Est, En. cbn [submit_call sub_size sub_bound sub_rows].
  rewrite H1, H2, H3, Hsize. cbn [Nat.add] in H3, H4.
  split; [reflexivity |]. split; [reflexivity |]. split; [lia |].
  f_equal. change (Z.to_nat 1) with 1%nat. cbn [seq map]. f_equal.
  rewrite take_ge in H4 by lia. rewrite H4, take_0. cbn [param_row map app].
  apply map_nth_seq.
Qed.

Lemma rows_sub h cell numParams dataTypes (params : list (list pyval)) :
  Forall (Forall plain) params ->
  forall (w w' : World DrvState),
  for_each params (executeRow drv_step fuel repr h cell numParams dataTypes) w
  = (Ret tt, w') ->
  sub_size (submitted (w_log w)) = 1 ->
  (Z.of_nat (length (sub_bound (submitted (w_log w)))) <= numParams
   \/ sub_bound (submitted (w_log w)) = []) ->
  sub_rows (submitted (w_log w'))
  = sub_rows (submitted (w_log w)) ++ map (map (param_value repr)) params.
Proof.
  induction 1 as [| p params Hp _ IH]; intros w w' H Hsize Hlen.
  - cbv in H. injection H as <-. now rewrite app_nil_r.
  - cbn [for_each] in H. bind_inv H as u w1 Er.
    destruct u.
    destruct (executeRow_sub _ _ _ _ _ _ _ Hp Er Hsize) as (Hn & H1 & H2 & H3).
    + unfold executeRow in Er.
      destruct (Z.eqb_spec (Z.of_nat (length p)) numParams) as [E | _];
        cbn [negb] in Er; [| discriminate].
      destruct Hlen as [Hlen | ->]; [lia | simpl; lia].
    + apply IH in H; [| exact H1 | left; lia].
      rewrite H, H3, <- app_assoc. reflexivity.
Qed.

Lemma bindColumn_sub h (params : list (list pyval)) dataTypes j
    (w w' : World DrvState) :
  Forall (Forall plain) params ->
  bindColumn drv_step fuel repr h params dataTypes j w = (Ret tt, w') ->
  exists B,
    submitted (w_log w')
    = mkSubmission (store (Z.of_nat j + 1) B (sub_bound (submitted (w_log w))))
        (sub_size (submitted (w_log w))) (sub_rows (submitted (w_log w))) /\
    forall r row, params !! r = Some row ->
      element B r = param_value repr (nth j row PNone).
Proof.
  intros Hp H. unfold bindColumn in H.
  set (vals := map (fun row => nth j row PNone) params) in *.
  assert (Hv : Forall plain vals).
  { unfold vals. rewrite Forall_fmap. eapply Forall_impl; [exact Hp |].
    intros row Hrow. now apply plain_nth. }
  match type of H with
  | context [scanColumn _ _ _ ?pt _ _] =>
    destruct (scanColumn_plain vals pt 0 [] Hv) as (m & E & Hm & Hall);
      [lia |]
  end.
  rewrite E in H. cbv beta iota zeta in H.
  change (SQL_C_WCHAR =? SQL_C_BINARY) with false in H. cbv beta iota in H.
  cbn [app] in H.
  set (p := map (_convertParam repr) vals) in *.
  assert (Hfill : fillColumn p 0 SQL_C_WCHAR (m + 1)
                    (repeat NUL (Z.to_nat (Z.of_nat (length params) * (m + 1))))
                    (repeat 0 (Z.to_nat (Z.of_nat (length params))))
                  = Ret (concat (map (slot (Z.to_nat (m + 1))) p),
                         map indicator p)).
  { assert (Hlp : length p = length params)
      by (unfold p, vals; now rewrite !length_map).
    pose proof (fillColumn_text p (Z.to_nat (m + 1)) 0 [] []) as F.
    rewrite Hlp in F. cbn [app Z.of_nat] in F.
    rewrite Z2Nat.id in F by lia.
    replace (Z.to_nat (Z.of_nat (length params) * (m + 1)))
      with (length params * Z.to_nat (m + 1))%nat by lia.
    rewrite Nat2Z.id. apply F; [reflexivity | reflexivity |].
    eapply Forall_impl; [exact Hall |]. intros [s |]; simpl; lia. }
  rewrite Hfill in H.
  bind_inv H as filled w0 Ef. cbv beta iota delta [lift] in Ef.
  injection Ef as <- <-. cbn [fst snd] in H.
  bind_inv H as i w1 Ei. bind_inv H as r w2 En. bind_inv H as st w3 Est.
  cbv beta iota delta [ret] in H. injection H as <-.
  apply native_sub in En. apply status_sub in Est.
  rewrite Est, En. assert (Hl : w_log w1 = w_log w)
    by (cbv in Ei; now injection Ei as _ <-).
  rewrite Hl. cbn [submit_call fmap option_fmap option_map snd fst].
  eexists. split; [reflexivity |].
  intros r0 row Hrow.
  replace (m + 1) with (Z.of_nat (Z.to_nat (m + 1))) at 3 by lia.
  rewrite (element_column _ _ _ p r0 (_convertParam repr (nth j row PNone))).
  - destruct (nth j row PNone) eqn:Ev; try reflexivity.
  - eapply Forall_impl; [exact Hall |]. intros [s |]; simpl; lia.
  - unfold p, vals. rewrite !list_lookup_fmap, Hrow. reflexivity.
Qed.

(** The bindings of the ordinals [k + 1] to [k + m] in columnar mode. *)
Lemma columns_sub h (params : list (list pyval)) dataTypes :
  Forall (Forall plain) params ->
  forall m k (w w' : World DrvState),
  for_each (seq k m) (bindColumn drv_step fuel repr h params dataTypes) w
  = (Ret tt, w') ->
  (k <= length (sub_bound (submitted (w_log w))))%nat ->
  sub_size (submitted (w_log w')) = sub_size (submitted (w_log w)) /\
  sub_rows (submitted (w_log w')) = sub_rows (submitted (w_log w)) /\
  length (sub_bound (submitted (w_log w')))
  = (length (sub_bound (submitted (w_log w))) `max` (k + m))%nat /\
  forall r row, params !! r = Some row ->
    param_row (take (k + m) (sub_bound (submitted (w_log w')))) r
    = param_row (take k (sub_bound (submitted (w_log w)))) r
      ++ map (fun j => param_value repr (nth j row PNone)) (seq k m).
Proof.
  intros Hp. induction m as [| m IH]; intros k w w' H Hk.
  - cbv in H. injection H as <-. rewrite Nat.add_0_r.
    split; [reflexivity |]. split; [reflexivity |]. split; [lia |].
    intros r row _. now rewrite app_nil_r.
  - cbn [seq for_each] in H. bind_inv H as u w1 Eb. destruct u.
    destruct (bindColumn_sub _ _ _ _ _ _ Hp Eb) as (B & Hs & HB).
    destruct (store_take k B _ Hk) as [Htake Hlen].
    apply IH in H; [| rewrite Hs; cbn [sub_bound]; rewrite Hlen; lia].
    destruct H as (H1 & H2 & H3 & H4).
    rewrite Hs in H1, H2, H3, H4. cbn [sub_bound sub_size sub_rows] in *.
    split; [exact H1 |]. split; [exact H2 |]. split; [rewrite H3, Hlen; lia |].
    intros r row Hrow. rewrite Nat.add_succ_r. cbn [Nat.add] in H4.
    rewrite (H4 r row Hrow), Htake.
    unfold param_row. rewrite map_app. cbn [map seq].
    rewrite <- app_assoc. cbn [app]. now rewrite (HB r row Hrow).
Qed.

Lemma checkParamCounts_Ret (params : list (list pyval)) numParams :
  checkParamCounts params numParams = Ret tt ->
  Forall (fun p => Z.of_nat (length p) = numParams) params.
Proof.
  induction params as [| p params IH]; simpl; intros H; [constructor |].
  destruct (Z.eqb_spec (Z.of_nat (length p)) numParams) as [E | _];
    cbn [negb] in H; [| discriminate].
  constructor; auto.
Qed.

Lemma _executeManyBatch_sub self (params : list (list pyval)) numParams
    dataTypes (w w' : World DrvState) :
  Forall (Forall plain) params ->
  _executeManyBatch drv_step fuel repr self params numParams dataTypes w
  = (Ret tt, w') ->
  sub_bound (submitted (w_log w)) = [] ->
  sub_rows (submitted (w_log w'))
  = sub_rows (submitted (w_log w)) ++ map (map (param_value repr)) params.
Proof.
  intros Hp H Hb. unfold _executeManyBatch in H.
  bind_inv H as c w0 Ec.
  assert (w0 = w) as ->.
  { unfold cursor_of, the in Ec. destruct (w_cursors w !! self);
      cbv in Ec; congruence. }
  bind_inv H as r1 w1 En1. bind_inv H as st1 w2 Est1.
  bind_inv H as r2 w3 En2. bind_inv H as st2 w4 Est2.
  bind_inv H as u w5 Ek. cbv beta iota delta [lift] in Ek.
  injection Ek as Ek <-. destruct u. apply checkParamCounts_Ret in Ek.
  bind_inv H as u' w6 Ecols.
  bind_inv H as r3 w7 En3. bind_inv H as st3 w8 Est3.
  cbv beta iota delta [ret] in H. injection H as <-. destruct u'.
  apply native_sub in En1, En2, En3. apply status_sub in Est1, Est2, Est3.
  assert (H4 : submitted (w_log w4)
               = mkSubmission [] (Z.of_nat (length params))
                   (sub_rows (submitted (w_log w)))).
  { rewrite Est2, En2, Est1, En1. cbn [submit_call].
    change (SQL_ATTR_PARAM_BIND_TYPE =? SQL_ATTR_PARAMSET_SIZE) with false.
    change (SQL_ATTR_PARAMSET_SIZE =? SQL_ATTR_PARAMSET_SIZE) with true.
    cbv beta iota. now rewrite Hb. }
  apply columns_sub in Ecols; [| exact Hp | lia].
  destruct Ecols as (H1 & H2 & H3 & Hrows).
  rewrite Est3, En3. cbn [submit_call sub_rows].
  rewrite H1, H2, H4 in *. cbn [sub_size sub_rows sub_bound] in *.
  f_equal. rewrite Nat2Z.id. apply map_seq_lookup.
  intros r row Hrow. cbn [Nat.add].
  specialize (Hrows r row Hrow). rewrite take_ge in Hrows by (simpl in H3; lia).
  rewrite Hrows, take_0. cbn [param_row map app].
  rewrite Forall_lookup in Ek. specialize (Ek r row Hrow). cbv beta in Ek.
  rewrite <- Ek, Nat2Z.id. apply map_nth_seq.
Qed.

(** The calls that lead to the choice of the mode reset the bindings and
    leave the rows. *)
Lemma _free_sub self (w w' : World DrvState) :
  _free drv_step fuel self w = (Ret tt, w') ->
  sub_bound (submitted (w_log w')) = [] /\
  sub_size (submitted (w_log w')) = sub_size (submitted (w_log w)) /\
  sub_rows (submitted (w_log w')) = sub_rows (submitted (w_log w)).
Proof.
  intros H. unfold _free in H.
  bind_inv H as c w0 Ec.
  assert (w0 = w) as ->.
  { unfold cursor_of, the in Ec. destruct (w_cursors w !! self);
      cbv in Ec; congruence. }
  bind_inv H as r1 w1 En1. bind_inv H as st1 w2 Est1.
  bind_inv H as r2 w3 En2. bind_inv H as st2 w4 Est2.
  cbv beta iota delta [ret] in H. injection H as <-.
  apply native_sub in En1, En2. apply status_sub in Est1, Est2.
  rewrite Est2, En2, Est1, En1. cbn [submit_call].
  change (SQL_CLOSE =? SQL_RESET_PARAMS) with false.
  change (SQL_RESET_PARAMS =? SQL_RESET_PARAMS) with true.
  cbv beta iota. repeat split.
Qed.

Lemma _setQueryTimeout_same_sub self queryTimeout :
  preserves same_sub (_setQueryTimeout drv_step fuel self queryTimeout).
Proof.
  unfold _setQueryTimeout. preserve.
  - apply native_inert. intros s. reflexivity.
  - apply status_same_sub.
Qed.

Lemma describeParams_same_sub h nums :
  forall dataTypes,
  preserves same_sub (describeParams drv_step fuel h nums dataTypes).
Proof.
  induction nums as [| n nums IH]; intros dataTypes; cbn [describeParams];
    preserve.
  - apply native_inert. intros s. reflexivity.
  - apply status_same_sub.
  - apply IH.
Qed.

Lemma set_cursor_same_sub c f : preserves same_sub (@set_cursor DrvState c f).
Proof. apply modify_same_sub. reflexivity. Qed.

Lemma describeColumns_same_sub self h dbType cols :
  forall v,
  preserves same_sub
    (describeColumns drv_step fuel convertType self h dbType cols v).
Proof.
  induction cols as [| n cols IH]; intros v; cbn [describeColumns]; preserve;
    try apply status_same_sub; try apply set_cursor_same_sub;
    try (apply native_inert; intros s; reflexivity).
  apply IH.
Qed.

Lemma _handleResults_same_sub self :
  preserves same_sub (_handleResults drv_step fuel convertType self).
Proof.
  unfold _handleResults. preserve;
    try apply status_same_sub; try apply set_cursor_same_sub;
    try apply describeColumns_same_sub;
    try (apply native_inert; intros s; reflexivity).
Qed.

Lemma executemany_sub self query (params : list (list pyval)) (batch : bool)
    queryTimeout (w w' : World DrvState) :
  Forall (Forall plain) params ->
  executemany drv_step fuel _convertLineFeeds convertType repr self query
    params batch queryTimeout w = (Ret tt, w') ->
  sub_rows (submitted (w_log w'))
  = sub_rows (submitted (w_log w)) ++ map (map (param_value repr)) params.
Proof.
  intros Hp H. unfold executemany in H.
  bind_inv H as cell w0 Ecell.
  assert (Hl0 : w_log w0 = w_log w)
    by (unfold new_cell in Ecell; now injection Ecell as _ <-).
  bind_inv H as u w1 Efree. destruct u.
  apply _free_sub in Efree as (Hb & _ & Hr). rewrite Hl0 in Hr.
  bind_inv H as c w1' Ec.
  assert (w1' = w1) as ->.
  { unfold cursor_of, the in Ec. destruct (w_cursors w1 !! self);
      cbv in Ec; congruence. }
  bind_inv H as r1 w2 En1. bind_inv H as st1 w3 Est1.
  bind_inv H as u w4 Et. bind_inv H as r2 w5 En2. bind_inv H as st2 w6 Est2.
  bind_inv H as dataTypes w7 Ed. bind_inv H as u' w8 Emode. destruct u'.
  apply native_sub in En1, En2. apply status_sub in Est1, Est2.
  apply (preserves_eq _ _ _ _ _ (_setQueryTimeout_same_sub _ _)) in Et.
  apply (preserves_eq _ _ _ _ _ (describeParams_same_sub _ _ _)) in Ed.
  apply (preserves_eq _ _ _ _ _ (_handleResults_same_sub _)) in H.
  unfold same_sub in Et, Ed, H. cbn [submit_call] in En1, En2.
  assert (H7 : submitted (w_log w7) = submitted (w_log w1))
    by congruence.
  rewrite H, <- Hr. destruct batch.
  - apply _executeManyBatch_sub in Emode; [| exact Hp | now rewrite H7].
    now rewrite Emode, H7.
  - bind_inv Emode as r3 w9 En3. bind_inv Emode as st3 w10 Est3.
    apply native_sub in En3. apply status_sub in Est3.
    cbn [submit_call] in En3.
    change (SQL_ATTR_PARAMSET_SIZE =? SQL_ATTR_PARAMSET_SIZE) with true in En3.
    cbv beta iota in En3. rewrite <- Est3, H7, Hb in En3.
    apply rows_sub in Emode;
      [| exact Hp | now rewrite En3 | right; now rewrite En3].
    now rewrite Emode, En3.
Qed.

End Refinement.

(** ** Completion on a driver that accepts every call *)

Section Returns.

Context {DrvState : Type}.

Lemma returns_ret {A} (P : World DrvState -> Prop) (a : A) Q :
  (forall w, P w -> Q a w) -> returns P (ret a) Q.
Proof. intros H w Hw. exists a, w. split; [reflexivity | auto]. Qed.

Lemma returns_bind {A B} (P : World DrvState -> Prop) (m : M DrvState A)
    (f : A -> M DrvState B) Q R :
  returns P m Q -> (forall a, returns (Q a) (f a) R) ->
  returns P (bind m f) R.
Proof.
  intros Hm Hf w Hw. destruct (Hm w Hw) as (a & w1 & Em & Hq).
  destruct (Hf a w1 Hq) as (b & w2 & Ef & Hr).
  exists b, w2. split; [| exact Hr]. now rewrite (bind_Ret _ _ _ _ _ Em).
Qed.

Lemma returns_weaken {A} (P P' : World DrvState -> Prop) (m : M DrvState A)
    (Q Q' : A -> World DrvState -> Prop) :
  (forall w, P' w -> P w) -> (forall a w, Q a w -> Q' a w) ->
  returns P m Q -> returns P' m Q'.
Proof.
  intros HP HQ Hm w Hw. destruct (Hm w (HP w Hw)) as (a & w' & E & Hq).
  eauto.
Qed.

Lemma returns_lift {A} (P : World DrvState -> Prop) (x : Res A) a :
  x = Ret a -> returns P (lift x) (fun b w => b = a /\ P w).
Proof. intros E w Hw. subst x. exists a, w. repeat split. exact Hw. Qed.

Lemma returns_modify (P Q : World DrvState -> Prop) f :
  (forall w, P w -> Q (f w)) -> returns P (modify f) (fun _ => Q).
Proof. intros H w Hw. exists tt, (f w). split; [reflexivity | auto]. Qed.

Lemma returns_for_each {A} (P : World DrvState -> Prop) (l : list A)
    (f : A -> M DrvState unit) :
  Forall (fun a => returns P (f a) (fun _ => P)) l ->
  returns P (for_each l f) (fun _ => P).
Proof.
  induction 1 as [| x l Hx _ IH]; simpl.
  - apply returns_ret. auto.
  - eapply returns_bind; [exact Hx | intros u; exact IH].
Qed.

End Returns.

Section Completion.

Context {DrvState : Type}.
Variable drv_step : DrvState -> Call -> Response * DrvState.
Variable fuel : nat.
Variable _convertLineFeeds : pystr -> pystr.
Variable convertType : pystr -> pystr -> pystr.
Variable repr : pyval -> pystr.
Variable n : Z.
Hypothesis Haccepts : accepts drv_step n.
Variable self : nat.

Local Abbreviation attached_self := (@attached DrvState self).

(** A native call and the check of its status. *)
Lemma returns_call c hEnv hDbc hStmt ignore {B} (k : Response -> M DrvState B)
    Q :
  (forall s, returns attached_self (k (drv_step s c).1) Q) ->
  returns attached_self
    (let! r := native drv_step c in
     status drv_step fuel r hEnv hDbc hStmt ignore ;;; k r) Q.
Proof.
  intros Hk w Hw. destruct (drv_step (w_drv w) c) as [r s'] eqn:Es.
  rewrite (bind_Ret _ _ _ _ _ (native_unfold _ _ _ _ _ Es)).
  assert (Hr : r = (drv_step (w_drv w) c).1) by now rewrite Es.
  rewrite (bind_Ret _ _ _ _ _
             (status_success drv_step fuel r hEnv hDbc hStmt ignore _
                ltac:(rewrite Hr; apply Haccepts))).
  rewrite Hr. apply Hk. exact Hw.
Qed.

Lemma returns_cursor_of :
  returns attached_self (cursor_of self)
    (fun c w => attached_self w /\ w_cursors w !! self = Some c).
Proof.
  intros w Hw. pose proof Hw as (c & k & Hc & Hk). exists c, w.
  split; [now apply cursor_of_eq | auto].
Qed.

Lemma returns_set_cursor f :
  (forall c, connection (f c) = connection c) ->
  returns attached_self (set_cursor self f) (fun _ => attached_self).
Proof.
  intros Hf. apply returns_modify. intros w (c & k & Hc & Hk).
  exists (f c), k. simpl. split; [| now rewrite Hf].
  rewrite list_lookup_alter_eq, Hc. reflexivity.
Qed.

Lemma returns_with_cursor {B} (k : Cursor -> M DrvState B) Q :
  (forall c, returns attached_self (k c) Q) ->
  returns attached_self (let! c := cursor_of self in k c) Q.
Proof.
  intros Hk. eapply returns_bind; [apply returns_cursor_of |].
  intros c. eapply returns_weaken; [| | apply Hk]; [tauto | auto].
Qed.

Lemma _free_returns :
  returns attached_self (_free drv_step fuel self) (fun _ => attached_self).
Proof.
  unfold _free. apply returns_with_cursor. intros c.
  apply returns_call. intros s. apply returns_call. intros s'.
  apply returns_ret. auto.
Qed.

Lemma _setQueryTimeout_returns queryTimeout :
  returns attached_self (_setQueryTimeout drv_step fuel self queryTimeout)
    (fun _ => attached_self).
Proof.
  unfold _setQueryTimeout. apply returns_with_cursor. intros c.
  apply returns_call. intros s. apply returns_ret. auto.
Qed.

Lemma describeParams_returns h nums :
  forall dataTypes,
  returns attached_self (describeParams drv_step fuel h nums dataTypes)
    (fun _ => attached_self).
Proof.
  induction nums as [| j nums IH]; intros dataTypes; cbn [describeParams].
  - apply returns_ret. auto.
  - cbv zeta. apply returns_call. intros s. apply IH.
Qed.

Lemma returns_new_buf b {B} (k : nat -> M DrvState B) Q :
  (forall i, returns attached_self (k i) Q) ->
  returns attached_self (let! i := new_buf b in k i) Q.
Proof.
  intros Hk. eapply returns_bind; [| exact Hk].
  intros w Hw. eexists _, _. split; [reflexivity | exact Hw].
Qed.

Lemma new_param_returns cell bytes b :
  returns attached_self (new_param cell bytes b) (fun _ => attached_self).
Proof.
  intros w Hw. destruct b as [b |]; eexists _, _; (split; [reflexivity |]);
    exact Hw.
Qed.

Lemma bindParam_returns h cell dataTypes p j vt pt :
  plain (nth j p PNone) ->
  returns attached_self
    (bindParam drv_step fuel repr h cell dataTypes p j vt pt)
    (fun _ => attached_self).
Proof.
  intros Hp. unfold bindParam. cbv zeta.
  eapply returns_bind with (Q := fun _ => attached_self).
  - destruct (nth j p PNone); try contradiction;
      (eapply returns_bind;
       [apply (returns_lift _ _ _ eq_refl) |];
       intros b; eapply returns_bind;
       [eapply returns_weaken; [| | apply new_param_returns];
        [intros w [_ Hw]; exact Hw | intros a w Hw; exact Hw] |];
       intros param; apply returns_ret; auto).
  - intros [[[param io] vt'] pt']. cbv beta iota.
    match goal with
    | |- context [let '(_, _) := ?x in _] => destruct x as [bufSize lengthEntry]
    end.
    apply returns_call. intros s. apply returns_ret. auto.
Qed.

Lemma bindParams_returns h cell dataTypes p nums :
  Forall plain p ->
  forall vt pt,
  returns attached_self
    (bindParams drv_step fuel repr h cell dataTypes p nums vt pt)
    (fun _ => attached_self).
Proof.
  intros Hp. induction nums as [| j nums IH]; intros vt pt;
    cbn [bindParams].
  - apply returns_ret. auto.
  - eapply returns_bind; [apply bindParam_returns, plain_nth, Hp |].
    intros t. apply IH.
Qed.

Lemma executeRow_returns h cell dataTypes p :
  Forall plain p -> Z.of_nat (length p) = n ->
  returns attached_self
    (executeRow drv_step fuel repr h cell n dataTypes p)
    (fun _ => attached_self).
Proof.
  intros Hp Hn. unfold executeRow.
  apply Z.eqb_eq in Hn. rewrite Hn. cbn [negb].
  eapply returns_bind; [now apply bindParams_returns |]. intros u.
  apply returns_call. intros s. apply returns_ret. auto.
Qed.

Lemma checkParamCounts_matching (params : list (list pyval)) :
  Forall (fun p => Z.of_nat (length p) = n) params ->
  checkParamCounts params n = Ret tt.
Proof.
  induction 1 as [| p params Hp _ IH]; simpl; [reflexivity |].
  apply Z.eqb_eq in Hp. now rewrite Hp.
Qed.

Lemma bindColumn_returns h (params : list (list pyval)) dataTypes j :
  Forall (Forall plain) params ->
  returns attached_self
    (bindColumn drv_step fuel repr h params dataTypes j)
    (fun _ => attached_self).
Proof.
  intros Hp. unfold bindColumn.
  set (vals := map (fun row => nth j row PNone) params) in *.
  assert (Hv : Forall plain vals).
  { unfold vals. rewrite Forall_fmap. eapply Forall_impl; [exact Hp |].
    intros row Hrow. now apply plain_nth. }
  match goal with
  | |- context [scanColumn _ _ _ ?pt _ _] =>
    destruct (scanColumn_plain repr vals pt 0 [] Hv) as (m & E & Hm & Hall);
      [lia |]
  end.
  rewrite E. cbv beta iota zeta.
  change (SQL_C_WCHAR =? SQL_C_BINARY) with false. cbv beta iota.
  cbn [app].
  set (p := map (_convertParam repr) vals) in *.
  assert (Hfill : fillColumn p 0 SQL_C_WCHAR (m + 1)
                    (repeat NUL (Z.to_nat (Z.of_nat (length params) * (m + 1))))
                    (repeat 0 (Z.to_nat (Z.of_nat (length params))))
                  = Ret (concat (map (slot (Z.to_nat (m + 1))) p),
                         map indicator p)).
  { assert (Hlp : length p = length params)
      by (unfold p, vals; now rewrite !length_map).
    pose proof (fillColumn_text p (Z.to_nat (m + 1)) 0 [] []) as F.
    rewrite Hlp in F. cbn [app Z.of_nat] in F.
    rewrite Z2Nat.id in F by lia.
    replace (Z.to_nat (Z.of_nat (length params) * (m + 1)))
      with (length params * Z.to_nat (m + 1))%nat by lia.
    rewrite Nat2Z.id. apply F; [reflexivity | reflexivity |].
    eapply Forall_impl; [exact Hall |]. intros [s |]; simpl; lia. }
  eapply returns_bind; [apply (returns_lift _ _ _ Hfill) |].
  intros filled. eapply returns_weaken;
    [intros w [_ Hw]; exact Hw | intros a w Hw; exact Hw |].
  apply returns_new_buf. intros i.
  apply returns_call. intros s. apply returns_ret. auto.
Qed.

Lemma _executeManyBatch_returns (params : list (list pyval)) dataTypes :
  Forall (Forall plain) params ->
  Forall (fun p => Z.of_nat (length p) = n) params ->
  returns attached_self
    (_executeManyBatch drv_step fuel repr self params n dataTypes)
    (fun _ => attached_self).
Proof.
  intros Hp Hn. unfold _executeManyBatch. apply returns_with_cursor.
  intros c. cbv zeta. apply returns_call. intros s1.
  apply returns_call. intros s2.
  eapply returns_bind;
    [apply (returns_lift _ _ _ (checkParamCounts_matching _ Hn)) |].
  intros u. eapply returns_weaken;
    [intros w [_ Hw]; exact Hw | intros a w Hw; exact Hw |].
  eapply returns_bind.
  - apply returns_for_each. apply Forall_forall. intros j _.
    now apply bindColumn_returns.
  - intros u'. apply returns_call. intros s3. apply returns_ret. auto.
Qed.

Lemma _handleResults_returns :
  returns attached_self (_handleResults drv_step fuel convertType self)
    (fun _ => attached_self).
Proof.
  unfold _handleResults.
  eapply returns_bind; [apply returns_set_cursor; reflexivity |]. intros u.
  eapply returns_bind; [apply returns_cursor_of |]. intros c.
  eapply returns_bind
    with (Q := fun _ => attached_self).
  { intros w [Hw Hc]. destruct Hw as (c' & k & Hc' & Hk).
    rewrite Hc in Hc'. injection Hc' as <-. exists k, w.
    split; [now apply conn_of_eq | exists c, k; auto]. }
  intros k. cbv zeta. apply returns_call. intros s1.
  apply returns_call. intros s2.
  eapply returns_bind; [apply returns_set_cursor; reflexivity |]. intros u'.
  destruct Haccepts as (_ & _ & Hcols).
  replace (sint 16 (out_int 0 0 (drv_step s1 (SQLNumResultCols (addr (hStmt c)))).1)
           >? 0) with false
    by (symmetry; rewrite Z.gtb_ltb; apply Z.ltb_ge, Hcols).
  apply returns_ret. auto.
Qed.

Lemma executemany_returns query (params : list (list pyval)) (batch : bool)
    queryTimeout :
  Forall (Forall plain) params ->
  Forall (fun p => Z.of_nat (length p) = n) params ->
  returns attached_self
    (executemany drv_step fuel _convertLineFeeds convertType repr self query
       params batch queryTimeout)
    (fun _ => attached_self).
Proof.
  intros Hp Hn. unfold executemany.
  eapply returns_bind with (Q := fun _ => attached_self).
  { intros w Hw. eexists _, _. split; [reflexivity | exact Hw]. }
  intros cell. eapply returns_bind; [apply _free_returns |]. intros u.
  apply returns_with_cursor. intros c. cbv zeta.
  apply returns_call. intros s1.
  eapply returns_bind; [apply _setQueryTimeout_returns |]. intros u'.
  apply returns_call. intros s2.
  destruct Haccepts as (_ & Hnum & _). rewrite Hnum.
  eapply returns_bind; [apply describeParams_returns |]. intros dataTypes.
  eapply returns_bind; [| intros u''; apply _handleResults_returns].
  destruct batch.
  - now apply _executeManyBatch_returns.
  - apply returns_call. intros s3.
    apply returns_for_each. eapply Forall_impl; [apply Forall_and; split;
      [exact Hp | exact Hn] |].
    intros p [Hplain Hlen]. now apply executeRow_returns.
Qed.

End Completion.

Section Modes.

Context {DrvState : Type}.
Variable drv_step : DrvState -> Call -> Response * DrvState.
Variable fuel : nat.
Variable _convertLineFeeds : pystr -> pystr.
Variable convertType : pystr -> pystr -> pystr.
Variable repr : pyval -> pystr.


End Modes.

(** * Further properties of the module *)

(** ** Rows of a result set *)

Lemma raw_bytes_poke (d : pystr) (b : Buffer) :
  Z.of_nat (length d) <= cap b ->
  raw_bytes (length d) (poke d b) = d.
Proof.
  intros H. unfold raw_bytes, poke. cbn [data cap].
  rewrite take_app_le
    by (rewrite length_take, length_app; lia).
  rewrite take_take, Nat.min_l by lia.
  rewrite take_app_le by lia. now apply take_ge.
Qed.

Ltac status_ok :=
  match goal with
  | |- context [bind (status ?drv ?fuel ?r ?a ?b ?c ?d) _ ?w1] =>
    rewrite (bind_Ret _ _ _ _ _ (status_success drv fuel r a b c d w1 eq_refl))
  end.

Section RowFetch.

Variable fuel : nat.
Variable BINARY : pystr.

Lemma rowset_getdata (s : RowSet) h col t b st :
  1 <= col ->
  rs_row s !! Z.to_nat (col - 1) = Some st ->
  rowset_step s (SQLGetData h col t b)
  = (let '(r, st', dg) := getdata st t b in
     (r, mkRowSet (rs_rows s) (<[Z.to_nat (col - 1) := st']> (rs_row s)) dg)).
Proof.
  intros Hcol Hrow. cbn [rowset_step].
  replace (1 <=? col) with true by (symmetry; now apply Z.leb_le).
  now rewrite Hrow.
Qed.

Lemma sint64_length (d : pystr) :
  Z.of_nat (length d) < 2 ^ 63 -> sint 64 (Z.of_nat (length d)) = Z.of_nat (length d).
Proof.
  intros H. apply sint_small; [lia |].
  change (2 ^ (64 - 1)) with (2 ^ 63). lia.
Qed.

Lemma getColumn_fetch h binaryData col buf len (w : World RowSet) v :
  1 <= col -> 0 <= cap buf ->
  rs_row (w_drv w) !! Z.to_nat (col - 1) = Some (col_state v) ->
  fetchable fuel (cap buf) binaryData v ->
  exists buf' len' w',
    getColumn rowset_step fuel h binaryData col buf len w
    = (Ret (decoded binaryData v, buf', len'), w') /\
    cap buf' = cap buf /\ rs_rows (w_drv w') = rs_rows (w_drv w) /\
    w_cursors w' = w_cursors w /\
    forall i, i <> Z.to_nat (col - 1) ->
      rs_row (w_drv w') !! i = rs_row (w_drv w) !! i.
Proof.
  intros Hcol Hcap Hrow Hv. unfold getColumn.
  pose proof (rowset_getdata (w_drv w) (addr h) col
                (if binaryData then SQL_C_BINARY else SQL_C_WCHAR) (cap buf)
                _ Hcol Hrow) as Hstep.
  assert (Hother : forall st i, i <> Z.to_nat (col - 1) ->
            <[Z.to_nat (col - 1) := st]> (rs_row (w_drv w)) !! i
            = rs_row (w_drv w) !! i)
    by (intros st i Hi; now apply list_lookup_insert_ne).
  destruct v as [d |]; cbn [col_state getdata fetchable decoded] in *.
  - destruct Hv as [Hlen Hv].
    assert (Hnn : negb (Z.of_nat (length d) =? SQL_NULL_DATA) = true).
    { apply negb_true_iff, Z.eqb_neq. unfold SQL_NULL_DATA. lia. }
    destruct binaryData.
    + (* binary data *)
      change (SQL_C_BINARY =? SQL_C_BINARY) with true in Hstep.
      cbv beta iota zeta in Hstep.
      replace (cap buf <? 0) with false in Hstep
        by (symmetry; apply Z.ltb_ge; lia).
      destruct (Z.of_nat (length d) <=? cap buf) eqn:Efit;
        [apply Z.leb_le in Efit | apply Z.leb_gt in Efit].
      * (* that fit the buffer *)
        rewrite (bind_Ret _ _ _ _ _ (native_unfold _ _ _ _ _ Hstep)).
        status_ok.
        rewrite out_int_0, out_buf_0, sint64_length, Hnn by exact Hlen.
        change (bool_decide (SQL_STATE_DATA_TRUNCATED ∈ [])) with false.
        cbv iota.
        replace ((Z.of_nat (length d) <? 0) || (Z.of_nat (length d) >? cap buf))
          with false
          by (symmetry; apply orb_false_intro;
              [apply Z.ltb_ge; lia | rewrite Z.gtb_ltb; apply Z.ltb_ge; lia]).
        rewrite app_nil_r, Nat2Z.id, raw_bytes_poke by exact Efit.
        eexists _, _, _. split; [reflexivity |].
        split; [reflexivity |]. split; [reflexivity |].
        split; [reflexivity |]. intros i Hi. now apply Hother.
      * (* that do not: the rest is fetched by a second call *)
        destruct Hv as [Hv | Hf]; [lia |].
        rewrite (bind_Ret _ _ _ _ _ (native_unfold _ _ _ _ _ Hstep)).
        match goal with
        | |- context [bind (status rowset_step fuel ?r _ _ _ _) _ ?w1] =>
          destruct (rowset_status_truncated fuel r h w1 eq_refl eq_refl Hf)
            as (w2 & Hs & Hdrv & Hcur)
        end.
        rewrite (bind_Ret _ _ _ _ _ Hs).
        rewrite out_int_0, out_buf_0, sint64_length, Hnn by exact Hlen.
        change (bool_decide
                  (SQL_STATE_DATA_TRUNCATED ∈ [SQL_STATE_DATA_TRUNCATED]))
          with true. cbv iota.
        replace (Z.of_nat (length d) <? 0) with false
          by (symmetry; apply Z.ltb_ge; lia).
        cbv iota zeta. rewrite app_nil_r.
        assert (Htake : length (take (Z.to_nat (cap buf)) d)
                        = Z.to_nat (cap buf))
          by (rewrite length_take; lia).
        assert (Hraw : raw_bytes (Z.to_nat (cap buf))
                         (poke (take (Z.to_nat (cap buf)) d) buf)
                       = take (Z.to_nat (cap buf)) d).
        { rewrite <- Htake at 1. apply raw_bytes_poke. lia. }
        rewrite Hraw.
        assert (Hsize : Z.of_nat
                          (length
                             (take (Z.to_nat (cap buf)) d
                              ++ repeat NUL
                                   (Z.to_nat (Z.of_nat (length d))
                                    - Z.to_nat (cap buf)))) - cap buf
                        = Z.of_nat (length (drop (Z.to_nat (cap buf)) d))).
        { rewrite length_app, repeat_length, length_drop, Htake. lia. }
        rewrite Hsize.
        assert (Hrow2 : rs_row (w_drv w2) !! Z.to_nat (col - 1)
                        = Some (CData (drop (Z.to_nat (cap buf)) d))).
        { rewrite Hdrv. simpl. apply list_lookup_insert_eq.
          apply lookup_lt_is_Some. eauto. }
        pose proof (rowset_getdata (w_drv w2) (addr h) col SQL_C_BINARY
                      (Z.of_nat (length (drop (Z.to_nat (cap buf)) d)))
                      _ Hcol Hrow2) as Hstep2.
        cbn [getdata] in Hstep2.
        change (SQL_C_BINARY =? SQL_C_BINARY) with true in Hstep2.
        cbv beta iota zeta in Hstep2.
        replace (Z.of_nat (length (drop (Z.to_nat (cap buf)) d)) <? 0)
          with false in Hstep2 by (symmetry; apply Z.ltb_ge; lia).
        rewrite Z.leb_refl in Hstep2.
        rewrite (bind_Ret _ _ _ _ _ (native_unfold _ _ _ _ _ Hstep2)).
        status_ok. rewrite out_buf_0, app_nil_r.
        unfold poke at 1. cbn [data cap]. rewrite Nat2Z.id.
        rewrite take_app_length, take_drop.
        eexists _, _, _. split; [reflexivity |].
        split; [reflexivity |]. cbn [w_drv w_cursors answered rs_rows rs_row].
        rewrite Hdrv, Hcur. cbn [w_drv w_cursors answered rs_rows rs_row].
        split; [reflexivity |]. split; [reflexivity |].
        intros i Hi. rewrite list_lookup_insert_ne by (intros E; now apply Hi).
        now apply Hother.
    + (* text that fits the buffer *)
      destruct Hv as [Hascii Hfit].
      change (SQL_C_WCHAR =? SQL_C_BINARY) with false in Hstep.
      cbv beta iota zeta in Hstep.
      replace (cap buf - 1 <? 0) with false in Hstep
        by (symmetry; apply Z.ltb_ge; lia).
      replace (Z.of_nat (length d) <=? cap buf - 1) with true in Hstep
        by (symmetry; apply Z.leb_le; lia).
      rewrite (bind_Ret _ _ _ _ _ (native_unfold _ _ _ _ _ Hstep)).
      status_ok.
      rewrite out_int_0, out_buf_0, sint64_length, Hnn by exact Hlen.
      change (bool_decide (SQL_STATE_DATA_TRUNCATED ∈ [])) with false.
      cbv iota.
      rewrite (bind_lift _ d) by (now apply outputStr_poke).
      eexists _, _, _. split; [reflexivity |].
      split; [reflexivity |]. split; [reflexivity |].
      split; [reflexivity |]. intros i Hi. now apply Hother.
  - (* null *)
    rewrite (bind_Ret _ _ _ _ _ (native_unfold _ _ _ _ _ Hstep)).
    status_ok. rewrite out_int_0.
    change (sint 64 SQL_NULL_DATA =? SQL_NULL_DATA) with true. cbn [negb].
    eexists _, _, _. split; [reflexivity |].
    split; [reflexivity |]. split; [reflexivity |].
    split; [reflexivity |]. intros i Hi. now apply Hother.
Qed.

Lemma getColumns_fetch h k (descs : list ColDesc) (row : list (option pystr)) :
  Forall2 (fun d v => fetchable fuel k
                        (bool_decide (d.1.1.1.2 = BINARY)) v) descs row ->
  forall col buf len values (w : World RowSet),
  1 <= col -> 0 <= cap buf -> cap buf = k ->
  (forall i v, row !! i = Some v ->
     rs_row (w_drv w) !! (Z.to_nat (col - 1) + i)%nat = Some (col_state v)) ->
  exists buf' len' w',
    getColumns rowset_step fuel BINARY h descs col buf len values w
    = (Ret (values
            ++ zip_with (fun d v => decoded (bool_decide (d.1.1.1.2 = BINARY)) v)
                 descs row, buf', len'), w') /\
    cap buf' = cap buf /\ rs_rows (w_drv w') = rs_rows (w_drv w) /\
    w_cursors w' = w_cursors w.
Proof.
  intros Hall.
  induction Hall as [| d v descs row Hv _ IH];
    intros col buf len values w Hcol Hcap Hk Hrow.
  - exists buf, len, w. cbn [getColumns zip_with]. rewrite app_nil_r.
    repeat split.
  - cbn [getColumns]. cbv zeta.
    destruct (getColumn_fetch h (bool_decide (d.1.1.1.2 = BINARY)) col buf len
                w v Hcol Hcap) as (buf1 & len1 & w1 & E1 & Hc1 & Hr1 & Hk1 & Hf1).
    { specialize (Hrow 0%nat v eq_refl). now rewrite Nat.add_0_r in Hrow. }
    { now rewrite Hk. }
    rewrite (bind_Ret _ _ _ _ _ E1). cbn [fst snd].
    destruct (IH (col + 1) buf1 len1
                (values ++ [decoded (bool_decide (d.1.1.1.2 = BINARY)) v]) w1)
      as (buf2 & len2 & w2 & E2 & Hc2 & Hr2 & Hk2).
    + lia.
    + lia.
    + congruence.
    + intros i x Hx. rewrite Hf1 by lia.
      replace (Z.to_nat (col + 1 - 1) + i)%nat
        with (Z.to_nat (col - 1) + S i)%nat by lia.
      now apply Hrow.
    + exists buf2, len2, w2. split; [| split; [| split]].
      * rewrite E2. cbn [zip_with]. now rewrite <- app_assoc.
      * congruence.
      * congruence.
      * congruence.
Qed.

(** X1: on a result set whose next row has values that the iterator can fetch,
    [next()] yields exactly that row, column by column, and leaves the
    iterator ready for the rows that follow. *)
Theorem next_yields_the_row :
  forall cursor c it (descs : list ColDesc) (row : list (option pystr)) rest
         (w : World RowSet),
  w_cursors w !! cursor = Some c -> description c = Some descs ->
  iterator c = Some it -> it_done it = false -> 0 <= cap (it_buf it) ->
  rs_rows (w_drv w) = row :: rest ->
  Forall2 (fun d v => fetchable fuel (cap (it_buf it))
                        (bool_decide (d.1.1.1.2 = BINARY)) v) descs row ->
  exists w' c' it',
    next_row rowset_step fuel BINARY cursor w
    = (Ret (Some (zip_with
                    (fun d v => decoded (bool_decide (d.1.1.1.2 = BINARY)) v)
                    descs row)), w') /\
    rs_rows (w_drv w') = rest /\
    w_cursors w' !! cursor = Some c' /\ description c' = Some descs /\
    iterator c' = Some it' /\ it_done it' = false /\
    cap (it_buf it') = cap (it_buf it).
Proof.
  intros cursor c it descs row rest w Hc Hd Hit Hnd Hcap Hrows Hall.
  unfold next_row.
  rewrite (bind_Ret _ _ _ _ _ (cursor_of_eq _ _ _ Hc)), Hit, Hnd.
  assert (Hstep : rowset_step (w_drv w) (SQLFetch (addr (hStmt c)))
                  = (answer SQL_SUCCESS,
                     mkRowSet rest (map col_state row) []))
    by (cbn [rowset_step]; now rewrite Hrows).
  set (w1 := answered (SQLFetch (addr (hStmt c))) (answer SQL_SUCCESS)
               (mkRowSet rest (map col_state row) []) w).
  destruct (getColumns_fetch (hStmt c) _ descs row Hall 1 (it_buf it)
              (it_length it) [] w1 ltac:(lia) Hcap eq_refl)
    as (buf' & len' & w2 & E & Hc2 & Hr2 & Hk2).
  { intros i v Hv. simpl. now rewrite list_lookup_fmap, Hv. }
  assert (Hrun : rowIterator_step rowset_step fuel BINARY cursor it w
                 = (Ret (Some (zip_with
                                 (fun d v =>
                                    decoded (bool_decide (d.1.1.1.2 = BINARY)) v)
                                 descs row),
                         mkRowIter buf' len' false), w2)).
  { unfold rowIterator_step.
    rewrite (bind_Ret _ _ _ _ _ (cursor_of_eq _ _ _ Hc)).
    rewrite (bind_Ret _ _ _ _ _ (native_unfold _ _ _ _ _ Hstep)).
    status_ok. change (rc_of (answer SQL_SUCCESS) =? SQL_NO_DATA) with false.
    cbv iota. fold w1.
    rewrite (bind_Ret _ _ _ _ _ (cursor_of_eq cursor w1 c Hc)), Hd.
    rewrite (bind_Ret _ _ _ _ _ E). reflexivity. }
  unfold bind at 1, try_except. rewrite Hrun. cbn [fst snd].
  eexists _, _, _. split; [reflexivity |].
  cbn [w_drv w_cursors upd_cursors]. split; [exact Hr2 |].
  split; [rewrite list_lookup_alter_eq, Hk2; unfold w1; simpl; rewrite Hc;
          reflexivity |].
  repeat split; assumption.
Qed.

End RowFetch.

Section IteratorFacts.

Context {DrvState : Type}.
Variable drv_step : DrvState -> Call -> Response * DrvState.
Variable fuel : nat.
Variable BINARY : pystr.

Lemma getDataText_same_cursors n :
  forall h col dataType buf len sqlState val,
  preserves same_cursors
    (getDataText drv_step fuel n h col dataType buf len sqlState val).
Proof.
  induction n as [| n IH]; intros h col dataType buf len sqlState val;
    cbn [getDataText]; preserve;
    first [apply native_same_cursors | apply status_same_cursors | apply IH].
Qed.

Lemma getColumn_same_cursors h binaryData col buf len :
  preserves same_cursors (getColumn drv_step fuel h binaryData col buf len).
Proof.
  unfold getColumn. preserve;
    first [apply native_same_cursors | apply status_same_cursors
          | apply getDataText_same_cursors].
Qed.

Lemma getColumns_same_cursors h descs :
  forall col buf len values,
  preserves same_cursors
    (getColumns drv_step fuel BINARY h descs col buf len values).
Proof.
  induction descs as [| d descs IH]; intros col buf len values;
    cbn [getColumns]; preserve;
    first [apply getColumn_same_cursors | apply IH
          | apply native_same_cursors | apply status_same_cursors
          | apply getDataText_same_cursors].
Qed.

Lemma rowIterator_step_same_cursors cursor it :
  preserves same_cursors (rowIterator_step drv_step fuel BINARY cursor it).
Proof.
  unfold rowIterator_step. preserve;
    first [apply native_same_cursors | apply status_same_cursors
          | apply getColumns_same_cursors | apply getDataText_same_cursors].
Qed.

Lemma rowIterator_step_end cursor it (w : World DrvState) it' w' :
  rowIterator_step drv_step fuel BINARY cursor it w = (Ret (None, it'), w') ->
  it_done it' = true.
Proof.
  intros H. unfold rowIterator_step in H.
  bind_inv H as c w1 Ec. bind_inv H as r w2 En. bind_inv H as st w3 Es.
  destruct (rc_of r =? SQL_NO_DATA).
  - cbv beta iota delta [ret] in H. injection H as <- _. reflexivity.
  - bind_inv H as c' w4 Ec'. destruct (description c'); [| discriminate].
    bind_inv H as t w5 Et. cbv beta iota delta [ret] in H. discriminate.
Qed.

(** X2: once [next()] on the row iterator has ended with [StopIteration] or with
    an exception, every later [next()] ends with [StopIteration] at once: no
    native call is issued and nothing changes. *)
Theorem finished_iterator_stays_finished :
  forall cursor c it (w : World DrvState) res w1,
  w_cursors w !! cursor = Some c -> iterator c = Some it ->
  next_row drv_step fuel BINARY cursor w = (res, w1) ->
  res = Ret None \/ (exists e, res = Raise e) ->
  next_row drv_step fuel BINARY cursor w1 = (Ret None, w1).
Proof.
  intros cursor c it w res w1 Hc Hit H Hres.
  unfold next_row in H. rewrite (bind_Ret _ _ _ _ _ (cursor_of_eq _ _ _ Hc)) in H.
  rewrite Hit in H.
  assert (Hdone : forall (w' : World DrvState) c' it',
            w_cursors w' !! cursor = Some c' -> iterator c' = Some it' ->
            it_done it' = true ->
            next_row drv_step fuel BINARY cursor w' = (Ret None, w')).
  { intros w' c' it' Hc' Hit' Hd. unfold next_row.
    rewrite (bind_Ret _ _ _ _ _ (cursor_of_eq _ _ _ Hc')), Hit', Hd.
    reflexivity. }
  destruct (it_done it) eqn:Ed.
  - cbv beta iota delta [ret] in H. injection H as <- <-.
    now apply (Hdone w c it).
  - unfold bind at 1, try_except in H.
    pose proof (rowIterator_step_same_cursors cursor it w) as Hsame.
    destruct (rowIterator_step drv_step fuel BINARY cursor it w)
      as [[t | e |] w0] eqn:Estep; unfold same_cursors in Hsame;
      simpl in Hsame.
    + destruct t as [o it']. cbn [fst snd] in H.
      unfold bind, set_cursor, modify, ret in H. injection H as <- <-.
      destruct Hres as [Hres | [e Hres]]; [| discriminate].
      injection Hres as ->. apply rowIterator_step_end in Estep.
      apply (Hdone _ (with_iterator (Some it') c) it'); [| reflexivity | exact Estep].
      simpl. rewrite list_lookup_alter_eq, Hsame, Hc. reflexivity.
    + unfold bind, set_cursor, modify, raise in H. injection H as <- <-.
      apply (Hdone _ (with_iterator
                        (Some (mkRowIter (it_buf it) (it_length it) true)) c)
               (mkRowIter (it_buf it) (it_length it) true));
        [| reflexivity | reflexivity].
      simpl. rewrite list_lookup_alter_eq, Hsame, Hc. reflexivity.
    + injection H as <- <-. destruct Hres as [Hres | [e Hres]]; discriminate.
Qed.

End IteratorFacts.

(** ** Bookkeeping of the session *)

(** ** Components that a run leaves as they are *)

Section KeptFacts.

Context {DrvState : Type}.
Variable drv_step : DrvState -> Call -> Response * DrvState.
Variable fuel : nat.

#[global] Instance kept_preorder {X} (f : World DrvState -> X) :
  PreOrder (kept f).
Proof. split; [intros w | intros w1 w2 w3]; unfold kept; congruence. Qed.

Lemma modify_kept {X} (f : World DrvState -> X) g :
  (forall w, f (g w) = f w) -> preserves (kept f) (modify g).
Proof. intros H. apply preserves_modify. exact H. Qed.

Lemma native_kept_hEnv c : preserves (kept w_hEnv) (native drv_step c).
Proof.
  intros w. destruct (native_frame drv_step c w)
    as (r & w1 & Hn & _ & _ & _ & H & _).
  rewrite Hn. exact H.
Qed.

Lemma status_kept_hEnv r hEnv hDbc hStmt ignore :
  preserves (kept w_hEnv) (status drv_step fuel r hEnv hDbc hStmt ignore).
Proof.
  eapply preserves_weaken; [| apply status_quiet].
  intros w w' (H & _). exact H.
Qed.

Lemma native_kept_connections c :
  preserves (kept w_connections) (native drv_step c).
Proof.
  intros w. destruct (native_frame drv_step c w)
    as (r & w1 & Hn & _ & _ & _ & _ & H & _).
  rewrite Hn. exact H.
Qed.

Lemma status_kept_connections r hEnv hDbc hStmt ignore :
  preserves (kept w_connections)
    (status drv_step fuel r hEnv hDbc hStmt ignore).
Proof.
  eapply preserves_weaken; [| apply status_quiet].
  intros w w' (_ & H & _). exact H.
Qed.

Lemma initOdbcEnv_kept_connections :
  preserves (kept w_connections) (initOdbcEnv drv_step fuel).
Proof.
  unfold initOdbcEnv.
  repeat (preserve;
          try first [ apply native_kept_connections
                    | apply status_kept_connections
                    | apply modify_kept; reflexivity ]).
Qed.

Lemma initOdbcEnv_set (w : World DrvState) v :
  w_hEnv w = HPtr v -> initOdbcEnv drv_step fuel w = (Ret tt, w).
Proof. intros H. unfold initOdbcEnv, bind, get. now rewrite H. Qed.

Lemma initOdbcEnv_hEnv (w : World DrvState) :
  exists v, w_hEnv (initOdbcEnv drv_step fuel w).2 = HPtr v.
Proof.
  destruct (w_hEnv w) as [| v] eqn:E.
  - unfold initOdbcEnv, bind at 1, get. rewrite E.
    destruct (native_frame drv_step
                (SQLAllocHandle SQL_HANDLE_ENV SQL_NULL_HANDLE) w)
      as (r & w1 & Hn & _).
    rewrite (bind_Ret _ _ _ _ _ Hn). unfold bind at 1, modify.
    eexists.
    match goal with
    | |- w_hEnv (?m ?w0).2 = _ =>
      assert (H : preserves (kept w_hEnv) m)
        by (repeat (preserve;
                    try first [ apply native_kept_hEnv
                              | apply status_kept_hEnv ]));
      rewrite (H w0)
    end.
    reflexivity.
  - exists v. now rewrite (initOdbcEnv_set w v E).
Qed.

(** X3: the environment is initialised once: after a first call of
    [initOdbcEnv], whatever its outcome, [hEnv] is no longer [None], and any
    later call returns at once, without a native call.  So an allocation of
    the environment handle that failed is not tried again, and the ODBC
    version that was not set then is never set. *)
Theorem initOdbcEnv_acts_once (w : World DrvState) :
  let w1 := (initOdbcEnv drv_step fuel w).2 in
  w_hEnv w1 <> HNone /\ initOdbcEnv drv_step fuel w1 = (Ret tt, w1).
Proof.
  intros w1. destruct (initOdbcEnv_hEnv w) as [v Hv]. fold w1 in Hv. split.
  - congruence.
  - exact (initOdbcEnv_set w1 v Hv).
Qed.

(** X4: a connection is entered into the module's list [connections] before
    the handshake, and nothing takes it out when the handshake fails:
    whatever the outcome of the constructor up to the handshake, also an
    exception, the new connection is the last entry of [connections], and
    the entries before it are as they were. *)
Theorem failed_handshake_stays_registered
    dbType system username password transactionMode kwargs
    (w : World DrvState) res w' :
  handshake drv_step fuel dbType system username password transactionMode
    kwargs w = (res, w') ->
  w_connections w' = w_connections w ++ [length (w_conns w)].
Proof.
  intros H. apply (f_equal snd) in H. simpl in H. subst w'.
  unfold handshake, bind at 1, get. unfold bind at 1, modify.
  unfold bind at 1.
  match goal with
  | |- w_connections (?m ?w0).2 = _ =>
    assert (H : preserves (kept w_connections) m)
      by (repeat (preserve;
                  try first [ apply native_kept_connections
                            | apply status_kept_connections
                            | apply initOdbcEnv_kept_connections
                            | apply modify_kept; reflexivity ]));
    rewrite (H w0)
  end.
  reflexivity.
Qed.

End KeptFacts.

Section CursorFacts.

Context {DrvState : Type}.
Variable drv_step : DrvState -> Call -> Response * DrvState.
Variable fuel : nat.

Lemma status_run r hEnv hDbc hStmt ignore (w : World DrvState) :
  exists res w', status drv_step fuel r hEnv hDbc hStmt ignore w = (res, w') /\
                 quiet w w'.
Proof.
  destruct (status drv_step fuel r hEnv hDbc hStmt ignore w) as [res w'] eqn:E.
  exists res, w'. split; [reflexivity |].
  exact (preserves_eq _ _ _ _ _ (status_quiet _ _ _ _ _ _ _) E).
Qed.

Lemma bind_get {A} (f : World DrvState -> M DrvState A) w :
  bind get f w = f w w.
Proof. reflexivity. Qed.

Lemma bind_modify {A} g (f : unit -> M DrvState A) w :
  bind (modify g) f w = f tt (g w).
Proof. reflexivity. Qed.

Lemma bind_set_cursor {A} c g (f : unit -> M DrvState A) w :
  bind (set_cursor c g) f w = f tt (upd_cursors (alter g c) w).
Proof. reflexivity. Qed.

Lemma bind_set_conn {A} c g (f : unit -> M DrvState A) w :
  bind (set_conn c g) f w = f tt (upd_conns (alter g c) w).
Proof. reflexivity. Qed.

Lemma bind_native {A} c (f : Response -> M DrvState A) w :
  bind (native drv_step c) f w
  = f (drv_step (w_drv w) c).1
      (answered c (drv_step (w_drv w) c).1 (drv_step (w_drv w) c).2 w).
Proof.
  unfold bind, native. now destruct (drv_step (w_drv w) c).
Qed.

Lemma bind_conn_of {A} c k (f : Conn -> M DrvState A) w :
  w_conns w !! c = Some k -> bind (conn_of c) f w = f k w.
Proof. intros H. now rewrite (bind_Ret _ _ _ _ _ (conn_of_eq _ _ _ H)). Qed.

Lemma bind_cursor_of {A} c x (f : Cursor -> M DrvState A) w :
  w_cursors w !! c = Some x -> bind (cursor_of c) f w = f x w.
Proof. intros H. now rewrite (bind_Ret _ _ _ _ _ (cursor_of_eq _ _ _ H)). Qed.

(** X5: [connection.cursor()] numbers the new cursor with the connection's
    count, appends it to the connection's cursors and counts it; when the
    creation raises, the connection has neither counted nor listed it. *)
Theorem cursor_is_counted_when_created self k (w : World DrvState) res w' :
  w_conns w !! self = Some k ->
  cursor drv_step fuel self w = (res, w') ->
  match res with
  | Ret c =>
    c = length (w_cursors w) /\
    w_cursors w'
    = w_cursors w
      ++ [mkCursor
            (HPtr (out_int 0 0
                     (drv_step (w_drv w)
                        (SQLAllocHandle SQL_HANDLE_STMT (addr (hDbc k)))).1))
            (cursorCount k) self None (-1) None [] [] None] /\
    w_conns w'
    = <[self := mkConn (hDbc k) (cursorCount k + 1) (sessionno k)
                  (cursors k ++ [c]) (dbType k)]> (w_conns w)
  | Raise e => w_conns w' = w_conns w
  | Diverge => True
  end.
Proof.
  intros Hk H. unfold cursor in H.
  rewrite (bind_conn_of _ _ _ _ Hk) in H.
  unfold OdbcCursor_init in H.
  rewrite bind_assoc, bind_get, bind_assoc, bind_modify, bind_assoc in H.
  rewrite (bind_conn_of self k) in H by exact Hk.
  rewrite bind_assoc, bind_native, bind_assoc, bind_set_cursor, bind_assoc
    in H.
  cbn [w_drv upd_cursors] in H.
  match type of H with
  | context [status drv_step fuel ?r ?a ?b ?c ?d] =>
    match type of H with
    | bind _ _ ?w2 = _ =>
      destruct (status_run r a b c d w2)
        as (rs & w3 & Es & (_ & _ & Hc3 & Hu3 & _))
    end
  end.
  cbn [w_conns w_cursors upd_cursors answered] in Hc3, Hu3.
  destruct rs as [st | e |].
  - rewrite (bind_Ret _ _ _ _ _ Es) in H.
    rewrite bind_assoc, bind_set_conn, bind_ret_l, bind_set_conn in H.
    injection H as <- <-. cbn [w_cursors w_conns upd_conns fst].
    split; [reflexivity |]. split.
    + rewrite Hu3.
      replace (length (w_cursors w)) with (length (w_cursors w) + 0)%nat
        at 1 by lia.
      now rewrite alter_app_r.
    + rewrite Hc3. apply list_eq. intros i.
      destruct (decide (i = self)) as [-> | Hne].
      * rewrite !list_lookup_alter_eq, list_lookup_insert_eq, Hk
          by (apply lookup_lt_is_Some; eauto).
        reflexivity.
      * rewrite !list_lookup_alter_ne, list_lookup_insert_ne by congruence.
        reflexivity.
  - rewrite (bind_Raise _ _ _ _ _ Es) in H. injection H as <- <-. exact Hc3.
  - rewrite (bind_Diverge _ _ _ _ Es) in H. injection H as <- <-. exact I.
Qed.

End CursorFacts.

Section RaiseFacts.

Context {DrvState : Type}.
Context (R : relation (World DrvState)) `{!PreOrder R}.

Lemma on_raise_bind {A B} (m : M DrvState A) (f : A -> M DrvState B) :
  preserves R m -> (forall a, on_raise R (f a)) -> on_raise R (bind m f).
Proof.
  intros Hm Hf w e w' H. unfold bind in H. specialize (Hm w).
  destruct (m w) as [[a | e0 |] w1]; simpl in Hm.
  - etransitivity; [exact Hm | exact (Hf a w1 e w' H)].
  - now injection H as <- <-.
  - discriminate.
Qed.

Lemma on_raise_preserves {A} (m : M DrvState A) :
  preserves R m -> on_raise R m.
Proof. intros Hm w e w' H. specialize (Hm w). now rewrite H in Hm. Qed.

End RaiseFacts.

Section CloseFacts.

Context {DrvState : Type}.
Variable drv_step : DrvState -> Call -> Response * DrvState.
Variable fuel : nat.

Lemma native_kept {X} (f : World DrvState -> X) c :
  (forall r s w, f (answered c r s w) = f w) ->
  preserves (kept f) (native drv_step c).
Proof.
  intros H w. unfold native. destruct (drv_step (w_drv w) c). apply H.
Qed.

Lemma status_kept {X} (f : World DrvState -> X) r hEnv hDbc hStmt ignore :
  (forall w w', quiet w w' -> f w' = f w) ->
  preserves (kept f) (status drv_step fuel r hEnv hDbc hStmt ignore).
Proof.
  intros H. eapply preserves_weaken; [| apply status_quiet]. exact H.
Qed.

(** X6: closing an open cursor either completes, and then the cursor has given
    up its handle and left the list of its connection, or raises, and then
    the cursor and its connection are as they were: the cursor keeps the
    handle and stays listed, also when the driver has freed the handle and
    the error came after that. *)
Theorem cursor_close_completes_or_changes_nothing
    self c (w : World DrvState) res w' :
  w_cursors w !! self = Some c -> truthy (hStmt c) = true ->
  OdbcCursor_close drv_step fuel self w = (res, w') ->
  match res with
  | Ret _ =>
    exists k l,
      w_conns w !! connection c = Some k /\
      list_remove self (cursors k) = Some l /\
      w_conns w' = <[connection c := with_cursors l k]> (w_conns w) /\
      w_cursors w' = <[self := with_hStmt HNone c]> (w_cursors w)
  | Raise _ => w_conns w' = w_conns w /\ w_cursors w' = w_cursors w
  | Diverge => True
  end.
Proof.
  intros Hc Ht H. unfold OdbcCursor_close in H.
  rewrite (bind_cursor_of _ _ _ _ Hc), Ht, bind_native in H.
  match type of H with
  | context [status drv_step fuel ?r ?a ?b ?c ?d] =>
    match type of H with
    | bind _ _ ?w2 = _ =>
      destruct (status_run drv_step fuel r a b c d w2)
        as (rs & w3 & Es & (_ & _ & Hc3 & Hu3 & _))
    end
  end.
  cbn [w_conns w_cursors answered] in Hc3, Hu3.
  destruct rs as [st | e |].
  - rewrite (bind_Ret _ _ _ _ _ Es) in H.
    destruct (w_conns w3 !! connection c) as [k |] eqn:Hk.
    + rewrite (bind_conn_of _ _ _ _ Hk) in H.
      destruct (list_remove self (cursors k)) as [l |] eqn:Hl.
      * rewrite bind_set_conn in H. unfold set_cursor, modify in H.
        injection H as <- <-. exists k, l. rewrite <- Hc3.
        split; [exact Hk |]. split; [exact Hl |].
        cbn [w_conns w_cursors upd_conns upd_cursors]. rewrite Hu3. split.
        -- apply list_eq. intros i.
           destruct (decide (i = connection c)) as [-> | Hne].
           ++ rewrite list_lookup_alter_eq, list_lookup_insert_eq, Hk
                by (apply lookup_lt_is_Some; eauto).
              reflexivity.
           ++ now rewrite list_lookup_alter_ne, list_lookup_insert_ne
                by congruence.
        -- apply list_eq. intros i.
           destruct (decide (i = self)) as [-> | Hne].
           ++ rewrite list_lookup_alter_eq, list_lookup_insert_eq, Hc
                by (apply lookup_lt_is_Some; eauto).
              reflexivity.
           ++ now rewrite list_lookup_alter_ne, list_lookup_insert_ne
                by congruence.
      * injection H as <- <-. split; assumption.
    + unfold bind, conn_of in H. rewrite Hk in H. injection H as <- <-.
      split; assumption.
  - rewrite (bind_Raise _ _ _ _ _ Es) in H. injection H as <- <-.
    split; assumption.
  - rewrite (bind_Diverge _ _ _ _ Es) in H. injection H as <- <-. exact I.
Qed.

Lemma ret_bind_kept {A B} (R : relation (World DrvState))
    (m : M DrvState A) (f : A -> M DrvState B) w b w' :
  preserves R m -> bind m f w = (Ret b, w') ->
  exists a w1, R w w1 /\ f a w1 = (Ret b, w').
Proof.
  intros Hm H. bind_inv H as a w1 E. exists a, w1. split; [| exact H].
  exact (preserves_eq _ _ _ _ _ Hm E).
Qed.

Lemma quiet_registry (w w' : World DrvState) :
  quiet w w' -> registry w' = registry w.
Proof. intros (_ & H1 & H2 & _). unfold registry. congruence. Qed.

Lemma set_conn_registry c l :
  preserves (kept registry) (@set_conn DrvState c (with_cursors l)).
Proof.
  apply modify_kept. intros w. unfold registry. simpl. f_equal.
  apply list_eq. intros i. rewrite !list_lookup_fmap.
  destruct (decide (i = c)) as [-> | Hne].
  - rewrite list_lookup_alter_eq. now destruct (w_conns w !! c).
  - now rewrite list_lookup_alter_ne by congruence.
Qed.

Ltac registry_step :=
  first [ apply native_kept; reflexivity
        | apply status_kept; exact quiet_registry
        | apply set_conn_registry
        | apply modify_kept; reflexivity ].

Lemma OdbcCursor_close_registry self :
  preserves (kept registry) (OdbcCursor_close drv_step fuel self).
Proof. unfold OdbcCursor_close. repeat (preserve; try registry_step). Qed.

Lemma close_tail_Ret self (w : World DrvState) u w' :
  (let! w := get in
   match list_remove self (w_connections w) with
   | Some l =>
     modify (upd_connections (fun _ => l)) ;;;
     set_conn self (with_hDbc HNone)
   | None => raise ValueError
   end) w = (Ret u, w') ->
  exists l, list_remove self (w_connections w) = Some l /\
            w' = upd_conns (alter (with_hDbc HNone) self)
                   (upd_connections (fun _ => l) w).
Proof.
  rewrite bind_get. destruct (list_remove self (w_connections w)) as [l |].
  - rewrite bind_modify. unfold set_conn, modify. intros H.
    injection H as _ <-. eauto.
  - discriminate.
Qed.

(** X7: a close of a connection that raises leaves the connection registered
    and with its handle: [connections] and the handles of all connection
    objects are as before the call, whichever step raised (a cursor's close,
    the disconnect, the rollback, the release of the handle), so that the
    exit hook, or the caller, closes it once more. *)
Theorem failed_close_keeps_the_connection self (w : World DrvState) e w' :
  OdbcConnection_close drv_step fuel self w = (Raise e, w') ->
  w_connections w' = w_connections w /\
  map hDbc (w_conns w') = map hDbc (w_conns w).
Proof.
  intros H.
  assert (Hr : on_raise (kept registry)
                 (OdbcConnection_close drv_step fuel self)).
  { unfold OdbcConnection_close.
    apply on_raise_bind; [exact _ | preserve |]. intros k.
    destruct (truthy (hDbc k)); [| apply on_raise_preserves; preserve].
    apply on_raise_bind;
      [exact _ | repeat (preserve; try registry_step) |]. intros _.
    apply on_raise_bind; [exact _ | registry_step |]. intros r.
    apply on_raise_bind; [exact _ | registry_step |]. intros st.
    apply on_raise_bind;
      [exact _ | repeat (preserve; try registry_step) |]. intros _.
    apply on_raise_bind; [exact _ | registry_step |]. intros r'.
    apply on_raise_bind;
      [exact _ | repeat (preserve; try registry_step) |]. intros _.
    intros w0 e0 w0' H0. rewrite bind_get in H0.
    destruct (list_remove self (w_connections w0)).
    - rewrite bind_modify in H0. discriminate.
    - injection H0 as _ <-. reflexivity. }
  specialize (Hr w e w' H). unfold kept, registry in Hr.
  injection Hr as H1 H2. split; assumption.
Qed.

Lemma OdbcConnection_close_effect self (w w' : World DrvState) :
  OdbcConnection_close drv_step fuel self w = (Ret tt, w') ->
  if closed w self then w' = w
  else
    (exists l, list_remove self (w_connections w) = Some l /\
               w_connections w' = l) /\
    map hDbc (w_conns w') = <[self := HNone]> (map hDbc (w_conns w)).
Proof.
  intros H. unfold OdbcConnection_close in H.
  bind_inv H as k w0 Ek. apply the_Ret_inv in Ek as [Hk ->].
  unfold closed. rewrite Hk. destruct (truthy (hDbc k)); simpl.
  - apply (ret_bind_kept (kept registry)) in H
      as (u1 & w1 & R1 & H);
      [| repeat (preserve; try registry_step)].
    apply (ret_bind_kept (kept registry)) in H
      as (r2 & w2 & R2 & H); [| registry_step].
    apply (ret_bind_kept (kept registry)) in H
      as (st & w3 & R3 & H); [| registry_step].
    apply (ret_bind_kept (kept registry)) in H
      as (u4 & w4 & R4 & H); [| repeat (preserve; try registry_step)].
    apply (ret_bind_kept (kept registry)) in H
      as (r5 & w5 & R5 & H); [| registry_step].
    apply (ret_bind_kept (kept registry)) in H
      as (u6 & w6 & R6 & H); [| repeat (preserve; try registry_step)].
    assert (R : registry w6 = registry w)
      by (unfold kept in *; congruence).
    unfold registry in R. injection R as Rc Rh.
    apply close_tail_Ret in H as (l & Hl & ->). rewrite Rc in Hl.
    split; [exists l; split; [exact Hl | reflexivity] |].
    cbn [w_conns upd_conns upd_connections]. rewrite <- Rh.
    apply list_eq. intros i. rewrite list_lookup_fmap.
    destruct (decide (i = self)) as [-> | Hne].
    + rewrite list_lookup_alter_eq.
      assert (Hlt : (self < length (map hDbc (w_conns w6)))%nat).
      { rewrite Rh, length_map. apply lookup_lt_is_Some. eauto. }
      rewrite list_lookup_insert_eq by exact Hlt.
      rewrite length_map in Hlt. apply lookup_lt_is_Some in Hlt as [k6 ->].
      reflexivity.
    + rewrite list_lookup_alter_ne, list_lookup_insert_ne by congruence.
      now rewrite list_lookup_fmap.
  - now injection H as <-.
Qed.

Lemma list_remove_app (c : nat) (pre l : list nat) :
  c ∉ pre -> list_remove c (pre ++ c :: l) = Some (pre ++ l).
Proof.
  induction pre as [| y pre IH]; intros Hn; simpl.
  - now rewrite Nat.eqb_refl.
  - apply not_elem_of_cons in Hn as [Hy Hn].
    destruct (Nat.eqb_spec c y) as [-> | _]; [congruence |].
    now rewrite IH.
Qed.

Lemma closed_handles (w w' : World DrvState) c :
  map hDbc (w_conns w') !! c = map hDbc (w_conns w) !! c ->
  closed w' c = closed w c.
Proof.
  unfold closed. rewrite !list_lookup_fmap.
  destruct (w_conns w' !! c), (w_conns w !! c); simpl; congruence.
Qed.

Lemma closed_after_close self (w w' : World DrvState) c :
  OdbcConnection_close drv_step fuel self w = (Ret tt, w') ->
  closed w' c = if decide (c = self) then true else closed w c.
Proof.
  intros H. pose proof (OdbcConnection_close_effect _ _ _ H) as He.
  apply OdbcConnection_close_Ret in H as (k & Hk & _).
  destruct (closed w self) eqn:Hs.
  - subst w'. destruct (decide (c = self)); congruence.
  - destruct He as (_ & Hh). destruct (decide (c = self)) as [-> | Hne].
    + unfold closed. apply (f_equal (fun l => l !! self)) in Hh.
      rewrite list_lookup_insert_eq, list_lookup_fmap in Hh
        by (rewrite length_map; apply lookup_lt_is_Some; eauto).
      destruct (w_conns w' !! self) as [k' |]; [| reflexivity].
      simpl in Hh. injection Hh as ->. reflexivity.
    + apply closed_handles. rewrite Hh.
      now rewrite list_lookup_insert_ne by congruence.
Qed.

Lemma close_all_closed (l : list nat) :
  forall (w w' : World DrvState) c,
  for_each l (OdbcConnection_close drv_step fuel) w = (Ret tt, w') ->
  closed w c = true \/ c ∈ l -> closed w' c = true.
Proof.
  induction l as [| x l IH]; intros w w' c H Hc.
  - injection H as <-. destruct Hc as [Hc | Hc]; [exact Hc |].
    now apply elem_of_nil in Hc.
  - simpl in H. bind_inv H as u w1 E. destruct u.
    apply (IH w1 w' c H). rewrite (closed_after_close _ _ _ c E).
    destruct (decide (c = x)) as [-> | Hne]; [now left |].
    destruct Hc as [Hc | Hc]; [now left |].
    apply elem_of_cons in Hc as [-> | Hc]; [congruence | now right].
Qed.

Lemma close_all_connections (l : list nat) :
  forall pre (w w' : World DrvState),
  NoDup (pre ++ l) -> w_connections w = pre ++ l ->
  for_each l (OdbcConnection_close drv_step fuel) w = (Ret tt, w') ->
  w_connections w' = pre ++ List.filter (closed w) l.
Proof.
  induction l as [| c l IH]; intros pre w w' Hnd Hw H.
  - injection H as <-. exact Hw.
  - simpl in H. bind_inv H as u w1 E. destruct u.
    pose proof (OdbcConnection_close_effect _ _ _ E) as He.
    cbn [List.filter]. destruct (closed w c) eqn:Hc.
    + subst w1. rewrite (IH (pre ++ [c]) w w'), <- app_assoc;
        [reflexivity | | | exact H]; now rewrite <- app_assoc.
    + destruct He as ((l0 & Hl0 & Hw1) & Hh).
      apply NoDup_app in Hnd as (Hpre & Hd & Hcl).
      apply NoDup_cons in Hcl as [Hcn Hl].
      rewrite Hw, list_remove_app in Hl0
        by (intros Hin; apply (Hd c Hin); now left).
      injection Hl0 as <-.
      rewrite (IH pre w1 w'); [| | exact Hw1 | exact H].
      * f_equal. apply filter_ext_in. intros x Hx.
        apply closed_handles. rewrite Hh.
        apply list_lookup_insert_ne. intros <-.
        apply Hcn, list_elem_of_In, Hx.
      * apply NoDup_app. split; [exact Hpre |]. split; [| exact Hl].
        intros x Hx Hxl. apply (Hd x Hx). now right.
Qed.

(** X8: the exit hook that runs to its end has closed every connection that
    was open: [connections] then holds only those whose handle was null
    already, in their order (a connection whose handle was never allocated
    is never taken out), and every connection that was listed is closed. *)
Theorem cleanupConnections_closes_the_open_ones (w : World DrvState) w' :
  NoDup (w_connections w) ->
  cleanupConnections drv_step fuel w = (Ret tt, w') ->
  w_connections w' = List.filter (closed w) (w_connections w) /\
  Forall (fun c => closed w' c = true) (w_connections w).
Proof.
  intros Hnd H. unfold cleanupConnections in H. rewrite bind_get in H.
  assert (H' : for_each (w_connections w)
                 (OdbcConnection_close drv_step fuel) w = (Ret tt, w'))
    by (destruct (w_connections w); exact H).
  split.
  - exact (close_all_connections _ [] w w' Hnd eq_refl H').
  - apply Forall_forall. intros c Hc.
    apply (close_all_closed _ w w' c H'). now right.
Qed.

End CloseFacts.

(** ** Results of a statement *)

Section ResultFacts.

Context {DrvState : Type}.
Variable drv_step : DrvState -> Call -> Response * DrvState.
Variable fuel : nat.
Variable convertType : pystr -> pystr -> pystr.

Lemma status_Ret_cursors r hEnv hDbc hStmt ignore (w : World DrvState) st w' :
  status drv_step fuel r hEnv hDbc hStmt ignore w = (Ret st, w') ->
  w_cursors w' = w_cursors w.
Proof.
  intros E.
  apply (preserves_eq _ _ _ _ _ (status_quiet _ _ _ _ _ _ _)) in E.
  now destruct E as (_ & _ & _ & E & _).
Qed.

Lemma lift_Ret_inv {A} (x : Res A) (w : World DrvState) a w' :
  lift x w = (Ret a, w') -> x = Ret a /\ w' = w.
Proof. unfold lift. intros H. now injection H as -> <-. Qed.

Lemma describeColumns_description self h dbType cols :
  forall v (w w' : World DrvState) x d,
  describeColumns drv_step fuel convertType self h dbType cols v w
  = (Ret tt, w') ->
  w_cursors w !! self = Some x -> description x = Some d ->
  exists x' d',
    w_cursors w' !! self = Some x' /\
    description x' = Some (d ++ d') /\ length d' = length cols /\
    length (types x') = (length (types x) + length cols)%nat /\
    hStmt x' = hStmt x /\ rowcount x' = rowcount x.
Proof.
  induction cols as [| col cols IH]; intros v w w' x d H Hx Hd.
  - injection H as <-. exists x, []. rewrite app_nil_r, Nat.add_0_r. repeat split; assumption.
  - cbn [describeColumns] in H. rewrite bind_native in H.
    bind_inv H as st1 w1 E1. apply status_Ret_cursors in E1.
    bind_inv H as columnName w2 E2. apply lift_Ret_inv in E2 as [_ ->].
    rewrite bind_native in H.
    bind_inv H as st2 w3 E3. apply status_Ret_cursors in E3.
    bind_inv H as typeName w4 E4. apply lift_Ret_inv in E4 as [_ ->].
    rewrite bind_set_cursor in H.
    cbn [w_cursors answered] in E1, E3.
    match type of H with
    | context [alter ?f self] => set (g := f) in *
    end.
    assert (Hg : w_cursors (upd_cursors (alter g self) w3) !! self
                 = Some (g x))
      by (cbn [w_cursors upd_cursors];
          now rewrite list_lookup_alter_eq, E3, E1, Hx).
    assert (Hgd : exists e, description (g x) = Some (d ++ [e]))
      by (unfold g; cbn [description with_results]; rewrite Hd; eauto).
    destruct Hgd as [e Hgd].
    destruct (IH _ _ _ _ _ H Hg Hgd)
      as (x' & d' & Hx' & Hd' & Hl & Ht & Hh & Hr).
    exists x', (e :: d'). split; [exact Hx' |]. split.
    + rewrite Hd', <- app_assoc. reflexivity.
    + split; [simpl; now rewrite Hl |].
      split; [| split; [exact Hh | exact Hr]].
      rewrite Ht. unfold g. cbn [types with_results].
      rewrite length_app. simpl. lia.
Qed.

(** X9: what [_handleResults] leaves on the cursor when it returns.  With
    result columns (the count that [SQLNumResultCols] reports is positive),
    the description and the types have one entry per column and the iterator
    is a fresh one.  Without, the description is [None], columns and types
    are empty and the row number is [None], but the iterator is not reset:
    the cursor keeps the iterator of the statement executed before, if it
    had one. *)
Theorem handleResults_describes_the_result self c (w : World DrvState) w' :
  w_cursors w !! self = Some c ->
  _handleResults drv_step fuel convertType self w = (Ret tt, w') ->
  let columnCount :=
    sint 16 (out_int 0 0
               (drv_step (w_drv w) (SQLNumResultCols (addr (hStmt c)))).1) in
  exists c',
    w_cursors w' !! self = Some c' /\ hStmt c' = hStmt c /\
    if columnCount >? 0 then
      (exists d, description c' = Some d /\
                 length d = Z.to_nat columnCount) /\
      length (types c') = Z.to_nat columnCount /\
      iterator c' = Some rowIterator
    else
      description c' = None /\ columns c' = [] /\ types c' = [] /\
      rownumber c' = None /\ iterator c' = iterator c.
Proof.
  intros Hc H columnCount. unfold _handleResults in H.
  rewrite bind_set_cursor in H.
  set (c0 := with_results None (-1) None [] [] c) in *.
  assert (Hc0 : w_cursors (upd_cursors (alter (with_results None (-1) None []
                                                 []) self) w) !! self
                = Some c0)
    by (cbn [w_cursors upd_cursors]; now rewrite list_lookup_alter_eq, Hc).
  rewrite (bind_cursor_of _ _ _ _ Hc0) in H.
  bind_inv H as k w1 Ek. apply the_Ret_inv in Ek as [_ ->].
  rewrite bind_native in H. cbn [w_drv upd_cursors] in H.
  change (hStmt c0) with (hStmt c) in H. fold columnCount in H.
  bind_inv H as st1 w2 E1. apply status_Ret_cursors in E1.
  rewrite bind_native in H.
  bind_inv H as st2 w3 E2. apply status_Ret_cursors in E2.
  rewrite bind_set_cursor in H.
  cbn [w_cursors answered upd_cursors] in E1, E2.
  match type of H with
  | context [with_rowcount ?n] => set (rowCount := n) in *
  end.
  assert (Hc3 : w_cursors (upd_cursors (alter (with_rowcount rowCount) self)
                             w3) !! self
                = Some (with_rowcount rowCount c0))
    by (cbn [w_cursors upd_cursors];
        now rewrite list_lookup_alter_eq, E2, E1, list_lookup_alter_eq, Hc).
  destruct (columnCount >? 0) eqn:Hpos.
  - rewrite bind_set_cursor in H. bind_inv H as u w4 Ed. destruct u.
    match type of Ed with
    | context [alter ?f self] => set (g := f) in *
    end.
    assert (Hg : w_cursors (upd_cursors (alter g self)
                              (upd_cursors (alter (with_rowcount rowCount)
                                              self) w3)) !! self
                 = Some (g (with_rowcount rowCount c0)))
      by (cbn [w_cursors upd_cursors] in *;
          now rewrite list_lookup_alter_eq, Hc3).
    destruct (describeColumns_description _ _ _ _ _ _ _ _ [] Ed Hg eq_refl)
      as (x' & d' & Hx' & Hd' & Hl & Ht & Hh & _).
    unfold set_cursor, modify in H. injection H as <-.
    eexists. cbn [w_cursors upd_cursors].
    rewrite list_lookup_alter_eq, Hx'. split; [reflexivity |].
    cbn [hStmt with_iterator description types iterator].
    split; [exact Hh |]. split; [| split; [| reflexivity]].
    + exists d'. split; [exact Hd' |]. rewrite Hl. apply length_seq.
    + rewrite Ht. simpl. apply length_seq.
  - injection H as <-. exists (with_rowcount rowCount c0).
    split; [exact Hc3 |]. repeat split.
Qed.

(** X10: [nextset] returns a true value exactly when the driver answers
    [SQLMoreResults] with success or success-with-info; when it returns
    without one, the cursor is as it was, so the description, the row count
    and the iterator of the result set just exhausted stay on it. *)
Theorem nextset_false_leaves_the_cursor self c (w : World DrvState) b w' :
  w_cursors w !! self = Some c ->
  nextset drv_step fuel convertType self w = (Ret b, w') ->
  let r := (drv_step (w_drv w) (SQLMoreResults (addr (hStmt c)))).1 in
  b = (rc_of r =? SQL_SUCCESS) || (rc_of r =? SQL_SUCCESS_WITH_INFO) /\
  (b = false -> w_cursors w' = w_cursors w).
Proof.
  intros Hc H r. unfold nextset in H.
  rewrite (bind_cursor_of _ _ _ _ Hc), bind_native in H. fold r in H.
  bind_inv H as st w1 E. apply status_Ret_cursors in E.
  cbn [w_cursors answered] in E.
  destruct ((rc_of r =? SQL_SUCCESS) || (rc_of r =? SQL_SUCCESS_WITH_INFO)).
  - bind_inv H as u w2 E2. injection H as <- <-. split; [reflexivity |].
    discriminate.
  - injection H as <- <-. split; [reflexivity |]. intros _. exact E.
Qed.

End ResultFacts.

Section TypeNameFacts.

Context {DrvState : Type}.
Variable drv_step : DrvState -> Call -> Response * DrvState.
Variable fuel : nat.
Variable convertType : pystr -> pystr -> pystr.

(** X11: a failure of [SQLColAttributeW] is never raised: its return code is
    dropped, and the check after it looks at the code of [SQLDescribeColW]
    again.  So when the description of a column succeeded and the driver
    then answers the request for the type name with any return code and
    without writing to the buffer, the column is described all the same,
    with the text left in the buffer, the column's name, as its type
    name. *)
Theorem failed_type_name_lookup_is_not_noticed
    self h dbType col v (w : World DrvState) x d r s1 r2 s2 name :
  w_cursors w !! self = Some x -> description x = Some d ->
  drv_step (w_drv w)
    (SQLDescribeColW (addr h) (Z.of_nat col + 1) (cap (nameBuf v)))
  = (r, s1) ->
  rc_of r = SQL_SUCCESS ->
  _outputStr (out_buf 0 (nameBuf v) r) = Ret name ->
  drv_step s1
    (SQLColAttributeW (addr h) (Z.of_nat col + 1) SQL_DESC_TYPE_NAME
       (cap (nameBuf v)))
  = (r2, s2) ->
  outBufs r2 = [] ->
  exists w' x' size digits nullable,
    describeColumns drv_step fuel convertType self h dbType [col] v w
    = (Ret tt, w') /\
    w_cursors w' !! self = Some x' /\
    description x'
    = Some (d ++ [(name, convertType dbType name, size, digits, nullable)]) /\
    types x' = types x ++ [(name, convertType dbType name)].
Proof.
  intros Hx Hd E1 Hrc Hname E2 Hout. cbn [describeColumns].
  rewrite bind_native, E1. cbn [fst snd].
  rewrite (bind_Ret _ _ _ _ _ (status_success _ _ r _ _ _ _ _ Hrc)).
  rewrite (bind_lift _ _ _ _ Hname).
  rewrite bind_native. cbn [w_drv answered]. rewrite cap_out_buf, E2.
  cbn [fst snd].
  rewrite (bind_Ret _ _ _ _ _ (status_success _ _ r _ _ _ _ _ Hrc)).
  assert (Hsame : out_buf 0 (out_buf 0 (nameBuf v) r) r2
                  = out_buf 0 (nameBuf v) r)
    by (unfold out_buf at 1; now rewrite Hout).
  rewrite Hsame, (bind_lift _ _ _ _ Hname), bind_set_cursor.
  eexists _, _, _, _, _. split; [reflexivity |].
  cbn [w_cursors upd_cursors answered].
  rewrite list_lookup_alter_eq, Hx. split; [reflexivity |].
  cbn [description types with_results]. rewrite Hd. split; reflexivity.
Qed.

End TypeNameFacts.

(** ** The calls of an execution *)

Section LoggedFacts.

Context {DrvState : Type}.
Variable drv_step : DrvState -> Call -> Response * DrvState.
Variable fuel : nat.
Variable _convertLineFeeds : pystr -> pystr.
Variable convertType : pystr -> pystr -> pystr.
Variable repr : pyval -> pystr.
Variable P : Call -> Prop.
Hypothesis P_diag : forall c, is_diag c = true -> P c.

#[global] Instance calls_all_preorder (Q : Call -> Prop) :
  PreOrder (@calls_all DrvState Q).
Proof.
  split.
  - intros w. exists []. split; [reflexivity | constructor].
  - intros w1 w2 w3 (t & Ht & Hf) (u & Hu & Hg). exists (u ++ t). split.
    + rewrite Hu, Ht. now rewrite app_assoc.
    + apply Forall_app; split; assumption.
Qed.

Lemma native_calls_all c : P c -> preserves (calls_all P) (native drv_step c).
Proof.
  intros Hc w. unfold native. destruct (drv_step (w_drv w) c) as [r s].
  exists [(c, r)]. split; [reflexivity |]. now constructor.
Qed.

Lemma status_calls_all r hEnv hDbc hStmt ignore :
  preserves (calls_all P) (status drv_step fuel r hEnv hDbc hStmt ignore).
Proof.
  eapply preserves_weaken; [| apply status_quiet].
  intros w w' (_ & _ & _ & _ & _ & _ & t & Ht & Hf). exists t.
  split; [exact Ht |]. eapply Forall_impl; [exact Hf |].
  intros cr. apply P_diag.
Qed.

Lemma modify_calls_all g :
  (forall w : World DrvState, w_log (g w) = w_log w) ->
  preserves (calls_all P) (modify g).
Proof.
  intros H. apply preserves_modify. intros w. exists [].
  split; [apply H | constructor].
Qed.

Lemma new_buf_calls_all b : preserves (calls_all P) (@new_buf DrvState b).
Proof. intros w. exists []. split; [reflexivity | constructor]. Qed.

Lemma new_cell_calls_all : preserves (calls_all P) (@new_cell DrvState).
Proof. intros w. exists []. split; [reflexivity | constructor]. Qed.

End LoggedFacts.

Ltac no_timeout_call :=
  let h := fresh in let v := fresh in let E := fresh in
  intros h v E; first [discriminate E | now inversion E].

Ltac calls_step :=
  first [ apply native_calls_all; no_timeout_call
        | apply status_calls_all; intros [] ?; no_timeout_call
        | apply new_buf_calls_all | apply new_cell_calls_all
        | apply modify_calls_all; reflexivity ].

Section TimeoutFacts.

Context {DrvState : Type}.
Variable drv_step : DrvState -> Call -> Response * DrvState.
Variable fuel : nat.
Variable _convertLineFeeds : pystr -> pystr.
Variable convertType : pystr -> pystr -> pystr.
Variable repr : pyval -> pystr.

Local Abbreviation quietly := (@calls_all DrvState no_timeout).

Lemma describeParams_no_timeout h nums :
  forall dataTypes,
  preserves quietly (describeParams drv_step fuel h nums dataTypes).
Proof.
  induction nums as [| n nums IH]; intros dataTypes; cbn [describeParams];
    repeat (preserve; try calls_step).
  apply IH.
Qed.

Lemma bindParam_no_timeout h cell dataTypes p j vt pt :
  preserves quietly (bindParam drv_step fuel repr h cell dataTypes p j vt pt).
Proof.
  unfold bindParam, new_param, assign_param, setValueFunc.
  repeat (preserve; try calls_step).
Qed.

Lemma bindParams_no_timeout h cell dataTypes p nums :
  forall vt pt,
  preserves quietly
    (bindParams drv_step fuel repr h cell dataTypes p nums vt pt).
Proof.
  induction nums as [| n nums IH]; intros vt pt; cbn [bindParams].
  - preserve.
  - apply preserves_bind; [exact _ | apply bindParam_no_timeout |].
    intros t. apply IH.
Qed.

Lemma executeRow_no_timeout h cell numParams dataTypes p :
  preserves quietly
    (executeRow drv_step fuel repr h cell numParams dataTypes p).
Proof.
  unfold executeRow.
  repeat (preserve; try calls_step; try apply bindParams_no_timeout).
Qed.

Lemma bindColumn_no_timeout h (params : list (list pyval)) dataTypes j :
  preserves quietly (bindColumn drv_step fuel repr h params dataTypes j).
Proof.
  unfold bindColumn. repeat (preserve; try calls_step).
Qed.

Lemma _executeManyBatch_no_timeout self (params : list (list pyval))
    numParams dataTypes :
  preserves quietly
    (_executeManyBatch drv_step fuel repr self params numParams dataTypes).
Proof.
  unfold _executeManyBatch.
  repeat (preserve; try calls_step; try apply bindColumn_no_timeout).
Qed.

Lemma describeColumns_no_timeout self h dbType cols :
  forall v,
  preserves quietly
    (describeColumns drv_step fuel convertType self h dbType cols v).
Proof.
  induction cols as [| n cols IH]; intros v; cbn [describeColumns];
    repeat (preserve; try calls_step).
  apply IH.
Qed.

Lemma _handleResults_no_timeout self :
  preserves quietly (_handleResults drv_step fuel convertType self).
Proof.
  unfold _handleResults.
  repeat (preserve; try calls_step; try apply describeColumns_no_timeout).
Qed.

Lemma _free_no_timeout self : preserves quietly (_free drv_step fuel self).
Proof. unfold _free. repeat (preserve; try calls_step). Qed.

Lemma executemany_no_timeout self query (params : list (list pyval)) batch :
  preserves quietly
    (executemany drv_step fuel _convertLineFeeds convertType repr self query
       params batch 0).
Proof.
  unfold executemany, _setQueryTimeout.
  repeat (preserve; try calls_step; try apply _free_no_timeout;
          try apply describeParams_no_timeout;
          try apply _executeManyBatch_no_timeout;
          try apply executeRow_no_timeout;
          try apply bindColumn_no_timeout;
          try apply bindParams_no_timeout;
          try apply describeColumns_no_timeout;
          try apply _handleResults_no_timeout).
Qed.

(** X12: [execute] with parameters does not apply the query timeout it is
    given: whatever [queryTimeout] is, and whatever the outcome, every call
    that sets the statement's timeout in the course of the run sets it to
    [0], no timeout.  (The value is handed to [executemany] in the position
    of [batch].) *)
Theorem execute_with_parameters_sets_no_timeout
    self query p ps queryTimeout (w : World DrvState) :
  let w' := (execute drv_step fuel _convertLineFeeds convertType repr self
               query (p :: ps) queryTimeout w).2 in
  exists t,
    w_log w' = t ++ w_log w /\
    forall h v r,
      (SQLSetStmtAttr h SQL_ATTR_QUERY_TIMEOUT v, r) ∈ t -> v = 0.
Proof.
  intros w'.
  assert (H : preserves quietly
                (execute drv_step fuel _convertLineFeeds convertType repr
                   self query (p :: ps) queryTimeout)).
  { unfold execute.
    apply preserves_bind;
      [exact _ | apply executemany_no_timeout
      | intros _; apply _handleResults_no_timeout]. }
  destruct (H w) as (t & Ht & Hf). exists t. split; [exact Ht |].
  intros h v r Hin. rewrite Forall_forall in Hf.
  exact (Hf _ Hin h v eq_refl).
Qed.

End TimeoutFacts.

Section EnsuresFacts.

Context {DrvState : Type}.
Context (R : relation (World DrvState)) `{!PreOrder R}.

Lemma ensures_ret {A} (Q : A -> Prop) (a : A) : Q a -> ensures R Q (ret a).
Proof.
  intros H w. split; [reflexivity |]. simpl. intros b E. now injection E as <-.
Qed.

Lemma ensures_preserves {A} (m : M DrvState A) :
  preserves R m -> ensures R (fun _ => True) m.
Proof. intros H w. split; [apply H | trivial]. Qed.

Lemma ensures_bind {A B} (Q1 : A -> Prop) (Q : B -> Prop) (m : M DrvState A)
    (f : A -> M DrvState B) :
  ensures R Q1 m -> (forall a, Q1 a -> ensures R Q (f a)) ->
  ensures R Q (bind m f).
Proof.
  intros Hm Hf w. destruct (Hm w) as [HR HQ]. unfold bind.
  destruct (m w) as [[a | e |] w1]; simpl in *.
  - destruct (Hf a (HQ a eq_refl) w1) as [HR' HQ']. split; [| exact HQ'].
    etransitivity; eassumption.
  - split; [exact HR | discriminate].
  - split; [exact HR | discriminate].
Qed.

Lemma ensures_run {A} (Q : A -> Prop) (m : M DrvState A) :
  ensures R Q m -> preserves R m.
Proof. intros H w. apply H. Qed.

End EnsuresFacts.

Lemma existsb_take_S {A} (f : A -> bool) (d : A) (p : list A) :
  f d = false ->
  forall j, existsb f (take (S j) p) = existsb f (take j p) || f (nth j p d).
Proof.
  intros Hd. induction p as [| x p IH]; intros j.
  - simpl. destruct j; simpl; now rewrite Hd.
  - destruct j as [| j].
    + simpl. now rewrite orb_false_r.
    + cbn [take existsb nth]. rewrite IH. now rewrite orb_assoc.
Qed.

Section RowTypes.

Context {DrvState : Type}.
Variable drv_step : DrvState -> Call -> Response * DrvState.
Variable fuel : nat.
Variable repr : pyval -> pystr.
Variable p : list pyval.

Local Abbreviation typed := (@calls_all DrvState (binds_as (row_value_type p))).

Lemma row_value_type_next j :
  row_value_type p (Z.of_nat j + 1)
  = if is_bytes (nth j p PNone) then SQL_C_BINARY
    else row_value_type p (Z.of_nat j).
Proof.
  unfold row_value_type.
  replace (Z.to_nat (Z.of_nat j + 1)) with (S j) by lia.
  rewrite Nat2Z.id, (existsb_take_S is_bytes PNone) by reflexivity.
  destruct (existsb is_bytes (take j p)), (is_bytes (nth j p PNone));
    reflexivity.
Qed.

Ltac typed_step :=
  first [ apply status_calls_all; intros [] ?; try discriminate; exact I
        | apply new_buf_calls_all | apply new_cell_calls_all
        | apply modify_calls_all; reflexivity ].

Ltac quiet_part :=
  apply ensures_bind with (Q1 := fun _ => True);
  [ exact _
  | apply ensures_preserves;
    unfold new_param, assign_param, setValueFunc;
    repeat (preserve; try typed_step)
  | intros ? _ ].

Lemma bindParam_typed h cell dataTypes j vt pt :
  vt = row_value_type p (Z.of_nat j) ->
  ensures typed (fun t => t.1 = row_value_type p (Z.of_nat j + 1))
    (bindParam drv_step fuel repr h cell dataTypes p j vt pt).
Proof.
  intros Hvt. unfold bindParam.
  apply ensures_bind
    with (Q1 := fun sel : option (nat * Buffer) * Z * Z * Z =>
                  sel.1.2 = row_value_type p (Z.of_nat j + 1)).
  - exact _.
  - rewrite row_value_type_next. destruct (nth j p PNone) eqn:Hval; simpl.
    + repeat quiet_part. apply ensures_ret; [exact _ |]; simpl; first [exact Hvt | reflexivity].
    + repeat quiet_part. apply ensures_ret; [exact _ |]; simpl; first [exact Hvt | reflexivity].
    + repeat quiet_part. apply ensures_ret; [exact _ |]; simpl; first [exact Hvt | reflexivity].
    + repeat quiet_part. apply ensures_ret; [exact _ |]; simpl; first [exact Hvt | reflexivity].
    + quiet_part. match goal with |- context [io ?o] => destruct (io o) end;
        repeat quiet_part;
        (apply ensures_ret; [exact _ |]; simpl; first [exact Hvt | reflexivity]).
  - intros [[[param ioType] vt1] pt1] Hsel. simpl in Hsel. subst vt1.
    match goal with
    | |- ensures _ _ (let '(_, _) := ?x in _) => destruct x as [bufSize len]
    end.
    apply ensures_bind with (Q1 := fun _ => True); [exact _ | |].
    + apply ensures_preserves, native_calls_all. reflexivity.
    + intros r _. quiet_part. apply ensures_ret; [exact _ | reflexivity].
Qed.

Lemma bindParams_typed h cell dataTypes n :
  forall j vt pt,
  vt = row_value_type p (Z.of_nat j) ->
  preserves typed
    (bindParams drv_step fuel repr h cell dataTypes p (seq j n) vt pt).
Proof.
  induction n as [| n IH]; intros j vt pt Hvt; cbn [seq bindParams].
  - preserve.
  - apply (ensures_run _ (fun _ => True)).
    eapply ensures_bind; [exact _ | apply bindParam_typed, Hvt |].
    intros t Ht. apply ensures_preserves, IH. rewrite Ht. f_equal. lia.
Qed.

(** X13: in per-row mode the C type of a parameter is not chosen per parameter:
    once a parameter of the row is a [bytearray], every later parameter of
    that row, whatever its value, is bound as binary too.  Every
    [SQLBindParameter] call of the run for a row binds its ordinal as
    binary if that parameter or one before it in the row is a [bytearray],
    and as text otherwise. *)
Theorem parameters_after_a_bytearray_are_bound_as_binary
    h cell numParams dataTypes (w : World DrvState) :
  let w' := (executeRow drv_step fuel repr h cell numParams dataTypes p w).2 in
  exists t,
    w_log w' = t ++ w_log w /\
    Forall (fun cr => binds_as (row_value_type p) cr.1) t.
Proof.
  intros w'.
  assert (H : preserves typed
                (executeRow drv_step fuel repr h cell numParams dataTypes p)).
  { unfold executeRow. destruct (negb _); [preserve |].
    apply preserves_bind;
      [exact _ | apply (bindParams_typed _ _ _ _ 0%nat); reflexivity |].
    intros _. preserve; [apply native_calls_all; exact I | typed_step]. }
  exact (H w).
Qed.

End RowTypes.

Lemma scanColumn_type (repr : pyval -> pystr) (vals : list pyval) :
  forall vt pt ml p,
  (scanColumn repr vals vt pt ml p).1.1.1
  = if existsb is_bytes vals then SQL_C_BINARY else vt.
Proof.
  induction vals as [| val vals IH]; intros vt pt ml p; [reflexivity |].
  destruct val; cbn [scanColumn existsb is_bytes orb]; rewrite IH;
    try reflexivity.
  now destruct (existsb is_bytes vals).
Qed.

Section ColumnTypes.

Context {DrvState : Type}.
Variable drv_step : DrvState -> Call -> Response * DrvState.
Variable fuel : nat.
Variable repr : pyval -> pystr.
Variable params : list (list pyval).

Local Abbreviation typed :=
  (@calls_all DrvState (binds_as (column_value_type params))).

Ltac typed_step :=
  first [ apply native_calls_all; exact I
        | apply status_calls_all; intros [] ?; try discriminate; exact I
        | apply new_buf_calls_all | apply new_cell_calls_all
        | apply modify_calls_all; reflexivity ].

Lemma bindColumn_typed h dataTypes j :
  preserves typed (bindColumn drv_step fuel repr h params dataTypes j).
Proof.
  unfold bindColumn.
  match goal with
  | |- context [scanColumn repr ?vals ?vt ?pt ?ml ?p] =>
    pose proof (scanColumn_type repr vals vt pt ml p) as Hty;
    destruct (scanColumn repr vals vt pt ml p) as [[[vt' pt'] ml'] p']
  end.
  simpl in Hty. repeat (preserve; try typed_step).
  apply native_calls_all. simpl. rewrite Hty. unfold column_value_type.
  now replace (Z.to_nat (Z.of_nat j + 1 - 1)) with j by lia.
Qed.

(** X14: in columnar mode one [bytearray] makes its whole column binary: every
    [SQLBindParameter] call of [_executeManyBatch] binds its ordinal as
    binary when the value of some row for that ordinal is a [bytearray],
    so the text values of the other rows are sent as binary too, and as
    text otherwise. *)
Theorem a_bytearray_makes_its_column_binary
    self numParams dataTypes (w : World DrvState) :
  let w' := (_executeManyBatch drv_step fuel repr self params numParams
               dataTypes w).2 in
  exists t,
    w_log w' = t ++ w_log w /\
    Forall (fun cr => binds_as (column_value_type params) cr.1) t.
Proof.
  intros w'.
  assert (H : preserves typed
                (_executeManyBatch drv_step fuel repr self params numParams
                   dataTypes)).
  { unfold _executeManyBatch.
    repeat (preserve; try typed_step; try apply bindColumn_typed). }
  exact (H w).
Qed.

End ColumnTypes.

Section CodeFacts.

Context {DrvState : Type}.
Variable drv_step : DrvState -> Call -> Response * DrvState.
Variable fuel : nat.

Lemma getDiagLoop_codes n handle handleType :
  forall v, Forall (fun i : DiagRec => 0 <= i.2) (info v) ->
  ensures quiet (Forall (fun i : DiagRec => 0 <= i.2))
    (getDiagLoop drv_step n handle handleType v).
Proof.
  induction n as [| n IH]; intros v Hv; cbn [getDiagLoop].
  - intros w. split; [reflexivity | discriminate].
  - eapply ensures_bind with (Q1 := fun _ => True); [exact _ | |].
    + apply ensures_preserves, native_diag_quiet.
    + intros r _. cbv zeta.
      repeat match goal with
             | |- ensures _ _ (if ?b then _ else _) => destruct b
             end;
        try (intros w; split; [reflexivity | discriminate]).
      * apply IH, Hv.
      * eapply ensures_bind with (Q1 := fun _ => True);
          [exact _ | apply ensures_preserves; preserve |].
        intros state _.
        eapply ensures_bind with (Q1 := fun _ => True);
          [exact _ | apply ensures_preserves; preserve |].
        intros message _. apply IH. cbn [info].
        apply Forall_app. split; [exact Hv |].
        constructor; [apply Z.abs_nonneg | constructor].
      * apply ensures_ret; [exact _ | exact Hv].
Qed.

Lemma bind_Raise_inv {A B} (m : M DrvState A) (f : A -> M DrvState B)
    w e w' :
  bind m f w = (Raise e, w') ->
  m w = (Raise e, w') \/
  exists a w1, m w = (Ret a, w1) /\ f a w1 = (Raise e, w').
Proof.
  unfold bind. destruct (m w) as [[a | e0 |] w1]; intros H.
  - right. eauto.
  - left. now injection H as <- <-.
  - discriminate.
Qed.

Lemma outputStr_Raise b e :
  _outputStr b = Raise e -> e = UnicodeDecodeError.
Proof.
  unfold _outputStr, decode_utf8. destruct (utf8_ok _); [discriminate |].
  now intros [= <-].
Qed.

Lemma getDiagLoop_Raise n handle handleType :
  forall v (w : World DrvState) e w',
  getDiagLoop drv_step n handle handleType v w = (Raise e, w') ->
  forall code msg st, e <> DatabaseError code msg st.
Proof.
  induction n as [| n IH]; intros v w e w' H; cbn [getDiagLoop] in H;
    [discriminate |].
  rewrite bind_native in H. cbv zeta in H.
  repeat match type of H with
         | (if ?b then _ else _) _ = _ => destruct b
         end;
    try (injection H as <- _; discriminate).
  - eapply IH, H.
  - apply bind_Raise_inv in H as [H | (state & w1 & _ & H)].
    + unfold lift in H. injection H as H _.
      apply outputStr_Raise in H as ->. discriminate.
    + apply bind_Raise_inv in H as [H | (message & w2 & _ & H)].
      * unfold lift in H. injection H as H _.
        apply outputStr_Raise in H as ->. discriminate.
      * eapply IH, H.
  - discriminate.
Qed.

Lemma checkLoop_codes rc ignore (info : list DiagRec) :
  Forall (fun i : DiagRec => 0 <= i.2) info ->
  forall acc code msg st,
  checkLoop rc ignore info acc = Raise (DatabaseError code msg st) ->
  0 <= code.
Proof.
  induction 1 as [| i info Hi _ IH]; intros acc code msg st H;
    cbn [checkLoop] in H; [discriminate |].
  destruct (rc =? SQL_SUCCESS_WITH_INFO); [eapply IH, H |].
  destruct (not_ignored ignore i.1.1); [| discriminate].
  inversion H; subst. exact Hi.
Qed.


End CodeFacts.

Section DirectFacts.

Context {DrvState : Type}.
Variable drv_step : DrvState -> Call -> Response * DrvState.
Variable fuel : nat.
Variable _convertLineFeeds : pystr -> pystr.
Variable convertType : pystr -> pystr -> pystr.
Variable repr : pyval -> pystr.

Lemma bind_status_success {A} r hEnv hDbc hStmt ignore
    (f : list pystr -> M DrvState A) (w : World DrvState) :
  rc_of r = SQL_SUCCESS ->
  bind (status drv_step fuel r hEnv hDbc hStmt ignore) f w = f [] w.
Proof.
  intros H. now rewrite (bind_Ret _ _ _ _ _ (status_success _ _ _ _ _ _ _ _ H)).
Qed.


End DirectFacts.

(** ** The connect string *)

Section DictFacts.

Context {V : Type}.
Implicit Types (d : list (pystr * V)) (k : pystr) (v : V).

Lemma dict_set_keys k v d :
  map fst (dict_set k v d)
  = if bool_decide (k ∈ map fst d) then map fst d else map fst d ++ [k].
Proof.
  induction d as [| [k' v'] d IH].
  - cbn [dict_set map app]. destruct (bool_decide_reflect (k ∈ [])) as [H |];
      [now apply elem_of_nil in H | reflexivity].
  - cbn [dict_set map fst]. destruct (bool_decide_reflect (k = k')) as [-> | Hne].
    + rewrite bool_decide_eq_true_2 by apply list_elem_of_here.
      reflexivity.
    + cbn [map fst]. rewrite IH.
      destruct (bool_decide_reflect (k ∈ map fst d)) as [Hin | Hnin].
      * rewrite bool_decide_eq_true_2 by (now apply list_elem_of_further).
        reflexivity.
      * rewrite bool_decide_eq_false_2; [reflexivity |].
        intros Hin. apply elem_of_cons in Hin as [? | ?]; contradiction.
Qed.

Lemma dict_set_NoDup k v d :
  NoDup (map fst d) -> NoDup (map fst (dict_set k v d)).
Proof.
  intros H. rewrite dict_set_keys.
  destruct (decide (k ∈ map fst d)) as [Hin | Hnin].
  - now rewrite bool_decide_eq_true_2.
  - rewrite bool_decide_eq_false_2 by exact Hnin.
    apply NoDup_app. split; [exact H |]. split; [| apply NoDup_singleton].
    intros x Hx Hk. apply list_elem_of_singleton in Hk as ->. contradiction.
Qed.

Lemma dict_set_in k v d : (k, v) ∈ dict_set k v d.
Proof.
  induction d as [| [k' v'] d IH]; simpl.
  - apply list_elem_of_here.
  - destruct (bool_decide (k = k')).
    + apply list_elem_of_here.
    + now apply list_elem_of_further.
Qed.

Lemma dict_set_other k v k' v' d :
  k' <> k -> (k', v') ∈ d -> (k', v') ∈ dict_set k v d.
Proof.
  intros Hne. induction d as [| [k0 v0] d IH]; simpl; intros Hin.
  - now apply elem_of_nil in Hin.
  - destruct (decide (k = k0)) as [-> | Hk].
    + rewrite bool_decide_eq_true_2 by reflexivity.
      apply elem_of_cons in Hin as [E | Hin].
      * injection E as -> _. contradiction.
      * now apply list_elem_of_further.
    + rewrite bool_decide_eq_false_2 by exact Hk.
      apply elem_of_cons in Hin as [-> | Hin].
      * apply list_elem_of_here.
      * apply list_elem_of_further, IH, Hin.
Qed.

Lemma dict_set_head k v k0 d :
  (exists v0 rest, d = (k0, v0) :: rest) ->
  exists v0 rest, dict_set k v d = (k0, v0) :: rest.
Proof.
  intros (v0 & rest & ->). simpl. destruct (bool_decide_reflect (k = k0)).
  - subst. eauto.
  - eauto.
Qed.

Lemma update_NoDup (kw : list (pystr * V)) :
  forall d, NoDup (map fst d) ->
  NoDup (map fst (fold_left (fun d kv => dict_set kv.1 kv.2 d) kw d)).
Proof.
  induction kw as [| kv kw IH]; intros d H; simpl; [exact H |].
  apply IH, dict_set_NoDup, H.
Qed.

Lemma update_head (kw : list (pystr * V)) k0 :
  forall d, (exists v0 rest, d = (k0, v0) :: rest) ->
  exists v0 rest,
    fold_left (fun d kv => dict_set kv.1 kv.2 d) kw d = (k0, v0) :: rest.
Proof.
  induction kw as [| kv kw IH]; intros d H; simpl; [exact H |].
  apply IH, dict_set_head, H.
Qed.

Lemma update_keeps (kw : list (pystr * V)) k v :
  forall d, k ∉ map fst kw -> (k, v) ∈ d ->
  (k, v) ∈ fold_left (fun d kv => dict_set kv.1 kv.2 d) kw d.
Proof.
  induction kw as [| [k' v'] kw IH]; intros d Hn Hin; simpl; [exact Hin |].
  simpl in Hn. apply not_elem_of_cons in Hn as [Hne Hn].
  apply IH; [exact Hn |]. apply dict_set_other; [exact Hne | exact Hin].
Qed.

End DictFacts.

(** X17: the keys of the connect string: every key occurs once, [DRIVER] comes
    first, and a keyword argument wins over the named argument of the same
    key ([DBCNAME], [UID], [PWD], [SESSIONMODE], also [DRIVER]) and over an
    earlier keyword argument: the value given last for a key is the one in
    the connect string. *)
Theorem keyword_arguments_override_the_named_ones
    dbType system username password transactionMode kwargs :
  let d := connectParams dbType system username password transactionMode
             kwargs in
  NoDup (map fst d) /\
  (exists v rest, d = (py "DRIVER", v) :: rest) /\
  (forall pre k v post,
     kwargs = pre ++ (k, v) :: post -> k ∉ map fst post -> (k, v) ∈ d).
Proof.
  intros d. unfold connectParams in d.
  match goal with
  | d := fold_left ?f kwargs ?d0 |- _ =>
    assert (H0 : NoDup (map fst d0) /\
                 exists v rest, d0 = (py "DRIVER", v) :: rest)
  end.
  { destruct system, username, password, transactionMode;
      (split;
       [ repeat apply dict_set_NoDup; simpl; apply NoDup_singleton
       | repeat apply dict_set_head; eauto ]). }
  destruct H0 as [Hnd Hhead]. split; [| split].
  - apply update_NoDup, Hnd.
  - apply update_head, Hhead.
  - intros pre k v post -> Hpost. subst d.
    rewrite fold_left_app. simpl.
    apply update_keeps; [exact Hpost | apply dict_set_in].
Qed.

(** ** Messages longer than the buffer *)

Section ScanTurns.

Context {DrvState : Type}.
Variable drv_step : DrvState -> Call -> Response * DrvState.

(** One turn of the scan on an answer that asks for a larger buffer. *)
Lemma getDiagLoop_resize n handle handleType v (w : World DrvState) r s' :
  let c := SQLGetDiagRecW handleType handle (infoNumber v)
             (cap (messageBuffer v)) in
  drv_step (w_drv w) c = (r, s') ->
  rc_of r = SQL_SUCCESS_WITH_INFO ->
  cap (messageBuffer v) < sint 16 (out_int 1 (messageLength v) r) ->
  getDiagLoop drv_step (S n) handle handleType v w
  = getDiagLoop drv_step n handle handleType
      (mkDiagVars (info v) (infoNumber v) (out_buf 0 (sqlState v) r)
         (sint 32 (out_int 0 (nativeError v) r))
         (_createBuffer (sint 16 (out_int 1 (messageLength v) r)))
         (sint 16 (out_int 1 (messageLength v) r)))
      (answered c r s' w).
Proof.
  intros c Hstep Hrc Hlen. cbn [getDiagLoop]. fold c.
  rewrite (bind_Ret _ _ _ _ _ (native_unfold _ _ _ _ _ Hstep)), Hrc.
  cbv beta iota zeta.
  change (SQL_SUCCESS_WITH_INFO =? SQL_SUCCESS_WITH_INFO) with true.
  rewrite cap_out_buf.
  replace (_ >? _) with true by (symmetry; apply Z.gtb_lt; exact Hlen).
  reflexivity.
Qed.

(** One turn of the scan on an answer of success-with-info that is
    accepted. *)
Lemma getDiagLoop_info n handle handleType v (w : World DrvState) r s' :
  let c := SQLGetDiagRecW handleType handle (infoNumber v)
             (cap (messageBuffer v)) in
  drv_step (w_drv w) c = (r, s') ->
  rc_of r = SQL_SUCCESS_WITH_INFO ->
  sint 16 (out_int 1 (messageLength v) r) <= cap (messageBuffer v) ->
  forall state message,
  _outputStr (out_buf 0 (sqlState v) r) = Ret state ->
  _outputStr (out_buf 1 (messageBuffer v) r) = Ret message ->
  getDiagLoop drv_step (S n) handle handleType v w
  = getDiagLoop drv_step n handle handleType
      (mkDiagVars
         (info v ++ [(state, message,
                      Z.abs (sint 32 (out_int 0 (nativeError v) r)))])
         (infoNumber v + 1) (out_buf 0 (sqlState v) r)
         (sint 32 (out_int 0 (nativeError v) r))
         (out_buf 1 (messageBuffer v) r)
         (sint 16 (out_int 1 (messageLength v) r)))
      (answered c r s' w).
Proof.
  intros c Hstep Hrc Hlen state message Hst Hmsg. cbn [getDiagLoop]. fold c.
  rewrite (bind_Ret _ _ _ _ _ (native_unfold _ _ _ _ _ Hstep)), Hrc.
  cbv beta iota zeta.
  change (SQL_SUCCESS_WITH_INFO =? SQL_SUCCESS_WITH_INFO) with true.
  change (SQL_SUCCESS_WITH_INFO =? SQL_SUCCESS) with false.
  rewrite cap_out_buf.
  replace (_ >? _) with false
    by (symmetry; rewrite Z.gtb_ltb; apply Z.ltb_ge; exact Hlen).
  cbn [andb orb].
  unfold bind at 1, lift at 1. rewrite Hst.
  unfold bind at 1, lift at 1. rewrite Hmsg. reflexivity.
Qed.

End ScanTurns.

Lemma diag_std_record pre st msg native rest handleType handle bufLen :
  diag_std (pre ++ (st, msg, native) :: rest)
    (SQLGetDiagRecW handleType handle (Z.of_nat (length pre) + 1) bufLen)
  = (if Z.of_nat (length msg) <? bufLen then
       mkResponse SQL_SUCCESS [Some native; Some (Z.of_nat (length msg))]
         [st ++ [NUL]; msg ++ [NUL]] []
     else
       mkResponse SQL_SUCCESS_WITH_INFO
         [Some native; Some (Z.of_nat (length msg))]
         [st ++ [NUL]; take (Z.to_nat (bufLen - 1)) msg ++ [NUL]] [],
     pre ++ (st, msg, native) :: rest).
Proof.
  cbn [diag_std].
  replace (1 <=? Z.of_nat (length pre) + 1) with true
    by (symmetry; apply Z.leb_le; lia).
  replace (Z.to_nat (Z.of_nat (length pre) + 1 - 1)) with (length pre) by lia.
  rewrite list_lookup_middle by reflexivity.
  now destruct (Z.of_nat (length msg) <? bufLen).
Qed.

Lemma diag_std_end recs handleType handle bufLen :
  diag_std recs
    (SQLGetDiagRecW handleType handle (Z.of_nat (length recs) + 1) bufLen)
  = (answer SQL_NO_DATA, recs).
Proof.
  cbn [diag_std].
  replace (1 <=? Z.of_nat (length recs) + 1) with true
    by (symmetry; apply Z.leb_le; lia).
  replace (Z.to_nat (Z.of_nat (length recs) + 1 - 1)) with (length recs)
    by lia.
  destruct (recs !! length recs) as [i |] eqn:E; [| reflexivity].
  apply lookup_lt_Some in E. now apply Nat.lt_irrefl in E.
Qed.

Lemma ascii_text_take k (s : pystr) : ascii_text s -> ascii_text (take k s).
Proof. apply Forall_take. Qed.

Lemma diag_scan_loop handle handleType (rest : list DiagRec) :
  forall pre n v (w : World (list DiagRec)),
  w_drv w = pre ++ rest ->
  infoNumber v = Z.of_nat (length pre) + 1 ->
  0 < cap (messageBuffer v) -> cap (sqlState v) = 6 ->
  Forall diag_wf rest ->
  (2 * length rest + 1 <= n)%nat ->
  exists w',
    getDiagLoop diag_std n handle handleType v w
    = (Ret (info v ++ diag_scan (cap (messageBuffer v)) rest), w').
Proof.
  induction rest as [| [[st msg] native] rest IH];
    intros pre n v w Hw Hk Hcap Hst6 Hwf Hn.
  - destruct n as [| n]; [simpl in Hn; lia |].
    rewrite app_nil_r in Hw. eexists.
    rewrite (getDiagLoop_no_data diag_std n handle handleType v w
               (answer SQL_NO_DATA) pre);
      [cbn [diag_scan]; rewrite app_nil_r; reflexivity | | reflexivity].
    rewrite Hw, Hk. apply diag_std_end.
  - apply Forall_cons in Hwf as [(Ha & Hl & Hma & Hml & Hnat) Hwf].
    cbn [fst snd] in Ha, Hl, Hma, Hml, Hnat.
    destruct n as [| n]; [simpl in Hn; lia |].
    set (L := Z.of_nat (length msg)) in *.
    assert (HL16 : sint 16 L = L)
      by (apply sint_small; [lia |]; change (2 ^ (16 - 1)) with (2 ^ 15);
          unfold L; lia).
    assert (Hn32 : sint 32 native = native)
      by (apply sint_small; [lia |]; change (2 ^ (32 - 1)) with (2 ^ 31);
          lia).
    assert (Hstate : forall b r,
              cap b = 6 -> outBufs r !! 0%nat = Some (st ++ [NUL]) ->
              _outputStr (out_buf 0 b r) = Ret st).
    { intros b r Hb Hr. unfold out_buf. rewrite Hr.
      apply outputStr_poke; [exact Ha | now rewrite Hb]. }
    assert (Hstd : forall bufLen,
              diag_std (w_drv w)
                (SQLGetDiagRecW handleType handle (infoNumber v) bufLen)
              = (if L <? bufLen then
                   mkResponse SQL_SUCCESS [Some native; Some L]
                     [st ++ [NUL]; msg ++ [NUL]] []
                 else
                   mkResponse SQL_SUCCESS_WITH_INFO [Some native; Some L]
                     [st ++ [NUL]; take (Z.to_nat (bufLen - 1)) msg ++ [NUL]]
                     [],
                 w_drv w))
      by (intros bufLen; rewrite Hw, Hk; apply diag_std_record).
    pose proof (Hstd (cap (messageBuffer v))) as Hstep.
    destruct (L <? cap (messageBuffer v)) eqn:Hfit.
    + (* the message fits *)
      apply Z.ltb_lt in Hfit.
      erewrite getDiagLoop_success;
        [| exact Hstep | reflexivity
         | apply Hstate; [exact Hst6 | reflexivity]
         | unfold out_buf; cbn [outBufs lookup list_lookup];
           apply outputStr_poke; [exact Hma | exact Hfit] ].
      match goal with
      | |- context [getDiagLoop diag_std n handle handleType ?v1 ?w1] =>
        destruct (IH (pre ++ [(st, msg, native)]) n v1 w1) as [w' Hrun]
      end;
        [ cbn [w_drv answered]; rewrite Hw, <- app_assoc; reflexivity
        | cbn [infoNumber]; rewrite Hk, length_app, Nat2Z.inj_add; reflexivity
        | cbn [messageBuffer]; rewrite cap_out_buf; exact Hcap
        | cbn [sqlState]; rewrite cap_out_buf; exact Hst6
        | exact Hwf
        | simpl in Hn; lia
        | ].
      exists w'. rewrite Hrun. cbn [info messageBuffer diag_scan].
      rewrite cap_out_buf, <- app_assoc. cbn [app]. unfold received. fold L.
      replace (L <? cap (messageBuffer v)) with true
        by (symmetry; now apply Z.ltb_lt).
      rewrite Z.max_l by lia.
      unfold out_int. cbn [outInts lookup list_lookup]. rewrite Hn32.
      reflexivity.
    + apply Z.ltb_ge in Hfit.
      assert (Htake : forall c, 0 < c -> c <= L ->
                _outputStr
                  (poke (take (Z.to_nat (c - 1)) msg ++ [NUL])
                     (mkBuffer c []))
                = Ret (take (Z.to_nat (c - 1)) msg) /\
                forall b, cap b = c ->
                _outputStr (poke (take (Z.to_nat (c - 1)) msg ++ [NUL]) b)
                = Ret (take (Z.to_nat (c - 1)) msg)).
      { intros c Hc HcL.
        assert (Hlen : Z.of_nat (length (take (Z.to_nat (c - 1)) msg)) < c)
          by (rewrite length_take; lia).
        split; [| intros b Hb];
          (apply outputStr_poke;
           [now apply ascii_text_take | cbn [cap]; lia]). }
      destruct (Z.eq_dec L (cap (messageBuffer v))) as [Heq | Hne].
      * (* the answer is accepted as it is *)
        destruct (Htake (cap (messageBuffer v)) Hcap Hfit) as [_ Hmsg].
        erewrite getDiagLoop_info;
          [| exact Hstep | reflexivity
           | unfold out_int; cbn [outInts lookup list_lookup];
             rewrite HL16; lia
           | apply Hstate; [exact Hst6 | reflexivity]
           | unfold out_buf; cbn [outBufs lookup list_lookup];
             apply Hmsg; reflexivity ].
        match goal with
        | |- context [getDiagLoop diag_std n handle handleType ?v1 ?w1] =>
          destruct (IH (pre ++ [(st, msg, native)]) n v1 w1) as [w' Hrun]
        end;
          [ cbn [w_drv answered]; rewrite Hw, <- app_assoc; reflexivity
          | cbn [infoNumber]; rewrite Hk, length_app, Nat2Z.inj_add; reflexivity
          | cbn [messageBuffer]; rewrite cap_out_buf; exact Hcap
          | cbn [sqlState]; rewrite cap_out_buf; exact Hst6
          | exact Hwf
          | simpl in Hn; lia
          | ].
        exists w'. rewrite Hrun. cbn [info messageBuffer diag_scan].
        rewrite cap_out_buf, <- app_assoc. cbn [app]. unfold received. fold L.
        replace (L <? cap (messageBuffer v)) with false
          by (symmetry; now apply Z.ltb_ge).
        rewrite Z.max_l by lia.
        unfold out_int. cbn [outInts lookup list_lookup]. rewrite Hn32.
        replace (Z.to_nat (cap (messageBuffer v) - 1))
          with (length msg - 1)%nat by (unfold L in *; lia).
        reflexivity.
      * (* the buffer is resized and the record is asked for again *)
        destruct n as [| n]; [simpl in Hn; lia |].
        assert (HLpos : 0 < L) by lia.
        destruct (Htake L HLpos ltac:(lia)) as [Hmsg _].
        erewrite getDiagLoop_resize;
          [| exact Hstep | reflexivity
           | unfold out_int; cbn [outInts lookup list_lookup];
             rewrite HL16; lia ].
        unfold out_int at 1 2 3. cbn [outInts lookup list_lookup].
        rewrite HL16.
        pose proof (Hstd L) as Hstep2.
        rewrite Z.ltb_irrefl in Hstep2.
        erewrite getDiagLoop_info;
          [| cbn [w_drv answered infoNumber messageBuffer cap _createBuffer];
             exact Hstep2
           | reflexivity
           | cbn [messageLength messageBuffer cap _createBuffer];
             unfold out_int; cbn [outInts lookup list_lookup];
             rewrite HL16; lia
           | apply Hstate;
             [cbn [sqlState]; rewrite cap_out_buf; exact Hst6 | reflexivity]
           | cbn [messageBuffer]; unfold out_buf;
             cbn [outBufs lookup list_lookup]; exact Hmsg ].
        match goal with
        | |- context [getDiagLoop diag_std n handle handleType ?v1 ?w1] =>
          destruct (IH (pre ++ [(st, msg, native)]) n v1 w1) as [w' Hrun]
        end;
          [ cbn [w_drv answered]; rewrite Hw, <- app_assoc; reflexivity
          | cbn [infoNumber]; rewrite Hk, length_app, Nat2Z.inj_add; reflexivity
          | cbn [messageBuffer]; rewrite cap_out_buf; cbn [cap _createBuffer];
            exact HLpos
          | cbn [sqlState]; rewrite !cap_out_buf; exact Hst6
          | exact Hwf
          | simpl in Hn; lia
          | ].
        exists w'. rewrite Hrun. cbn [info messageBuffer diag_scan].
        rewrite cap_out_buf, <- app_assoc. cbn [app cap _createBuffer].
        unfold received. fold L.
        replace (L <? cap (messageBuffer v)) with false
          by (symmetry; now apply Z.ltb_ge).
        rewrite Z.max_r by lia.
        unfold out_int. cbn [outInts lookup list_lookup nativeError].
        rewrite Hn32.
        replace (Z.to_nat (L - 1)) with (length msg - 1)%nat
          by (unfold L in *; lia).
        reflexivity.
Qed.

(** X18: on a driver that follows the contract of [SQLGetDiagRecW], a message
    that does not fit the buffer with its terminator is listed without its
    last character: the buffer is resized to the length of the message, not
    to one more, and the second answer, truncated again, is accepted.  The
    scan lists every record of the handle, in order, each with the absolute
    value of its native code. *)
Theorem long_messages_lose_their_last_character
    fuel handle handleType (w : World (list DiagRec)) :
  Forall diag_wf (w_drv w) ->
  (2 * length (w_drv w) + 1 <= fuel)%nat ->
  exists w',
    getDiagnosticInfo diag_std fuel handle handleType w
    = (Ret (diag_scan SMALL_BUFFER_SIZE (w_drv w)), w').
Proof.
  intros Hwf Hfuel. unfold getDiagnosticInfo.
  destruct (diag_scan_loop handle handleType (w_drv w) [] fuel diag_init w)
    as [w' Hrun]; try reflexivity; try assumption.
  exists w'. exact Hrun.
Qed.

(** ** A connection to another database *)

Section ConnectFacts.

Context {DrvState : Type}.
Variable drv_step : DrvState -> Call -> Response * DrvState.
Variable fuel : nat.
Variable _convertLineFeeds : pystr -> pystr.
Variable convertType : pystr -> pystr -> pystr.
Variable repr : pyval -> pystr.
Variable fetchone0 : nat -> M DrvState Z.
Variable Cursor_exit : nat -> M DrvState unit.

Lemma try_except_Ret {A} (m : M DrvState A) h (w : World DrvState) a w' :
  m w = (Ret a, w') -> try_except m h w = (Ret a, w').
Proof. intros H. unfold try_except. now rewrite H. Qed.

(** X19: a connection to a database other than Teradata, once the environment is
    initialised, on a driver that answers every call with success: the
    constructor returns after exactly three native calls, the allocation of
    the connection handle, the connect with the connect string, and the
    auto-commit attribute set to [TRUE] or [FALSE] as asked; no cursor is
    created and no statement is executed.  The new connection is listed in
    [connections], holds the handle that the driver allocated, and has
    session number [0]. *)
Theorem connect_to_another_database_takes_three_calls
    dbType system username password autoCommit transactionMode queryBands
    kwargs e (w : World DrvState) :
  (forall s c, rc_of (drv_step s c).1 = SQL_SUCCESS) ->
  w_hEnv w = HPtr e -> dbType <> py "Teradata" ->
  let self := length (w_conns w) in
  let h := out_int 0 0
             (drv_step (w_drv w) (SQLAllocHandle SQL_HANDLE_DBC e)).1 in
  exists w',
    OdbcConnection_init drv_step fuel _convertLineFeeds convertType repr
      fetchone0 Cursor_exit dbType system username password autoCommit
      transactionMode queryBands kwargs w = (Ret self, w') /\
    w_connections w' = w_connections w ++ [self] /\
    w_conns w' = w_conns w ++ [mkConn (HPtr h) 0 0 [] dbType] /\
    w_cursors w' = w_cursors w /\
    map fst (w_log w')
    = rev [SQLAllocHandle SQL_HANDLE_DBC e;
           SQLDriverConnectW h
             (join (py ";")
                (map format_kv
                   (connectParams dbType system username password
                      transactionMode kwargs)));
           SQLSetConnectAttr h SQL_ATTR_AUTOCOMMIT
             (if autoCommit then TRUE else FALSE)]
      ++ map fst (w_log w).
Proof.
  intros Hrc He Hdb self h. subst self.
  assert (Halter : forall f x (l : list Conn),
            alter f (length l) (l ++ [x]) = l ++ [f x]).
  { intros f x l.
    replace (length l) with (length l + 0)%nat at 1 by lia.
    now rewrite alter_app_r. }
  assert (Hhand :
    handshake drv_step fuel dbType system username password transactionMode
      kwargs w
    = (Ret (length (w_conns w)),
       answered
         (SQLDriverConnectW h
            (join (py ";")
               (map format_kv
                  (connectParams dbType system username password
                     transactionMode kwargs))))
         (drv_step
            (drv_step (w_drv w) (SQLAllocHandle SQL_HANDLE_DBC e)).2
            (SQLDriverConnectW h
               (join (py ";")
                  (map format_kv
                     (connectParams dbType system username password
                        transactionMode kwargs))))).1
         (drv_step
            (drv_step (w_drv w) (SQLAllocHandle SQL_HANDLE_DBC e)).2
            (SQLDriverConnectW h
               (join (py ";")
                  (map format_kv
                     (connectParams dbType system username password
                        transactionMode kwargs))))).2
         (upd_conns (alter (with_hDbc (HPtr h)) (length (w_conns w)))
            (answered (SQLAllocHandle SQL_HANDLE_DBC e)
               (drv_step (w_drv w) (SQLAllocHandle SQL_HANDLE_DBC e)).1
               (drv_step (w_drv w) (SQLAllocHandle SQL_HANDLE_DBC e)).2
               (upd_connections (fun l => l ++ [length (w_conns w)])
                  (upd_conns (fun l => l ++ [mkConn (HPtr 0) 0 0 [] dbType])
                     w)))))).
  { unfold handshake.
    rewrite bind_get, bind_modify, bind_modify.
    erewrite bind_Ret by (apply (initOdbcEnv_set drv_step fuel _ e); exact He).
    rewrite bind_get. cbn [w_hEnv upd_connections upd_conns addr].
    rewrite He. cbn [addr].
    rewrite bind_native, bind_set_conn.
    rewrite bind_status_success by apply Hrc.
    rewrite bind_native.
    rewrite bind_status_success by apply Hrc.
    reflexivity. }
  unfold OdbcConnection_init. rewrite (bind_Ret _ _ _ _ _ Hhand).
  match goal with
  | |- context [try_except ?m ?hd] =>
    match goal with
    | |- exists w', bind _ _ ?w1 = _ /\ _ =>
      assert (Hset : m w1
                     = (Ret tt,
                        answered
                          (SQLSetConnectAttr h SQL_ATTR_AUTOCOMMIT
                             (if autoCommit then TRUE else FALSE))
                          (drv_step (w_drv w1)
                             (SQLSetConnectAttr h SQL_ATTR_AUTOCOMMIT
                                (if autoCommit then TRUE else FALSE))).1
                          (drv_step (w_drv w1)
                             (SQLSetConnectAttr h SQL_ATTR_AUTOCOMMIT
                                (if autoCommit then TRUE else FALSE))).2
                          w1))
    end
  end.
  { unfold setup.
    rewrite (bind_conn_of _ (mkConn (HPtr h) 0 0 [] dbType))
      by (cbn [w_conns answered upd_conns upd_connections];
          rewrite Halter; apply list_lookup_middle; reflexivity).
    cbn [hDbc addr].
    rewrite bind_native.
    rewrite bind_status_success by apply Hrc.
    now rewrite bool_decide_eq_false_2 by exact Hdb. }
  rewrite (bind_Ret _ _ _ _ _ (try_except_Ret _ _ _ _ _ Hset)).
  eexists. split; [reflexivity |].
  cbn [w_connections w_conns w_cursors w_log answered upd_conns
       upd_connections map fst rev app].
  rewrite Halter. repeat split.
Qed.

End ConnectFacts.


(** * Runs on concrete drivers *)

(** C1, counterexample: with [rc] success-with-info, [checkStatus] raises the
    [InterfaceError] of a diagnostic retrieval that answers an error; and with
    [rc] an error and the records [08003], [08S01], of which only the first is
    in the ignore list, it does not raise. *)
Lemma checkStatus_counterexample :
  (checkStatus (constant (answer SQL_ERROR)) 1 SQL_SUCCESS_WITH_INFO
     Default Default (Given (HPtr 3)) None (world0 tt)).1
  = Raise (InterfaceError (py "SQL_ERROR")
             (py "SQL_ERROR returned from SQLGetDiagRecW.") []) /\
  (diagnosticsOf scripted 3 Default (Given (HPtr 2)) Default
     (world0 broken_link)).1
  = Ret [(py "08003", py "Connection not open", 0);
         (py "08S01", py "Communication link failure", 7)] /\
  ~ ignored (Some [py "08003"]) (py "08S01") /\
  (checkStatus scripted 3 SQL_ERROR Default (Given (HPtr 2)) Default
     (Some [py "08003"]) (world0 broken_link)).1
  = Ret [py "08003"].
Proof.
  split; [vm_compute; reflexivity |]. split; [vm_compute; reflexivity |].
  split; [| vm_compute; reflexivity].
  intros (l & Hl & Hin). injection Hl as <-.
  apply list_elem_of_singleton in Hin. discriminate.
Qed.

(** C1, at a syntax error on a statement. *)
Lemma checkStatus_witness :
  checkStatus scripted 2 SQL_ERROR Default Default (Given (HPtr 3)) None
    (world0 syntax_error)
  = (Raise (DatabaseError 3706 (py "[42000] Syntax error") (py "42000")),
     (diagnosticsOf scripted 2 Default Default (Given (HPtr 3))
        (world0 syntax_error)).2).
Proof.
  destruct (checkStatus_raises_for_first_unignored_record scripted 2
              SQL_ERROR Default Default (Given (HPtr 3)) None
              (world0 syntax_error)) as [_ H].
  destruct (H [(py "42000", py "Syntax error", 3706)]
              (diagnosticsOf scripted 2 Default Default (Given (HPtr 3))
                 (world0 syntax_error)).2)
    as [_ H'].
  - discriminate.
  - discriminate.
  - vm_compute. reflexivity.
  - destruct H' as (_ & _ & _ & Hraise); [discriminate |].
    apply (Hraise (py "42000", py "Syntax error", 3706) []).
    + reflexivity.
    + intros (l & Hl & _). discriminate.
Defined.

(** C2, at two rows for a statement of two parameters, the second row one
    value short. *)
Lemma mismatch_witness :
  let params := [[PStr (py "a"); PInt 1]; [PStr (py "b")]] in
  let dataTypes := [SQL_WVARCHAR; SQL_WVARCHAR] in
  (for_each params (executeRow stmt_step 5 none_repr (HPtr 3) 0 2 dataTypes)
     two_params).1 = Raise (PARAMS_MISMATCH 1 2) /\
  (_executeManyBatch stmt_step 5 none_repr 0 params 2 dataTypes two_params).1
  = Raise (PARAMS_MISMATCH 1 2).
Proof.
  intros params dataTypes.
  destruct (mismatch_fails_before_binding stmt_step 5 none_repr (HPtr 3) 0 2
              dataTypes [[PStr (py "a"); PInt 1]] [PStr (py "b")] [])
    as [Hrow Hbatch].
  - simpl. lia.
  - repeat constructor.
  - split.
    + refine (f_equal fst
                (Hrow two_params
                   (for_each [[PStr (py "a"); PInt 1]]
                      (executeRow stmt_step 5 none_repr (HPtr 3) 0 2
                         dataTypes) two_params).2 _)).
      vm_compute. reflexivity.
    + destruct (Hbatch 0%nat (mkCursor (HPtr 3) 0 0 None (-1) None [] [] None)
                  two_params eq_refl eq_refl) as (_ & _ & H).
      refine (f_equal fst
                (H (batch_attributes stmt_step 5 (HPtr 3) 2 two_params).2 _)).
      vm_compute. reflexivity.
Defined.








(** C7, at a connection with one cursor on a driver that accepts every
    call. *)
Lemma close_twice_witness :
  let drv := constant (answer SQL_SUCCESS) in
  let w' := (OdbcConnection_close drv 3 0 (world1 tt [])).2 in
  let w'' := (OdbcCursor_close drv 3 0 (world1 tt [])).2 in
  OdbcConnection_close drv 3 0 w' = (Ret tt, w') /\
  OdbcCursor_close drv 3 0 w'' = (Ret tt, w'').
Proof.
  intros drv w' w''.
  destruct (close_twice_is_noop drv 3) as [Hconn Hcur].
  split.
  - apply (Hconn 0%nat (world1 tt [])). vm_compute. reflexivity.
  - apply (Hcur 0%nat (world1 tt [])). vm_compute. reflexivity.
Defined.

(** C8: [callproc("p", (InOutParam("seed"), OutParam()))] on a driver that
    stores ["ONE"] into the buffer of the first parameter and ["TWO"] into
    the buffer of the second: the two buffers hold these values after the
    call, and both resolvers return ["TWO"], the content of the buffer bound
    last, which is what the variable [param] of their closures then
    denotes. *)
Theorem callproc_resolvers_read_the_last_buffer :
  callproc_run.1 = Ret (Some (py "TWO"), Some (py "TWO")) /\
  map _outputStr (w_bufs callproc_run.2) = [Ret (py "ONE"); Ret (py "TWO")].
Proof. split; vm_compute; reflexivity. Qed.

(** C9, counterexample: the autocommit attribute is refused and the
    disconnect of the close fails: the constructor raises the error of the
    disconnect, and the connection keeps its handle and stays registered. *)
Lemma failed_setup_counterexample :
  (connect refused_then_broken).1
  = Raise (DatabaseError 7 (py "[08S01] Communication link failure")
             (py "08S01")) /\
  hDbc <$> w_conns (connect refused_then_broken).2 !! 0%nat = Some (HPtr 2) /\
  w_connections (connect refused_then_broken).2 = [0%nat].
Proof. repeat split; vm_compute; reflexivity. Qed.

(** C9, at a connect whose autocommit attribute is refused. *)
Lemma failed_setup_witness :
  let e := DatabaseError 1 (py "[HYC00] Optional feature not implemented")
             (py "HYC00") in
  (connect refused_autocommit).1 = Raise e /\
  hDbc <$> w_conns (connect refused_autocommit).2 !! 0%nat = Some HNone.
Proof.
  intros e.
  pose (w0 := (handshake scripted 3 (py "Teradata") (py "tdprod") (py "u")
                 (py "p") [] [] (world0 refused_autocommit)).2).
  pose (w1 := (setup scripted 3 id (fun _ _ => []) none_repr
                 (fun _ => ret 0) (OdbcCursor_close scripted 3) 0 true []
                 w0).2).
  pose (w2 := (OdbcConnection_close scripted 3 0 w1).2).
  destruct (failed_setup_closes_connection scripted 3 id (fun _ _ => [])
              none_repr (fun _ => ret 0) (OdbcCursor_close scripted 3)
              (py "Teradata") (py "tdprod") (py "u") (py "p") true [] [] []
              (world0 refused_autocommit) w0 w1 0%nat e) as [H _].
  - vm_compute. reflexivity.
  - vm_compute. reflexivity.
  - destruct (H w2) as [Hinit _]; [vm_compute; reflexivity |].
    unfold connect. rewrite Hinit. split; vm_compute; reflexivity.
Defined.

(** C10, counterexample: a primitive that answers success to every request
    keeps the scan going for ever, whatever the fuel; and on the answers
    [growing_message] record 1 is requested three times, with buffers of 4096,
    5000 and 6000 bytes. *)
Lemma scan_counterexample :
  (forall n,
     (getDiagnosticInfo (constant (answer SQL_SUCCESS)) n 3 SQL_HANDLE_STMT
        (world0 tt)).1 = Diverge) /\
  calls_of
    (w_log (getDiagnosticInfo scripted 5 3 SQL_HANDLE_STMT
              (world0 growing_message)).2)
  = [SQLGetDiagRecW SQL_HANDLE_STMT 3 1 4096;
     SQLGetDiagRecW SQL_HANDLE_STMT 3 1 5000;
     SQLGetDiagRecW SQL_HANDLE_STMT 3 1 6000;
     SQLGetDiagRecW SQL_HANDLE_STMT 3 2 6000].
Proof.
  split; [| vm_compute; reflexivity].
  intros n. unfold getDiagnosticInfo.
  assert (H : forall v (w : World unit),
            data (sqlState v) = [] -> data (messageBuffer v) = [] ->
            (getDiagLoop (constant (answer SQL_SUCCESS)) n 3 SQL_HANDLE_STMT
               v w).1 = Diverge);
    [| apply H; reflexivity].
  induction n as [| n IH]; intros v w Hst Hmsg; [reflexivity |].
  cbn [getDiagLoop]. unfold bind at 1, native, constant at 1. cbn [fst snd].
  change (rc_of (answer SQL_SUCCESS)) with SQL_SUCCESS.
  change (SQL_SUCCESS =? SQL_SUCCESS_WITH_INFO) with false.
  change (SQL_SUCCESS =? SQL_SUCCESS) with true.
  cbn [andb orb].
  change (out_buf 0 (sqlState v) (answer SQL_SUCCESS)) with (sqlState v).
  change (out_buf 1 (messageBuffer v) (answer SQL_SUCCESS))
    with (messageBuffer v).
  unfold _outputStr. rewrite Hst, Hmsg.
  apply IH; assumption.
Qed.

(** ** Runs for the further properties *)

(** X1: a row of a text, a null and a byte array with a zero byte in it. *)
Lemma next_row_witness :
  let descs := [text_col; text_col; (py "b", py "BINARY", 0, 0, 1)] in
  let row := [Some (py "ab"); None; Some [ascii_of_nat 0; ascii_of_nat 255]] in
  let w := world_rows (mkRowSet [row] [] []) descs in
  exists w' c' it',
    next_row rowset_step 2 (py "BINARY") 0 w
    = (Ret (Some [VStr (py "ab"); VNone;
                  VBytes [ascii_of_nat 0; ascii_of_nat 255]]), w') /\
    rs_rows (w_drv w') = [] /\
    w_cursors w' !! 0%nat = Some c' /\ description c' = Some descs /\
    iterator c' = Some it' /\ it_done it' = false /\
    cap (it_buf it') = cap (it_buf rowIterator).
Proof.
  intros descs row w.
  apply (next_yields_the_row 2 (py "BINARY") 0
           (mkCursor (HPtr 3) 0 0 (Some descs) (-1) None [] []
              (Some rowIterator))
           rowIterator descs row [] w).
  - reflexivity.
  - reflexivity.
  - reflexivity.
  - reflexivity.
  - vm_compute. discriminate.
  - reflexivity.
  - repeat constructor; vm_compute; try reflexivity; discriminate.
Defined.

(** X2: a result set that is over: the first [next()] ends the iterator, and the
    second finds it ended. *)
Lemma finished_iterator_witness :
  let w := world_rows (mkRowSet [] [] []) [text_col] in
  let w1 := (next_row rowset_step 3 (py "BINARY") 0 w).2 in
  next_row rowset_step 3 (py "BINARY") 0 w1 = (Ret None, w1).
Proof.
  intros w w1.
  apply (finished_iterator_stays_finished rowset_step 3 (py "BINARY") 0
           (mkCursor (HPtr 3) 0 0 (Some [text_col]) (-1) None [] []
              (Some rowIterator))
           rowIterator w (Ret None) w1).
  - reflexivity.
  - reflexivity.
  - vm_compute. reflexivity.
  - left. reflexivity.
Defined.

(** X4: a handshake that the driver refuses: the constructor raises, and the
    connection is in [connections]. *)
Lemma failed_handshake_witness :
  let script :=
    [mkResponse SQL_SUCCESS [Some 1] [] []; answer SQL_SUCCESS;
     mkResponse SQL_SUCCESS [Some 2] [] []; answer SQL_ERROR;
     diag_answer SQL_SUCCESS "28000" "Invalid password" 8017 16] in
  let run := handshake scripted 3 (py "Teradata") (py "tdprod") (py "u")
               (py "p") [] [] (world0 script) in
  (exists e, run.1 = Raise e) /\ w_connections run.2 = [0%nat].
Proof.
  intros script run. split.
  - vm_compute. eexists. reflexivity.
  - apply (failed_handshake_stays_registered scripted 3 (py "Teradata")
             (py "tdprod") (py "u") (py "p") [] [] (world0 script)
             run.1 run.2).
    apply surjective_pairing.
Defined.

(** X5: a second cursor on a connection that has one. *)
Lemma cursor_witness :
  let drv := constant (mkResponse SQL_SUCCESS [Some 4] [] []) in
  let w := world1 tt [] in
  let run := cursor drv 3 0 w in
  run.1 = Ret 1%nat /\
  w_conns run.2 = [mkConn (HPtr 2) 2 0 [0%nat; 1%nat] (py "Teradata")] /\
  w_cursors run.2
  = w_cursors w ++ [mkCursor (HPtr 4) 1 0 None (-1) None [] [] None].
Proof.
  intros drv w run.
  assert (E : run.1 = Ret 1%nat) by (vm_compute; reflexivity).
  split; [exact E |].
  pose proof (cursor_is_counted_when_created drv 3 0%nat
                (mkConn (HPtr 2) 1 0 [0%nat] (py "Teradata")) w run.1 run.2
                eq_refl (surjective_pairing _)) as H.
  rewrite E in H. destruct H as (_ & Hc & Hk). split; [exact Hk | exact Hc].
Defined.

(** X6: the close of the cursor of a connection, on a driver that accepts every
    call. *)
Lemma cursor_close_witness :
  let drv := constant (answer SQL_SUCCESS) in
  let w := world1 tt [] in
  let run := OdbcCursor_close drv 3 0 w in
  run.1 = Ret tt /\
  exists k l,
    w_conns w !! 0%nat = Some k /\ list_remove 0 (cursors k) = Some l /\
    w_conns run.2 = <[0%nat := with_cursors l k]> (w_conns w) /\
    w_cursors run.2
    = <[0%nat := with_hStmt HNone
                   (mkCursor (HPtr 3) 0 0 None (-1) None [] [] None)]>
        (w_cursors w).
Proof.
  intros drv w run.
  assert (E : run.1 = Ret tt) by (vm_compute; reflexivity).
  split; [exact E |].
  pose proof (cursor_close_completes_or_changes_nothing drv 3 0%nat
                (mkCursor (HPtr 3) 0 0 None (-1) None [] [] None) w
                run.1 run.2 eq_refl eq_refl (surjective_pairing _)) as H.
  rewrite E in H. exact H.
Defined.

(** X7: a close whose disconnect fails with an error that is not ignored: the
    close raises, and the connection is still listed with its handle. *)
Lemma failed_close_witness :
  let script :=
    [answer SQL_SUCCESS; answer SQL_ERROR;
     diag_answer SQL_SUCCESS "HY000" "General error" 1 13] in
  let w := world1 script [] in
  let run := OdbcConnection_close scripted 3 0 w in
  run.1 = Raise (DatabaseError 1 (py "[HY000] General error") (py "HY000")) /\
  w_connections run.2 = [0%nat] /\ map hDbc (w_conns run.2) = [HPtr 2].
Proof.
  intros script w run.
  assert (E : run.1 = Raise (DatabaseError 1 (py "[HY000] General error")
                               (py "HY000")))
    by (vm_compute; reflexivity).
  split; [exact E |].
  apply (failed_close_keeps_the_connection scripted 3 0%nat w
           (DatabaseError 1 (py "[HY000] General error") (py "HY000"))
           run.2).
  rewrite <- E. apply surjective_pairing.
Defined.

(** X8: the exit hook with two connections listed, the first open, with a
    cursor, and the second without a handle: the second stays listed. *)
Lemma cleanupConnections_witness :
  let drv := constant (answer SQL_SUCCESS) in
  let w :=
    mkWorld tt [] (HPtr 1) [0%nat; 1%nat]
      [mkConn (HPtr 2) 1 0 [0%nat] (py "Teradata");
       mkConn (HPtr 0) 0 0 [] (py "Teradata")]
      [mkCursor (HPtr 3) 0 0 None (-1) None [] [] None] [] [] [] in
  let w' := (cleanupConnections drv 3 w).2 in
  w_connections w' = [1%nat] /\
  Forall (fun c => closed w' c = true) [0%nat; 1%nat].
Proof.
  intros drv w w'.
  apply (cleanupConnections_closes_the_open_ones drv 3 w w').
  - apply NoDup_cons. split; [| apply NoDup_singleton].
    intros H. apply list_elem_of_singleton in H. discriminate H.
  - vm_compute. reflexivity.
Defined.

(** X9: the results of a statement with one column. *)
Lemma handleResults_witness :
  let script :=
    [mkResponse SQL_SUCCESS [Some 1] [] [];
     mkResponse SQL_SUCCESS [Some (-1)] [] [];
     mkResponse SQL_SUCCESS [Some 2; Some 12; Some 10; Some 0; Some 1]
       [py "id" ++ [NUL]] [];
     mkResponse SQL_SUCCESS [] [py "INTEGER" ++ [NUL]] []] in
  let w := world1 script [] in
  let w' := (_handleResults scripted 3 (fun _ t => t) 0 w).2 in
  exists c',
    w_cursors w' !! 0%nat = Some c' /\ hStmt c' = HPtr 3 /\
    (exists d, description c' = Some d /\ length d = 1%nat) /\
    length (types c') = 1%nat /\ iterator c' = Some rowIterator.
Proof.
  intros script w w'.
  apply (handleResults_describes_the_result scripted 3 (fun _ t => t) 0%nat
           (mkCursor (HPtr 3) 0 0 None (-1) None [] [] None) w w').
  - reflexivity.
  - vm_compute. reflexivity.
Defined.

(** X10: no further result set. *)
Lemma nextset_witness :
  let w := world_rows [answer SQL_NO_DATA] [text_col] in
  let run := nextset scripted 3 (fun _ t => t) 0 w in
  run.1 = Ret false /\ w_cursors run.2 = w_cursors w.
Proof.
  intros w run.
  assert (E : run.1 = Ret false) by (vm_compute; reflexivity).
  split; [exact E |].
  refine (proj2 (nextset_false_leaves_the_cursor scripted 3 (fun _ t => t)
                   0%nat
                   (mkCursor (HPtr 3) 0 0 (Some [text_col]) (-1) None [] []
                      (Some rowIterator))
                   w false run.2 eq_refl _) eq_refl).
  rewrite <- E. apply surjective_pairing.
Defined.

(** X11: the type name of a column is asked for and the driver answers with an
    error: the column [id] gets the type name [id]. *)
Lemma failed_type_name_witness :
  let r := mkResponse SQL_SUCCESS [Some 2; Some 12; Some 10; Some 0; Some 1]
             [py "id" ++ [NUL]] [] in
  let w := world_rows [r; answer SQL_ERROR] [] in
  let v := mkDescVars (_createBuffer SMALL_BUFFER_SIZE) 0 0 0 in
  exists w' x' size digits nullable,
    describeColumns scripted 3 (fun _ t => t) 0 (HPtr 3) (py "Teradata")
      [0%nat] v w = (Ret tt, w') /\
    w_cursors w' !! 0%nat = Some x' /\
    description x' = Some ([] ++ [(py "id", py "id", size, digits, nullable)]) /\
    types x' = [] ++ [(py "id", py "id")].
Proof.
  intros r w v.
  apply (failed_type_name_lookup_is_not_noticed scripted 3 (fun _ t => t)
           0%nat (HPtr 3) (py "Teradata") 0%nat v w
           (mkCursor (HPtr 3) 0 0 (Some []) (-1) None [] []
              (Some rowIterator))
           [] r [answer SQL_ERROR] (answer SQL_ERROR) [] (py "id")).
  - reflexivity.
  - reflexivity.
  - reflexivity.
  - reflexivity.
  - vm_compute. reflexivity.
  - reflexivity.
  - reflexivity.
Defined.



(** X18: a message of 5000 characters: 4999 of them are listed. *)
Lemma long_message_witness :
  let recs := [(py "42000", repeat "a"%char 5000, -3706)] in
  (exists w',
     getDiagnosticInfo diag_std 3 3 SQL_HANDLE_STMT (world0 recs)
     = (Ret (diag_scan SMALL_BUFFER_SIZE recs), w')) /\
  diag_scan SMALL_BUFFER_SIZE recs
  = [(py "42000", repeat "a"%char 4999, 3706)].
Proof.
  intros recs. split.
  - apply (long_messages_lose_their_last_character 3 3 SQL_HANDLE_STMT
             (world0 recs)).
    + apply Forall_cons. split; [| constructor].
      unfold diag_wf. cbn [fst snd].
      split; [repeat constructor |].
      split; [vm_compute; reflexivity |].
      split; [apply Forall_forall; intros x Hx;
              apply list_elem_of_In, repeat_spec in Hx;
              now subst x |].
      split; [rewrite repeat_length; vm_compute; reflexivity |].
      split; [intros H; vm_compute in H; discriminate H
             | vm_compute; reflexivity].
    + simpl. lia.
  - vm_compute. reflexivity.
Defined.

(** X19: a second connection, to another database, with auto-commit and a
    keyword argument. *)
Lemma connect_witness :
  let drv := constant (mkResponse SQL_SUCCESS [Some 7] [] []) in
  let w := world1 tt [] in
  exists w',
    OdbcConnection_init drv 3 id (fun _ t => t) (fun _ => [])
      (fun _ => ret 0) (fun _ => ret tt) (py "Aster") (py "host") (py "u")
      (py "p") true [] [] [(py "PORT", py "2406")] w = (Ret 1%nat, w') /\
    w_connections w' = [0%nat; 1%nat] /\
    w_conns w'
    = w_conns w ++ [mkConn (HPtr 7) 0 0 [] (py "Aster")] /\
    w_cursors w' = w_cursors w /\
    map fst (w_log w')
    = rev [SQLAllocHandle SQL_HANDLE_DBC 1;
           SQLDriverConnectW 7
             (py "DRIVER=Aster;DBCNAME=host;UID=u;PWD=p;PORT=2406");
           SQLSetConnectAttr 7 SQL_ATTR_AUTOCOMMIT TRUE]
      ++ map fst (w_log w).
Proof.
  intros drv w.
  apply (connect_to_another_database_takes_three_calls drv 3 id
           (fun _ t => t) (fun _ => []) (fun _ => ret 0) (fun _ => ret tt)
           (py "Aster") (py "host") (py "u") (py "p") true [] []
           [(py "PORT", py "2406")] 1 w).
  - intros s c. reflexivity.
  - reflexivity.
  - intros H. vm_compute in H. discriminate H.
Defined.
